(** * Hazard-detection benchmark: the confidence-gated assessment protocol

    A shallow embedding of
      - [gemini_hazard_benchmark.py] (class [GeminiHazardBenchmark]) and
      - [hazard_detection_benchmark.py] (class [HazardDetectionBenchmark]),
    followed by the properties of the response extractor, the two assessors,
    the comparator and the benchmark aggregator.

    Conventions of the embedding.
      - A Python [str] is a list of Unicode code points ([list N]).
      - A Python [dict] is an association list without duplicate keys, kept
        in insertion order; [None] and JSON [null] are the same value.
      - Console input, the file system and the remote model are an explicit
        [World] threaded through a state-and-exception monad; a raised
        exception keeps the state reached so far, as in Python.
      - [print] is not modelled: nothing in the program reads what it
        prints.  Where a [print] evaluates an expression that can raise, the
        raise is modelled. *)

From Stdlib Require Import String Ascii Bool ZArith NArith QArith Lia Lqa List.
Import ListNotations.

Local Close Scope Q_scope.
Local Open Scope nat_scope.
Local Open Scope list_scope.

(** ** Python strings *)

Module PyStr.

Definition str := list N.

(** [U "abc"] is the Python literal ['abc'] (ASCII literals only). *)
Definition U (s : string) : str :=
  map N_of_ascii (list_ascii_of_string s).

(** The double-quote character, which a literal of this file cannot hold. *)
Definition dq : str := [34%N].

Fixpoint eqb (a b : str) : bool :=
  match a, b with
  | [], [] => true
  | x :: a', y :: b' => N.eqb x y && eqb a' b'
  | _, _ => false
  end.

(** [s.startswith(p)] *)
Fixpoint startswith (s p : str) {struct p} : bool :=
  match p, s with
  | [], _ => true
  | x :: p', y :: s' => N.eqb x y && startswith s' p'
  | _ :: _, [] => false
  end.

(** Lowest offset at which [sub] occurs in [s], counted from [i]. *)
Fixpoint find_at (sub s : str) (i : nat) : option nat :=
  if startswith s sub then Some i
  else match s with
       | [] => None
       | _ :: t => find_at sub t (S i)
       end.

(** Python's normalisation of a slice bound against a length. *)
Definition norm_index (len : nat) (i : Z) : nat :=
  if (i <? 0)%Z then Z.to_nat (Z.max 0 (Z.of_nat len + i))
  else Nat.min (Z.to_nat i) len.

(** [s[a:b]] *)
Definition slice (s : str) (a b : Z) : str :=
  skipn (norm_index (length s) a) (firstn (norm_index (length s) b) s).

(** [s.find(sub, start)]: the lowest index at or after [start] where [sub]
    occurs, or the sentinel [-1]. *)
Definition find (s sub : str) (start : Z) : Z :=
  if (Z.of_nat (length s) <? start)%Z then (-1)%Z
  else
    let k := norm_index (length s) start in
    match find_at sub (skipn k s) k with
    | Some i => Z.of_nat i
    | None => (-1)%Z
    end.

(** [sub in s] *)
Definition contains (sub s : str) : bool :=
  match find_at sub s 0 with Some _ => true | None => false end.

(** [str.isspace] on one character: the code points Python treats as
    whitespace, which are the ones [strip()] removes. *)
Definition is_space (c : N) : bool :=
  ((9 <=? c) && (c <=? 13) || (28 <=? c) && (c <=? 32)
   || (c =? 133) || (c =? 160) || (c =? 5760)
   || (8192 <=? c) && (c <=? 8202)
   || (c =? 8232) || (c =? 8233) || (c =? 8239) || (c =? 8287)
   || (c =? 12288))%N.

Fixpoint lstrip (s : str) : str :=
  match s with
  | c :: t => if is_space c then lstrip t else s
  | [] => []
  end.

Definition rstrip (s : str) : str := rev (lstrip (rev s)).

(** [s.strip()] *)
Definition strip (s : str) : str := rstrip (lstrip s).

(** [s.replace(old, new)] for a non-empty [old]: occurrences are taken from
    left to right without overlap.  [skip] counts the characters of a match
    still to be dropped. *)
Fixpoint replace_from (old new : str) (skip : nat) (s : str) : str :=
  match s with
  | [] => []
  | c :: t =>
      match skip with
      | S k => replace_from old new k t
      | O =>
          if startswith s old
          then new ++ replace_from old new (length old - 1) t
          else c :: replace_from old new 0 t
      end
  end.

Definition replace (s old new : str) : str := replace_from old new 0 s.

(** Decimal rendering of a non-negative integer, as [str(n)] gives it. *)
Fixpoint digits_of (fuel : nat) (n : N) (acc : str) : str :=
  match fuel with
  | O => acc
  | S f =>
      let acc' := (48 + n mod 10)%N :: acc in
      if (n <? 10)%N then acc' else digits_of f (n / 10)%N acc'
  end.

Definition of_N (n : N) : str := digits_of (S (N.size_nat n)) n [].

Definition of_nat (n : nat) : str := of_N (N.of_nat n).

Definition of_Z (z : Z) : str :=
  if (z <? 0)%Z then 45%N :: of_N (Z.to_N (- z)) else of_N (Z.to_N z).

End PyStr.

Import PyStr.

(** ** Python values *)

(** A Python [float], which is an IEEE 754 binary64 number.  A finite
    one is the rational it denotes ([Fin 0] stands for both zeros);
    [binary64] below is how every operation of the program arrives at
    one. *)
Inductive pyfloat :=
| Fin (q : Q)
| Inf (negative : bool)
| NaN.

(** [n / d] rounded to the nearest integer, a tie going to the even one,
    for [d] positive and [n] not negative. *)
Definition round_half_even (n d : Z) : Z :=
  let fl := (n / d)%Z in
  match (2 * (n mod d) ?= d)%Z with
  | Lt => fl
  | Gt => (fl + 1)%Z
  | Eq => if Z.even fl then fl else (fl + 1)%Z
  end.

(** The exponent [e] with [2^e <= a / d < 2^(e + 1)], for [a] and [d]
    positive. *)
Definition floor_log2 (a d : Z) : Z :=
  let e := (Z.log2 a - Z.log2 d)%Z in
  if (if (0 <=? e)%Z then (d * 2 ^ e <=? a)%Z
      else (d <=? a * 2 ^ (- e))%Z)
  then e else (e - 1)%Z.

(** The largest finite binary64 number. *)
Definition max_binary64 : Z := ((2 ^ 53 - 1) * 2 ^ 971)%Z.

(** The binary64 number nearest to the rational [q], a tie going to the
    even significand (53 bits, exponents from -1022 with gradual
    underflow); the infinity of its sign when that number is beyond the
    largest finite one. *)
Definition binary64 (q : Q) : pyfloat :=
  let n := Qnum q in
  let d := Zpos (Qden q) in
  if (n =? 0)%Z then Fin 0
  else
    let a := Z.abs n in
    let negative := (n <? 0)%Z in
    let e := (Z.max (floor_log2 a d) (-1022) - 52)%Z in
    let m := if (0 <=? e)%Z then round_half_even a (d * 2 ^ e)
             else round_half_even (a * 2 ^ (- e)) d in
    if (0 <=? e)%Z then
      if (max_binary64 <? m * 2 ^ e)%Z then Inf negative
      else Fin (inject_Z (if negative then (- (m * 2 ^ e))%Z
                          else (m * 2 ^ e)%Z))
    else
      Fin (Qred (Qmake (if negative then (- m)%Z else m)
                   (Z.to_pos (2 ^ (- e))))).

(** What [json.loads] can return, which is also what the dictionaries of
    the program hold. *)
#[local] Unset Elimination Schemes.
Inductive json :=
| JNull
| JBool (b : bool)
| JInt (z : Z)
| JFloat (f : pyfloat)
| JStr (s : str)
| JArr (l : list json)
| JObj (d : list (str * json)).
#[local] Set Elimination Schemes.

Definition dict := list (str * json).

Fixpoint lookup (d : dict) (k : str) : option json :=
  match d with
  | [] => None
  | (k', v) :: d' => if PyStr.eqb k k' then Some v else lookup d' k
  end.

(** [d.get(k, default)] *)
Definition get (d : dict) (k : str) (default : json) : json :=
  match lookup d k with Some v => v | None => default end.

(** [d.get(k)] *)
Definition get_none (d : dict) (k : str) : json := get d k JNull.

(** [d[k] = v]: an existing key keeps its place, a new one goes last. *)
Fixpoint setitem (d : dict) (k : str) (v : json) : dict :=
  match d with
  | [] => [(k, v)]
  | (k', v') :: d' =>
      if PyStr.eqb k k' then (k', v) :: d' else (k', v') :: setitem d' k v
  end.

(** [type(v).__name__] *)
Definition type_name (v : json) : str :=
  match v with
  | JNull => U "NoneType"
  | JBool _ => U "bool"
  | JInt _ => U "int"
  | JFloat _ => U "float"
  | JStr _ => U "str"
  | JArr _ => U "list"
  | JObj _ => U "dict"
  end.

(** Truth value of [v] in a condition. *)
Definition truthy (v : json) : bool :=
  match v with
  | JNull => false
  | JBool b => b
  | JInt z => negb (z =? 0)%Z
  | JFloat (Fin q) => negb (Qeq_bool q 0)
  | JFloat _ => true
  | JStr s => negb (PyStr.eqb s [])
  | JArr l => match l with [] => false | _ => true end
  | JObj d => match d with [] => false | _ => true end
  end.

(** ** Exceptions *)

Inductive exn :=
| ValueError (msg : str)
| FileNotFoundError (msg : str)
| OSError (msg : str)
| EOFError (msg : str)
| JSONDecodeError (msg : str)
| AttributeError (msg : str)
| TypeError (msg : str)
| RecursionError (msg : str)
| OverflowError (msg : str)
| UnboundLocalError (msg : str)
| APIError (msg : str).

(** [str(e)] *)
Definition exn_str (e : exn) : str :=
  match e with
  | ValueError m | FileNotFoundError m | OSError m | EOFError m
  | JSONDecodeError m | AttributeError m | TypeError m | RecursionError m
  | OverflowError m | UnboundLocalError m | APIError m => m
  end.

(** [isinstance(e, json.JSONDecodeError)] *)
Definition is_JSONDecodeError (e : exn) : bool :=
  match e with JSONDecodeError _ => true | _ => false end.

(** [v.get] on a value that is not a dictionary. *)
Definition no_attribute (v : json) (attr : str) : exn :=
  AttributeError
    (U "'" ++ type_name v ++ U "' object has no attribute '" ++ attr ++ U "'").

(** ** Python arithmetic on the collected scores *)

Inductive pynum :=
| PInt (z : Z)
| PFloat (f : pyfloat).

(** [a + b] on floats: the exact sum, rounded. *)
Definition float_add (a b : pyfloat) : pyfloat :=
  match a, b with
  | NaN, _ | _, NaN => NaN
  | Inf s, Inf t => if Bool.eqb s t then Inf s else NaN
  | Inf s, Fin _ | Fin _, Inf s => Inf s
  | Fin p, Fin q => binary64 (p + q)
  end.

(** [float(z)], the conversion [+] and [/] apply to an [int] that meets
    a [float]. *)
Definition float_of_int (z : Z) : exn + pyfloat :=
  match binary64 (inject_Z z) with
  | Inf _ => inl (OverflowError (U "int too large to convert to float"))
  | f => inr f
  end.

(** The value of a number in a comparison: Python compares an [int]
    with a [float] exactly, without converting it. *)
Definition to_float (n : pynum) : pyfloat :=
  match n with
  | PInt z => Fin (inject_Z z)
  | PFloat f => f
  end.

(** [a + b]: exact on two [int]s; otherwise an [int] is converted and
    the floats are added. *)
Definition num_add (a b : pynum) : exn + pynum :=
  match a, b with
  | PInt x, PInt y => inr (PInt (x + y))
  | PInt x, PFloat g =>
      match float_of_int x with
      | inl e => inl e
      | inr f => inr (PFloat (float_add f g))
      end
  | PFloat f, PInt y =>
      match float_of_int y with
      | inl e => inl e
      | inr g => inr (PFloat (float_add f g))
      end
  | PFloat f, PFloat g => inr (PFloat (float_add f g))
  end.

(** The number a value stands for in [+], if it is one ([True] is 1). *)
Definition as_number (v : json) : option pynum :=
  match v with
  | JInt z => Some (PInt z)
  | JBool b => Some (PInt (if b then 1 else 0))
  | JFloat f => Some (PFloat f)
  | _ => None
  end.

Definition num_type_name (n : pynum) : str :=
  match n with PInt _ => U "int" | PFloat _ => U "float" end.

(** [sum(l)], from the accumulator [acc] on: the items are added from
    left to right, each addition rounded as above (what CPython does up
    to version 3.11; later versions add floats with a compensation
    term). *)
Fixpoint sum_from (acc : pynum) (l : list json) : exn + pynum :=
  match l with
  | [] => inr acc
  | v :: l' =>
      match as_number v with
      | Some n =>
          match num_add acc n with
          | inl e => inl e
          | inr acc' => sum_from acc' l'
          end
      | None =>
          inl (TypeError
                 (U "unsupported operand type(s) for +: '" ++ num_type_name acc
                  ++ U "' and '" ++ type_name v ++ U "'"))
      end
  end.

Definition sum (l : list json) : exn + pynum := sum_from (PInt 0) l.

(** [a / n] for a positive count [n].  True division gives a float: of
    two [int]s, the quotient correctly rounded; of a [float] and an
    [int], the quotient of the float by the converted count, rounded. *)
Definition truediv (a : pynum) (n : nat) : exn + pyfloat :=
  match a with
  | PInt z =>
      match binary64 (Qmake z (Pos.of_nat n)) with
      | Inf _ =>
          inl (OverflowError
                 (U "integer division result too large for a float"))
      | f => inr f
      end
  | PFloat f =>
      match float_of_int (Z.of_nat n) with
      | inl e => inl e
      | inr (Fin d) =>
          inr (match f with
               | Fin q => binary64 (q / d)
               | _ => f
               end)
      | inr g => inr g
      end
  end.

Definition float_gt (a b : pyfloat) : bool :=
  match a, b with
  | NaN, _ | _, NaN => false
  | Inf s, Inf t => negb s && t
  | Inf s, Fin _ => negb s
  | Fin _, Inf t => t
  | Fin p, Fin q => negb (Qle_bool p q)
  end.

(** [a > b] *)
Definition num_gt (a b : pynum) : bool :=
  match a, b with
  | PInt x, PInt y => (y <? x)%Z
  | _, _ => float_gt (to_float a) (to_float b)
  end.

(** ** The world: console, file system and remote model *)

Inductive file :=
| Readable (data : list N)
| Unreadable (msg : str).

(** What a model call gives back: the reply text, and the bookkeeping
    fields the single-pass assessor copies into its result. *)
Record response := mkResponse {
  text : str;
  created : Z;
  model : str;
  prompt_tokens : Z;
  completion_tokens : Z;
  total_tokens : Z
}.

(** The outcome of one call of the client library: the response, or the
    exception the library raises, which can be any. *)
Inductive call_result :=
| Reply (r : response)
| Fail (e : exn).

(** One request sent to the model: its text parts in order and, when an
    image goes with it, the declared MIME type and the image bytes. *)
Record request := mkRequest {
  req_parts : list str;
  req_image : option (str * list N)
}.

(** [files] lists the paths that exist; [stdin] holds the lines still to be
    typed; [oracle k] is the outcome of the model call number [k] (from 0);
    [calls] logs the requests sent so far, oldest first. *)
Record World := mkWorld {
  files : list (str * file);
  stdin : list str;
  oracle : nat -> call_result;
  calls : list request
}.

Definition M (A : Type) : Type := World -> (exn + A) * World.

Definition ret {A} (a : A) : M A := fun w => (inr a, w).

Definition raise {A} (e : exn) : M A := fun w => (inl e, w).

Definition bind {A B} (m : M A) (k : A -> M B) : M B :=
  fun w =>
    match m w with
    | (inr a, w') => k a w'
    | (inl e, w') => (inl e, w')
    end.

(** [try: body / except ...: handler]; the handler runs in the state the
    body had reached. *)
Definition try_except {A} (body : M A) (handler : exn -> M A) : M A :=
  fun w =>
    match body w with
    | (inl e, w') => handler e w'
    | r => r
    end.

(** A pure computation that may raise. *)
Definition lift {A} (r : exn + A) : M A := fun w => (r, w).

Declare Scope py_scope.
Delimit Scope py_scope with py.
Notation "x <- m ;; k" := (bind m (fun x => k))
  (at level 61, m at next level, right associativity) : py_scope.
Notation "m ;;; k" := (bind m (fun _ => k))
  (at level 61, right associativity) : py_scope.
Local Open Scope py_scope.

Fixpoint find_file (fs : list (str * file)) (path : str) : option file :=
  match fs with
  | [] => None
  | (p, f) :: fs' => if PyStr.eqb path p then Some f else find_file fs' path
  end.

(** [os.path.exists(path)] *)
Definition path_exists (path : str) : M bool :=
  fun w => (inr (match find_file (files w) path with
                 | Some _ => true | None => false end), w).

(** [open(path, "rb").read()] *)
Definition read_file (path : str) : M (list N) :=
  fun w =>
    match find_file (files w) path with
    | Some (Readable data) => (inr data, w)
    | Some (Unreadable msg) => (inl (OSError msg), w)
    | None =>
        (inl (FileNotFoundError
                (U "[Errno 2] No such file or directory: '" ++ path ++ U "'")),
         w)
    end.

(** The world with [rest] left to be typed. *)
Definition set_stdin (rest : list str) (w : World) : World :=
  mkWorld (files w) rest (oracle w) (calls w).

(** [input(prompt)]: the next line typed, [EOFError] when there is none. *)
Definition input : M str :=
  fun w =>
    match stdin w with
    | line :: rest => (inr line, set_stdin rest w)
    | [] => (inl (EOFError (U "EOF when reading a line")), w)
    end.

(** The world once [req] has been sent. *)
Definition log (req : request) (w : World) : World :=
  mkWorld (files w) (stdin w) (oracle w) (calls w ++ [req]).

(** The outcome of the next model call. *)
Definition next_reply (w : World) : call_result :=
  oracle w (length (calls w)).

(** One call to the remote model and the read of its reply: the request is
    logged, and the call either fails or gives a response. *)
Definition call_model (req : request) : M response :=
  fun w =>
    match next_reply w with
    | Reply r => (inr r, log req w)
    | Fail e => (inl e, log req w)
    end.

(** [s.lower()] on the ASCII letters, which decides [endswith('.png')]. *)
Definition ascii_lower (s : str) : str :=
  map (fun c => if ((65 <=? c) && (c <=? 90))%N then (c + 32)%N else c) s.

Definition endswith (s suffix : str) : bool :=
  startswith (rev s) (rev suffix).

Definition mime_type (image_path : str) : str :=
  if endswith (ascii_lower image_path) (U ".png")
  then U "image/png" else U "image/jpeg".

(** The file system once [data] has been written at [path]: an existing
    file is replaced, a new one is added at the end; a path that cannot
    be opened ([Unreadable]) raises the error it holds. *)
Fixpoint store_file (fs : list (str * file)) (path : str) (data : list N)
    : exn + list (str * file) :=
  match fs with
  | [] => inr [(path, Readable data)]
  | (p, f) :: fs' =>
      if PyStr.eqb path p then
        match f with
        | Readable _ => inr ((p, Readable data) :: fs')
        | Unreadable msg => inl (OSError msg)
        end
      else
        match store_file fs' path data with
        | inl e => inl e
        | inr fs'' => inr ((p, f) :: fs'')
        end
  end.

(** [with open(path, "w") as f: f.write(text)] *)
Definition write_file (path : str) (text : str) : M unit :=
  fun w =>
    match store_file (files w) path text with
    | inl e => (inl e, w)
    | inr fs => (inr tt, mkWorld fs (stdin w) (oracle w) (calls w))
    end.

(** The truth value of [os.getenv(name)]: the variable is set, and not to
    the empty string. *)
Definition is_set (value : option str) : bool :=
  match value with
  | Some (_ :: _) => true
  | _ => false
  end.

(** ** Rendering values into prompts and messages *)

Definition quoted (s : string) : str := dq ++ U s ++ dq.

(** ** [gemini_hazard_benchmark.py] *)

Module GeminiHazardBenchmark.

Definition system_prompt : str :=
  U "You are an expert factory safety inspector analyzing hazard photos.

ANALYSIS FOCUS:
- Identify visible safety issues/hazards (electrical, mechanical, chemical, ergonomic, etc.)
- Determine specific location within the facility 
- Note severity and immediate risks
- Suggest corrective actions

CONFIDENCE RULES:
- High confidence (>80%): Clear, obvious hazards with sufficient detail
- Medium confidence (50-80%): Some uncertainty about specifics
- Low confidence (<50%): Unclear image, missing context, or ambiguous hazards

OUTPUT REQUIREMENTS:
- Be specific and safety-focused
- Use technical safety terminology when appropriate
- Consider immediate vs long-term risks
- Prioritize worker safety above all else

RESPONSE FORMAT: Always return valid JSON only.".
Section Program.

(** [json.loads] belongs to the standard library, not to the program: the
    program is read over any decoder.  [Decoder.loads] below is the
    decoder the closed examples run. *)
Variable json_loads : str -> exn + json.

(** [repr] of a float, a list or a dictionary is the interpreter's
    business; the program only pastes the result into a prompt. *)
Variable py_repr : json -> str.

(** What an f-string puts in place of [{v}]. *)
Definition py_str (v : json) : str :=
  match v with
  | JStr s => s
  | JNull => U "None"
  | JBool true => U "True"
  | JBool false => U "False"
  | JInt z => of_Z z
  | JFloat _ | JArr _ | JObj _ => py_repr v
  end.

Definition encode_image (image_path : str) : M (list N) :=
  read_file image_path.

(** The fence-stripping block that follows every [response.text.strip()]
    of this file (in [method1_manual_input_with_ai], twice in
    [method2_ai_followup], and in [evaluate_accuracy]). *)
Definition strip_json_fence (response_text : str) : str :=
  if contains (U "```json") response_text then
    let start := (find response_text (U "```json") 0 + 7)%Z in
    let end_ := find response_text (U "```") start in
    strip (slice response_text start end_)
  else response_text.

(** [json.loads] of a reply, after [strip()] and the fence block. *)
Definition parse_reply (r : response) : exn + json :=
  json_loads (strip_json_fence (strip (text r))).

(** The first [result.get(...)] on a decoded reply: it needs a
    dictionary. *)
Definition as_dict (v : json) : M dict :=
  match v with
  | JObj d => ret d
  | _ => raise (no_attribute v (U "get"))
  end.

Definition ai_prompt (user_issue user_location user_note : str) : str :=
  system_prompt
  ++ U "

USER PROVIDED INFORMATION:
- Issue: " ++ user_issue
  ++ U "
- Location: " ++ user_location
  ++ U "  
- Note: " ++ user_note
  ++ U "

TASK: Based on the user's input and your analysis of this image, provide a comprehensive safety assessment.

OUTPUT FORMAT (JSON only):
{
    " ++ quoted "issue" ++ U ": "
  ++ quoted "detailed safety issue based on user input and image analysis"
  ++ U ",
    " ++ quoted "location" ++ U ": "
  ++ quoted "specific location description based on user input and image"
  ++ U ",
    " ++ quoted "note" ++ U ": "
  ++ quoted "comprehensive safety assessment and recommendations"
  ++ U ",
    " ++ quoted "confidence_level" ++ U ": " ++ quoted "high|medium|low"
  ++ U ",
    " ++ quoted "capa" ++ U ": "
  ++ quoted "corrective and preventive action recommendation"
  ++ U "
}".
(** The dictionary [method1_manual_input_with_ai] returns from its [try]
    body. *)
Definition method1_record
    (user_issue user_location user_note : str) (result : dict) : dict :=
  [(U "method", JStr (U "manual_input_with_ai"));
   (U "user_input",
    JObj [(U "issue", JStr user_issue);
          (U "location", JStr user_location);
          (U "note", JStr user_note)]);
   (U "issue", get_none result (U "issue"));
   (U "location", get_none result (U "location"));
   (U "note", get_none result (U "note"));
   (U "confidence_level", get_none result (U "confidence_level"));
   (U "capa", get result (U "capa") (JStr []));
   (U "source", JStr (U "ai_analysis_with_user_input"))].

(** Its two [except] clauses: [json.JSONDecodeError], then [Exception]. *)
Definition method1_failed
    (user_issue user_location user_note : str) (e : exn) : dict :=
  if is_JSONDecodeError e then
    [(U "method", JStr (U "manual_input_with_ai"));
     (U "error", JStr (U "JSON parsing failed: " ++ exn_str e));
     (U "issue", JStr (U "Based on user input: " ++ user_issue));
     (U "location", JStr user_location);
     (U "note", JStr user_note)]
  else
    [(U "method", JStr (U "manual_input_with_ai"));
     (U "error", JStr (U "AI analysis failed: " ++ exn_str e));
     (U "issue", JStr (U "Based on user input: " ++ user_issue));
     (U "location", JStr user_location);
     (U "note", JStr user_note)].

Definition method1_manual_input_with_ai (image_path : str) : M dict :=
  user_issue <- input ;;
  user_location <- input ;;
  user_note <- input ;;
  image_data <- encode_image image_path ;;
  try_except
    (response <- call_model
       (mkRequest [ai_prompt user_issue user_location user_note]
                  (Some (mime_type image_path, image_data))) ;;
     result <- lift (parse_reply response) ;;
     result <- as_dict result ;;
     ret (method1_record user_issue user_location user_note result))
    (fun e => ret (method1_failed user_issue user_location user_note e)).

Definition followup_prompt : str :=
  system_prompt
  ++ U "

TASK: Analyze this factory image and generate ONE specific follow-up question that would help you provide a more accurate safety assessment.

OUTPUT FORMAT (JSON only):
{
    " ++ quoted "initial_analysis" ++ U ": "
  ++ quoted "brief description of what you see"
  ++ U ",
    " ++ quoted "confidence_level" ++ U ": " ++ quoted "high|medium|low"
  ++ U ",
    " ++ quoted "follow_up_question" ++ U ": "
  ++ quoted "one specific question to improve accuracy"
  ++ U ",
    " ++ quoted "reasoning" ++ U ": "
  ++ quoted "why this question would help"
  ++ U "
}".
Definition final_prompt (followup_result : dict) (user_answer : str) : str :=
  system_prompt
  ++ U "

CONTEXT: You previously analyzed this image and asked: " ++ dq
  ++ py_str (get followup_result (U "follow_up_question") (JStr [])) ++ dq
  ++ U "
USER ANSWER: " ++ dq ++ user_answer ++ dq
  ++ U "

TASK: Now provide your final safety assessment.

OUTPUT FORMAT (JSON only):
{
    " ++ quoted "issue" ++ U ": " ++ quoted "specific safety issue/hazard"
  ++ U ",
    " ++ quoted "location" ++ U ": "
  ++ quoted "specific location in facility"
  ++ U ",
    " ++ quoted "note" ++ U ": "
  ++ quoted "additional safety details and severity"
  ++ U ",
    " ++ quoted "confidence_level" ++ U ": " ++ quoted "high|medium|low"
  ++ U ",
    " ++ quoted "capa" ++ U ": "
  ++ quoted "corrective and preventive action recommendation"
  ++ U "
}".
(** The dictionary [method2_ai_followup] returns from its [try] body. *)
Definition method2_record
    (followup_result : dict) (user_answer : str) (final_result : dict)
    : dict :=
  [(U "method", JStr (U "ai_followup"));
   (U "follow_up_question",
    get_none followup_result (U "follow_up_question"));
   (U "user_answer", JStr user_answer);
   (U "issue", get_none final_result (U "issue"));
   (U "location", get_none final_result (U "location"));
   (U "note", get_none final_result (U "note"));
   (U "confidence_level", get_none final_result (U "confidence_level"));
   (U "capa", get final_result (U "capa") (JStr []));
   (U "source", JStr (U "ai_analysis_with_followup"))].

(** Its two [except] clauses: [json.JSONDecodeError], then [Exception]. *)
Definition method2_failed (e : exn) : dict :=
  if is_JSONDecodeError e then
    [(U "method", JStr (U "ai_followup"));
     (U "error", JStr (U "JSON parsing failed: " ++ exn_str e));
     (U "confidence_level", JStr (U "error"));
     (U "issue", JStr (U "AI response parsing failed"));
     (U "location", JStr (U "N/A"));
     (U "note", JStr (U "N/A"))]
  else
    [(U "method", JStr (U "ai_followup"));
     (U "error", JStr (U "AI analysis failed: " ++ exn_str e));
     (U "confidence_level", JStr (U "error"));
     (U "issue", JStr (U "AI analysis failed"));
     (U "location", JStr (U "N/A"));
     (U "note", JStr (U "N/A"))].

Definition method2_ai_followup (image_path : str) : M dict :=
  image_data <- encode_image image_path ;;
  try_except
    (response <- call_model
       (mkRequest [followup_prompt]
                  (Some (mime_type image_path, image_data))) ;;
     followup_result <- lift (parse_reply response) ;;
     followup_result <- as_dict followup_result ;;
     user_answer <- input ;;
     final_response <- call_model
       (mkRequest [final_prompt followup_result user_answer]
                  (Some (mime_type image_path, image_data))) ;;
     final_result <- lift (parse_reply final_response) ;;
     final_result <- as_dict final_result ;;
     ret (method2_record followup_result user_answer final_result))
    (fun e => ret (method2_failed e)).

Definition get_ground_truth : M dict :=
  actual_issue <- input ;;
  actual_location <- input ;;
  actual_note <- input ;;
  ret [(U "actual_issue", JStr actual_issue);
       (U "actual_location", JStr actual_location);
       (U "actual_note", JStr actual_note);
       (U "source", JStr (U "ground_truth"))].

Definition evaluation_prompt (method1_result method2_result ground_truth : dict) : str :=
  U "You are an expert evaluator comparing two safety assessment methods against the ground truth.

METHOD 1 RESULT:
Issue: " ++ py_str (get method1_result (U "issue") (JStr (U "N/A")))
  ++ U "
Location: " ++ py_str (get method1_result (U "location") (JStr (U "N/A")))
  ++ U "
Note: " ++ py_str (get method1_result (U "note") (JStr (U "N/A")))
  ++ U "

METHOD 2 RESULT:
Issue: " ++ py_str (get method2_result (U "issue") (JStr (U "N/A")))
  ++ U "
Location: " ++ py_str (get method2_result (U "location") (JStr (U "N/A")))
  ++ U "
Note: " ++ py_str (get method2_result (U "note") (JStr (U "N/A")))
  ++ U "

GROUND TRUTH (CORRECT ANSWER):
Issue: " ++ py_str (get ground_truth (U "actual_issue") (JStr (U "N/A")))
  ++ U "
Location: "
  ++ py_str (get ground_truth (U "actual_location") (JStr (U "N/A")))
  ++ U "
Note: " ++ py_str (get ground_truth (U "actual_note") (JStr (U "N/A")))
  ++ U "

TASK: Compare each method against the ground truth and determine accuracy percentages.

OUTPUT FORMAT (JSON only):
{
    " ++ quoted "method1_accuracy"
  ++ U ": 85,
    " ++ quoted "method2_accuracy"
  ++ U ": 92,
    " ++ quoted "winner" ++ U ": " ++ quoted "method1|method2|tie"
  ++ U ",
    " ++ quoted "method1_analysis" ++ U ": "
  ++ quoted "detailed comparison of method 1 vs ground truth"
  ++ U ",
    " ++ quoted "method2_analysis" ++ U ": "
  ++ quoted "detailed comparison of method 2 vs ground truth"
  ++ U ",
    " ++ quoted "overall_assessment" ++ U ": "
  ++ quoted "which method performed better and why"
  ++ U "
}".
(** The [except Exception] clause of [evaluate_accuracy]. *)
Definition evaluation_failed (e : exn) : dict :=
  [(U "error", JStr (U "Evaluation failed: " ++ exn_str e));
   (U "method1_accuracy", JInt 0);
   (U "method2_accuracy", JInt 0);
   (U "winner", JStr (U "error"))].

(** The comparator returns whatever the judge's reply decodes to, a
    dictionary or not. *)
Definition evaluate_accuracy
    (method1_result method2_result ground_truth : dict) : M json :=
  try_except
    (response <- call_model
       (mkRequest
          [evaluation_prompt method1_result method2_result ground_truth]
          None) ;;
     lift (parse_reply response))
    (fun e => ret (JObj (evaluation_failed e))).

(** Only prints; its first [evaluation.get] raises on a value that is not
    a dictionary. *)
Definition _display_results
    (method1 method2 : dict) (evaluation : json) (test_number : Z)
    : M unit :=
  match evaluation with
  | JObj _ => ret tt
  | _ => raise (no_attribute evaluation (U "get"))
  end.

(** The dictionary [run_single_benchmark] returns. *)
Definition trial_record
    (test_number : Z) (image_path : str)
    (method1_result method2_result ground_truth : dict) (evaluation : json)
    : dict :=
  [(U "test_number", JInt test_number);
   (U "image_path", JStr image_path);
   (U "method1_result", JObj method1_result);
   (U "method2_result", JObj method2_result);
   (U "ground_truth", JObj ground_truth);
   (U "evaluation", evaluation)].

Definition run_single_benchmark (image_path : str) (test_number : Z)
    : M dict :=
  found <- path_exists image_path ;;
  if negb found then
    raise (FileNotFoundError (U "Image not found: " ++ image_path))
  else
    method1_result <- method1_manual_input_with_ai image_path ;;
    method2_result <- method2_ai_followup image_path ;;
    ground_truth <- get_ground_truth ;;
    evaluation <- evaluate_accuracy method1_result method2_result
                    ground_truth ;;
    _display_results method1_result method2_result evaluation
      test_number ;;;
    ret (trial_record test_number image_path method1_result method2_result
           ground_truth evaluation).

(** The three lists the loop of [run_full_benchmark] appends to. *)
Record tally := mkTally {
  results : list dict;
  method1_scores : list json;
  method2_scores : list json
}.

(** One iteration of the loop: the [try] body and its
    [except Exception: continue].  The appends made before a raise
    stay. *)
Definition run_trial (image_path : str) (i : Z) (t : tally)
    : World -> tally * World :=
  fun w =>
    match run_single_benchmark image_path i w with
    | (inl _, w') => (t, w')
    | (inr result, w') =>
        let t1 := mkTally (results t ++ [result])
                          (method1_scores t) (method2_scores t) in
        match get_none result (U "evaluation") with
        | JObj eval_data =>
            (mkTally (results t1)
               (method1_scores t1
                  ++ [get eval_data (U "method1_accuracy") (JInt 0)])
               (method2_scores t1
                  ++ [get eval_data (U "method2_accuracy") (JInt 0)]),
             w')
        | _ => (t1, w')
        end
    end.

(** [for i, image_path in enumerate(image_paths, i): ...] *)
Fixpoint run_trials (image_paths : list str) (i : Z) (t : tally)
    : World -> tally * World :=
  fun w =>
    match image_paths with
    | [] => (t, w)
    | image_path :: rest =>
        let (t', w') := run_trial image_path i t w in
        run_trials rest (i + 1) t' w'
    end.

(** [sum(scores) / len(scores) if scores else 0] *)
Definition average (scores : list json) : exn + pynum :=
  match scores with
  | [] => inr (PInt 0)
  | _ :: _ =>
      match sum scores with
      | inl e => inl e
      | inr s =>
          match truediv s (length scores) with
          | inl e => inl e
          | inr avg => inr (PFloat avg)
          end
      end
  end.

Record BenchmarkSummary := mkSummary {
  total_tests : nat;
  method1_average : pynum;
  method2_average : pynum;
  summary_method1_scores : list json;
  summary_method2_scores : list json;
  winner : str
}.

Record BenchmarkReport := mkReport {
  benchmark_summary : BenchmarkSummary;
  detailed_results : list dict
}.

Definition overall_winner (avg_method1 avg_method2 : pynum) : str :=
  if num_gt avg_method1 avg_method2 then U "method1"
  else if num_gt avg_method2 avg_method1 then U "method2"
  else U "tie".

(** The statistics and the returned dictionary, lines 401 to 417. *)
Definition summarize (t : tally) : exn + BenchmarkReport :=
  match average (method1_scores t) with
  | inl e => inl e
  | inr avg_method1 =>
      match average (method2_scores t) with
      | inl e => inl e
      | inr avg_method2 =>
          inr (mkReport
                 (mkSummary (length (results t)) avg_method1 avg_method2
                    (method1_scores t) (method2_scores t)
                    (overall_winner avg_method1 avg_method2))
                 (results t))
      end
  end.

Definition run_full_benchmark (image_paths : list str)
    : M BenchmarkReport :=
  if negb (length image_paths =? 5) then
    raise (ValueError
             (U "Please provide exactly 5 image paths for the benchmark"))
  else
    fun w =>
      let (t, w') := run_trials image_paths 1 (mkTally [] [] []) w in
      (summarize t, w').

(** [_display_final_summary] only prints.  Its averages are the [int] 0
    or a [float], which [:.1f] formats, and any score can be pasted into
    an f-string; the one expression of it that can raise is [scores2[i]],
    for [i] below [len(scores1)]. *)
Inductive display_outcome :=
| Displayed
| IndexError (msg : str).

Definition _display_final_summary
    (avg1 avg2 : pynum) (scores1 scores2 : list json) : display_outcome :=
  if length scores2 <? length scores1
  then IndexError (U "list index out of range")
  else Displayed.

Definition num_json (n : pynum) : json :=
  match n with
  | PInt z => JInt z
  | PFloat f => JFloat f
  end.

(** The dictionary [run_full_benchmark] returns, lines 407 to 417, as
    [json.dump] receives it. *)
Definition report_json (r : BenchmarkReport) : json :=
  let s := benchmark_summary r in
  JObj
    [(U "benchmark_summary",
      JObj [(U "total_tests", JInt (Z.of_nat (total_tests s)));
            (U "method1_average", num_json (method1_average s));
            (U "method2_average", num_json (method2_average s));
            (U "method1_scores", JArr (summary_method1_scores s));
            (U "method2_scores", JArr (summary_method2_scores s));
            (U "winner", JStr (winner s))]);
     (U "detailed_results", JArr (map JObj (detailed_results r)))].

(** [json.dumps(obj, indent=2)], the text [json.dump] writes: the
    serializer belongs to the standard library as the decoder does. *)
Variable json_dumps : json -> str.

(** The [while True] loop of [main], lines 459 to 465: lines are read
    until the stripped line names an existing path.  Each round consumes
    one line, so the recursion is on the lines still to be typed; [input]
    raises when they run out. *)
Fixpoint ask_image_path (fs : list (str * file)) (lines : list str)
    : (exn + str) * list str :=
  match lines with
  | [] => (inl (EOFError (U "EOF when reading a line")), [])
  | line :: rest =>
      let path := strip line in
      match find_file fs path with
      | Some _ => (inr path, rest)
      | None => ask_image_path fs rest
      end
  end.

Definition read_image_path : M str :=
  fun w =>
    let (r, rest) := ask_image_path (files w) (stdin w) in
    (r, set_stdin rest w).

(** [for i in range(n): ... image_paths.append(path)] *)
Fixpoint read_image_paths (n : nat) : M (list str) :=
  match n with
  | 0 => ret []
  | S k =>
      path <- read_image_path ;;
      image_paths <- read_image_paths k ;;
      ret (path :: image_paths)
  end.

(** [main()]; [api_key] is the value of [GEMINI_API_KEY] in the
    environment.  The constructor call only configures the client
    library. *)
Definition main (api_key : option str) : M unit :=
  if negb (is_set api_key) then ret tt
  else
    image_paths <- read_image_paths 5 ;;
    try_except
      (results <- run_full_benchmark image_paths ;;
       write_file (U "benchmark_results.json")
         (json_dumps (report_json results)))
      (fun _ => ret tt).

End Program.

End GeminiHazardBenchmark.

(** ** [hazard_detection_benchmark.py] *)

Module HazardDetectionBenchmark.

Definition system_prompt : str :=
  U "You are an expert factory safety inspector analyzing hazard photos. 

Your task:
1. Identify visible safety issues/hazards
2. Propose bounding boxes for hazards (x, y, width, height as percentages 0-100)
3. Fill three fields: issue, location, note

CONFIDENCE RULES:
- If you can clearly identify specific hazards with high confidence (>80%), provide direct answers
- If confidence is low (<80%) or critical information is missing, generate a clarifying question instead

OUTPUT FORMAT - Always respond with valid JSON only:
{
    " ++ quoted "confidence_level" ++ U ": " ++ quoted "high|medium|low"
  ++ U ",
    " ++ quoted "mode" ++ U ": " ++ quoted "auto_fill|follow_up_question"
  ++ U ", 
    " ++ quoted "issue" ++ U ": "
  ++ quoted "specific safety issue or null if asking question"
  ++ U ",
    " ++ quoted "location" ++ U ": "
  ++ quoted "specific location in facility or null if asking question"
  ++ U ", 
    " ++ quoted "note" ++ U ": "
  ++ quoted "additional safety details or null if asking question"
  ++ U ",
    " ++ quoted "bounding_boxes" ++ U ": [{" ++ quoted "x" ++ U ": 0, "
  ++ quoted "y" ++ U ": 0, " ++ quoted "width" ++ U ": 0, "
  ++ quoted "height" ++ U ": 0, " ++ quoted "label" ++ U ": "
  ++ quoted "hazard description"
  ++ U "}],
    " ++ quoted "capa" ++ U ": "
  ++ quoted "corrective and preventive action recommendation"
  ++ U ",
    " ++ quoted "follow_up_question" ++ U ": "
  ++ quoted "clarifying question if mode is follow_up_question, otherwise null"
  ++ U "
}

Be precise and safety-focused. Only auto-fill if you're highly confident.".
Definition user_text : str :=
U "Analyze this factory image for safety hazards and follow the confidence-based output format.".

Section Program.

Variable json_loads : str -> exn + json.

(** The image goes out base64-encoded inside a data URL; the request
    logged here keeps the bytes themselves. *)
Definition encode_image (image_path : str) : M (list N) :=
  read_file image_path.

(** "Clean up response if it has markdown formatting" *)
Definition clean_markdown (content : str) : str :=
  if startswith content (U "```json") then
    strip (replace (replace content (U "```json") []) (U "```") [])
  else content.

(** [result[key] = value] on a decoded reply. *)
Definition setitem_json (result : json) (key : str) (value : json)
    : exn + json :=
  match result with
  | JObj d => inr (JObj (setitem d key value))
  | JArr _ =>
      inl (TypeError (U "list indices must be integers or slices, not str"))
  | _ =>
      inl (TypeError
             (U "'" ++ type_name result
              ++ U "' object does not support item assignment"))
  end.

(** The body of the [try] from [json.loads] on. *)
Definition decode_and_stamp (response : response) (content : str)
    : exn + json :=
  match json_loads content with
  | inl e => inl e
  | inr result =>
      match setitem_json result (U "timestamp") (JInt (created response)) with
      | inl e => inl e
      | inr result =>
          match setitem_json result (U "model") (JStr (model response)) with
          | inl e => inl e
          | inr result =>
              setitem_json result (U "usage")
                (JObj [(U "prompt_tokens", JInt (prompt_tokens response));
                       (U "completion_tokens",
                        JInt (completion_tokens response));
                       (U "total_tokens", JInt (total_tokens response))])
          end
      end
  end.

(** The [except json.JSONDecodeError] clause. *)
Definition parsing_failed (content : str) (e : exn) : dict :=
  [(U "error", JStr (U "JSON parsing error: " ++ exn_str e));
   (U "raw_response", JStr content);
   (U "confidence_level", JStr (U "error"));
   (U "mode", JStr (U "error"))].

(** The [except Exception] clause. *)
Definition call_failed (e : exn) : dict :=
  [(U "error", JStr (U "API call failed: " ++ exn_str e));
   (U "confidence_level", JStr (U "error"));
   (U "mode", JStr (U "error"))].

(** What the [except json.JSONDecodeError] clause does when the call
    itself raised that exception: the clause reads [content], which is
    bound only once the call has returned, so it raises in its turn, and
    an exception raised in a handler leaves the function. *)
Definition content_unbound : exn :=
  UnboundLocalError
    (U "cannot access local variable 'content' where it is not associated with a value").

(** The [try] covers the call and the decoding, and its two clauses tell
    the exceptions apart by their class alone.  The inner [try_except]
    is the first clause where [content] is bound, the outer one is both
    clauses where it is not. *)
Definition analyze_hazard_image (image_path : str) : M json :=
  base64_image <- encode_image image_path ;;
  try_except
    (response <- call_model
       (mkRequest [system_prompt; user_text]
                  (Some (U "image/jpeg", base64_image))) ;;
     let content := clean_markdown (strip (text response)) in
     try_except
       (lift (decode_and_stamp response content))
       (fun e =>
          if is_JSONDecodeError e then ret (JObj (parsing_failed content e))
          else raise e))
    (fun e =>
       if is_JSONDecodeError e then raise content_unbound
       else ret (JObj (call_failed e))).

(** [result.get(key)] on the assessor's result, which is always a
    dictionary. *)
Definition field (result : json) (key : str) : json :=
  match result with
  | JObj d => get_none d key
  | _ => JNull
  end.

(** The block [_print_summary] prints after its header. *)
Inductive summary_block :=
| ErrorBlock
| AutoFillBlock
| FollowUpBlock
| NoBlock.

(** [v.upper()]: only a string has it. *)
Definition upper (v : json) : exn + unit :=
  match v with
  | JStr _ => inr tt
  | _ => inl (no_attribute v (U "upper"))
  end.

(** The loop over the bounding boxes: [box.get] on each element. *)
Fixpoint print_boxes (boxes : list json) : exn + unit :=
  match boxes with
  | [] => inr tt
  | JObj _ :: rest => print_boxes rest
  | box :: _ => inl (no_attribute box (U "get"))
  end.

(** [if boxes:], then [len(boxes)] and the loop.  A string iterates over
    its characters and a dictionary over its keys, which are strings. *)
Definition print_bounding_boxes (boxes : json) : exn + unit :=
  if truthy boxes then
    match boxes with
    | JArr l => print_boxes l
    | JStr (c :: _) => inl (no_attribute (JStr [c]) (U "get"))
    | JObj ((k, _) :: _) => inl (no_attribute (JStr k) (U "get"))
    | _ =>
        inl (TypeError
               (U "object of type '" ++ type_name boxes ++ U "' has no len()"))
    end
  else inr tt.

Definition _print_summary (result : dict) : exn + summary_block :=
  if truthy (get_none result (U "error")) then inr ErrorBlock
  else
    let mode := get result (U "mode") (JStr (U "unknown")) in
    let confidence :=
      get result (U "confidence_level") (JStr (U "unknown")) in
    match upper mode with
    | inl e => inl e
    | inr _ =>
        match upper confidence with
        | inl e => inl e
        | inr _ =>
            match mode with
            | JStr m =>
                if PyStr.eqb m (U "auto_fill") then
                  match print_bounding_boxes
                          (get result (U "bounding_boxes") (JArr [])) with
                  | inl e => inl e
                  | inr _ => inr AutoFillBlock
                  end
                else if PyStr.eqb m (U "follow_up_question")
                then inr FollowUpBlock
                else inr NoBlock
            | _ => inr NoBlock
            end
        end
    end.

(** The three outcomes [main] tells apart from
    [result['analysis_result'].get('mode')]. *)
Inductive AssessmentMode := AutoFill | FollowUpQuestion | Error.

Definition assessment_mode (result : json) : AssessmentMode :=
  match field result (U "mode") with
  | JStr m =>
      if PyStr.eqb m (U "auto_fill") then AutoFill
      else if PyStr.eqb m (U "follow_up_question") then FollowUpQuestion
      else Error
  | _ => Error
  end.

(** [v.get(key)] on a value that need not be a dictionary. *)
Definition get_of (v : json) (key : str) : exn + json :=
  match v with
  | JObj d => inr (get_none d key)
  | _ => inl (no_attribute v (U "get"))
  end.

Variable json_dumps : json -> str.

(** The dictionary [run_benchmark] builds, lines 125 to 131. *)
Definition benchmark_result (image_path : str) (result : json) : dict :=
  [(U "benchmark_info",
    JObj [(U "image_path", JStr image_path);
          (U "analysis_type", JStr (U "factory_hazard_detection"))]);
   (U "analysis_result", result)].

(** [self._print_summary(result)] on what the assessor returned. *)
Definition print_summary_of (result : json) : exn + summary_block :=
  match result with
  | JObj d => _print_summary d
  | _ => inl (no_attribute result (U "get"))
  end.

(** [if output_file:] is false on [None] and on the empty string. *)
Definition run_benchmark (image_path : str) (output_file : option str)
    : M dict :=
  found <- path_exists image_path ;;
  if negb found then
    raise (FileNotFoundError (U "Image not found: " ++ image_path))
  else
    result <- analyze_hazard_image image_path ;;
    let benchmark_result := benchmark_result image_path result in
    match output_file with
    | Some (c :: name) =>
        write_file (c :: name) (json_dumps (JObj benchmark_result))
    | _ => ret tt
    end ;;;
    lift (print_summary_of result) ;;;
    ret benchmark_result.

End Program.

End HazardDetectionBenchmark.

(** ** [quick_benchmark.py] and [simple_test.py]

    [sys.exit(1)] ends the script with status 1; a [main] that returns
    ends it with status 0.  Each [main] below returns that status;
    [argv] is [sys.argv], the script name first. *)

Module QuickBenchmark.

Section Program.

Variable json_loads : str -> exn + json.
Variable py_repr : json -> str.
Variable json_dumps : json -> str.

Definition main (argv : list str) (api_key : option str) : M Z :=
  match argv with
  | [_; image_path] =>
      found <- path_exists image_path ;;
      if negb found then ret 1%Z
      else if negb (is_set api_key) then ret 1%Z
      else
        try_except
          (result <- GeminiHazardBenchmark.run_single_benchmark
                       json_loads py_repr image_path 1 ;;
           write_file (U "single_test_result.json")
             (json_dumps (JObj result)) ;;;
           ret 0%Z)
          (fun _ => ret 1%Z)
  | _ => ret 1%Z
  end.

End Program.

End QuickBenchmark.

Module SimpleTest.

Section Program.

Variable json_loads : str -> exn + json.
Variable json_dumps : json -> str.

Definition main (argv : list str) (api_key : option str) : M Z :=
  match argv with
  | [_; image_path] =>
      found <- path_exists image_path ;;
      if negb found then ret 1%Z
      else if negb (is_set api_key) then ret 1%Z
      else
        try_except
          (result <- HazardDetectionBenchmark.run_benchmark
                       json_loads json_dumps image_path None ;;
           let analysis_result := get_none result (U "analysis_result") in
           mode <- lift (HazardDetectionBenchmark.get_of analysis_result
                           (U "mode")) ;;
           confidence <- lift (HazardDetectionBenchmark.get_of
                                 analysis_result (U "confidence_level")) ;;
           ret 0%Z)
          (fun _ => ret 1%Z)
  | _ => ret 1%Z
  end.

End Program.

End SimpleTest.

(** ** A JSON decoder

    The decoder the closed examples run: [json.loads] of the standard
    library on a [str], transcribed from [json/decoder.py] and
    [json/scanner.py] with the messages of the C accelerator.  A float
    literal is decoded as [float(literal)] does, to the binary64 number
    nearest to the decimal it writes.  The interpreter's limits on the
    nesting depth and on the digits of an integer are left out. *)

Module Decoder.

Definition is_ws (c : N) : bool :=
  ((c =? 32) || (c =? 9) || (c =? 10) || (c =? 13))%N.

Fixpoint skip_ws (s : str) : str :=
  match s with
  | c :: t => if is_ws c then skip_ws t else s
  | [] => []
  end.

(** A decoding error: the message and the input left at the error
    position. *)
Inductive failure :=
| Decode (msg : str) (rest : str)
| Recursion.

Definition is_digit (c : N) : bool := ((48 <=? c) && (c <=? 57))%N.

Definition hex_val (c : N) : option N :=
  if is_digit c then Some (c - 48)%N
  else if ((97 <=? c) && (c <=? 102))%N then Some (c - 87)%N
  else if ((65 <=? c) && (c <=? 70))%N then Some (c - 55)%N
  else None.

Definition hex4 (a b c d : N) : option N :=
  match hex_val a, hex_val b, hex_val c, hex_val d with
  | Some x, Some y, Some z, Some t =>
      Some (((x * 16 + y) * 16 + z) * 16 + t)%N
  | _, _, _, _ => None
  end.

(** The table [BACKSLASH] of one-letter escapes. *)
Definition unescape (c : N) : option N :=
  if (c =? 34)%N then Some 34%N
  else if (c =? 92)%N then Some 92%N
  else if (c =? 47)%N then Some 47%N
  else if (c =? 98)%N then Some 8%N
  else if (c =? 102)%N then Some 12%N
  else if (c =? 110)%N then Some 10%N
  else if (c =? 114)%N then Some 13%N
  else if (c =? 116)%N then Some 9%N
  else None.

Definition is_high_surrogate (u : N) : bool :=
  ((55296 <=? u) && (u <=? 56319))%N.

Definition is_low_surrogate (u : N) : bool :=
  ((56320 <=? u) && (u <=? 57343))%N.

Definition invalid_uXXXX : str := U "Invalid \uXXXX escape".

(** [scanstring]: [s] starts after the opening quote, [begin] is the input
    from that quote on, [acc] holds the characters decoded so far, last
    first. *)
Fixpoint scanstring (begin s acc : str) : failure + (str * str) :=
  match s with
  | [] => inl (Decode (U "Unterminated string starting at") begin)
  | c :: r =>
      if (c =? 34)%N then inr (rev acc, r)
      else if (c =? 92)%N then
        match r with
        | [] => inl (Decode (U "Unterminated string starting at") begin)
        | e :: r1 =>
            if (e =? 117)%N then
              match r1 with
              | a :: b :: c1 :: d :: ((_ :: _) as r2) =>
                  match hex4 a b c1 d with
                  | None => inl (Decode invalid_uXXXX r)
                  | Some uni =>
                      match r2 with
                      | bs :: u :: a' :: b' :: c' :: d' :: ((_ :: _) as r3) =>
                          if is_high_surrogate uni
                             && (bs =? 92)%N && (u =? 117)%N
                          then
                            match hex4 a' b' c' d' with
                            | None =>
                                inl (Decode invalid_uXXXX (u :: a' :: b' :: c'
                                                             :: d' :: r3))
                            | Some uni2 =>
                                if is_low_surrogate uni2 then
                                  scanstring begin r3
                                    ((65536 + ((uni - 55296) * 1024
                                               + (uni2 - 56320)))%N :: acc)
                                else scanstring begin r2 (uni :: acc)
                            end
                          else scanstring begin r2 (uni :: acc)
                      | bs :: u :: _ =>
                          if is_high_surrogate uni
                             && (bs =? 92)%N && (u =? 117)%N
                          then inl (Decode invalid_uXXXX (tl r2))
                          else scanstring begin r2 (uni :: acc)
                      | _ => scanstring begin r2 (uni :: acc)
                      end
                  end
              | _ => inl (Decode invalid_uXXXX r)
              end
            else
              match unescape e with
              | Some ch => scanstring begin r1 (ch :: acc)
              | None => inl (Decode (U "Invalid \escape") s)
              end
        end
      else if (c <? 32)%N then
        inl (Decode (U "Invalid control character at") s)
      else scanstring begin r (c :: acc)
  end.

Fixpoint span_digits (s : str) : str * str :=
  match s with
  | c :: t =>
      if is_digit c then let (ds, r) := span_digits t in (c :: ds, r)
      else ([], s)
  | [] => ([], [])
  end.

Definition Z_of_digits (ds : str) : Z :=
  fold_left (fun acc c => (acc * 10 + (Z.of_N c - 48))%Z) ds 0%Z.

(** [mant * 10 ^ scale] as a reduced fraction. *)
Definition decimal (mant scale : Z) : Q :=
  if (0 <=? scale)%Z then inject_Z (mant * 10 ^ scale)
  else Qred (Qmake mant (Z.to_pos (10 ^ (- scale)))).

(** The pieces of [NUMBER_RE], each giving what it matched and the input
    left: an optional minus sign, *)
Definition scan_sign (s : str) : bool * str :=
  match s with
  | c :: r => if (c =? 45)%N then (true, r) else (false, s)
  | [] => (false, s)
  end.

(** the integer part [0|[1-9][0-9]*], *)
Definition scan_int (s : str) : option (str * str) :=
  match s with
  | c :: r =>
      if (c =? 48)%N then Some ([c], r)
      else if is_digit c then Some (span_digits s)
      else None
  | [] => None
  end.

(** the optional fraction [\.[0-9]+], *)
Definition scan_frac (s : str) : str * str :=
  match s with
  | c :: r =>
      if (c =? 46)%N then
        match span_digits r with
        | ([], _) => ([], s)
        | (ds, r') => (ds, r')
        end
      else ([], s)
  | [] => ([], s)
  end.

(** and the optional exponent [[eE][-+]?[0-9]+]. *)
Definition scan_exp (s : str) : option Z * str :=
  match s with
  | c :: r =>
      if ((c =? 101) || (c =? 69))%N then
        let (eneg, r1) :=
          match r with
          | sg :: r' =>
              if (sg =? 45)%N then (true, r')
              else if (sg =? 43)%N then (false, r')
              else (false, r)
          | [] => (false, r)
          end in
        match span_digits r1 with
        | ([], _) => (None, s)
        | (ds, r') =>
            (Some (if eneg then (- Z_of_digits ds)%Z else Z_of_digits ds),
             r')
        end
      else (None, s)
  | [] => (None, s)
  end.

(** [NUMBER_RE.match] and the conversion of what it matched: an [int] when
    there is neither fraction nor exponent, a [float] otherwise. *)
Definition match_number (s : str) : option (json * str) :=
  let (neg, s1) := scan_sign s in
  match scan_int s1 with
  | None => None
  | Some (ids, s2) =>
      let (fds, s3) := scan_frac s2 in
      let (ex, s4) := scan_exp s3 in
      let sign (z : Z) := if neg then (- z)%Z else z in
      match fds, ex with
      | [], None => Some (JInt (sign (Z_of_digits ids)), s4)
      | _, _ =>
          let e := match ex with Some e => e | None => 0%Z end in
          Some (JFloat
                  (binary64 (decimal (sign (Z_of_digits (ids ++ fds)))
                               (e - Z.of_nat (length fds)))),
                s4)
      end
  end.

Definition expecting_value (s : str) : failure :=
  Decode (U "Expecting value") s.

Definition expecting_name (s : str) : failure :=
  Decode (U "Expecting property name enclosed in double quotes") s.

(** The scanner's dispatch on everything but strings, objects and
    arrays. *)
Definition scan_atom (s : str) : failure + (json * str) :=
  if startswith s (U "null") then inr (JNull, skipn 4 s)
  else if startswith s (U "true") then inr (JBool true, skipn 4 s)
  else if startswith s (U "false") then inr (JBool false, skipn 5 s)
  else
    match match_number s with
    | Some r => inr r
    | None =>
        if startswith s (U "NaN") then inr (JFloat NaN, skipn 3 s)
        else if startswith s (U "Infinity")
        then inr (JFloat (Inf false), skipn 8 s)
        else if startswith s (U "-Infinity")
        then inr (JFloat (Inf true), skipn 9 s)
        else inl (expecting_value s)
    end.

(** [scan_once], [JSONObject] from its first key on, and [JSONArray] from
    its first element on.  [fuel] bounds the nesting and the number of
    members; with twice the length of the input it never runs out
    ([DecoderFacts.loads_answers]). *)
Fixpoint scan_once (fuel : nat) (s : str) : failure + (json * str) :=
  match fuel with
  | O => inl Recursion
  | S f =>
      match s with
      | [] => inl (expecting_value s)
      | c :: r =>
          if (c =? 34)%N then
            match scanstring s r [] with
            | inl e => inl e
            | inr (v, r') => inr (JStr v, r')
            end
          else if (c =? 123)%N then
            match skip_ws r with
            | c1 :: r1 =>
                if (c1 =? 125)%N then inr (JObj [], r1)
                else if (c1 =? 34)%N then scan_members f (c1 :: r1) []
                else inl (expecting_name (c1 :: r1))
            | [] => inl (expecting_name [])
            end
          else if (c =? 91)%N then
            match skip_ws r with
            | c1 :: r1 =>
                if (c1 =? 93)%N then inr (JArr [], r1)
                else scan_elements f (c1 :: r1) []
            | [] => scan_elements f [] []
            end
          else scan_atom s
      end
  end

with scan_members (fuel : nat) (s : str) (pairs : dict)
    : failure + (json * str) :=
  match fuel with
  | O => inl Recursion
  | S f =>
      match scanstring s (tl s) [] with
      | inl e => inl e
      | inr (key, s1) =>
          match skip_ws s1 with
          | c :: s2 =>
              if (c =? 58)%N then
                match scan_once f (skip_ws s2) with
                | inl e => inl e
                | inr (value, s3) =>
                    let pairs' := setitem pairs key value in
                    match skip_ws s3 with
                    | c1 :: s4 =>
                        if (c1 =? 125)%N then inr (JObj pairs', s4)
                        else if (c1 =? 44)%N then
                          match skip_ws s4 with
                          | c2 :: s5 =>
                              if (c2 =? 34)%N
                              then scan_members f (c2 :: s5) pairs'
                              else inl (expecting_name (c2 :: s5))
                          | [] => inl (expecting_name [])
                          end
                        else
                          inl (Decode (U "Expecting ',' delimiter")
                                 (c1 :: s4))
                    | [] => inl (Decode (U "Expecting ',' delimiter") [])
                    end
                end
              else inl (Decode (U "Expecting ':' delimiter") (c :: s2))
          | [] => inl (Decode (U "Expecting ':' delimiter") [])
          end
      end
  end

with scan_elements (fuel : nat) (s : str) (values : list json)
    : failure + (json * str) :=
  match fuel with
  | O => inl Recursion
  | S f =>
      match scan_once f s with
      | inl e => inl e
      | inr (value, s1) =>
          let values' := values ++ [value] in
          match skip_ws s1 with
          | c :: s2 =>
              if (c =? 93)%N then inr (JArr values', s2)
              else if (c =? 44)%N then scan_elements f (skip_ws s2) values'
              else inl (Decode (U "Expecting ',' delimiter") (c :: s2))
          | [] => inl (Decode (U "Expecting ',' delimiter") [])
          end
      end
  end.

(** [str(e)] of a [JSONDecodeError(msg, doc, pos)]. *)
Definition errmsg (msg doc : str) (pos : nat) : str :=
  let before := firstn pos doc in
  let lineno := S (count_occ N.eq_dec before 10%N) in
  let colno :=
    S (length (fst (span_digits
                      (map (fun c => if (c =? 10)%N then 10%N else 48%N)
                           (rev before))))) in
  msg ++ U ": line " ++ of_nat lineno ++ U " column " ++ of_nat colno
  ++ U " (char " ++ of_nat pos ++ U ")".

Definition decode_error (msg doc rest : str) : exn :=
  JSONDecodeError (errmsg msg doc (length doc - length rest)).

(** [json.loads(doc)] for a [str]. *)
Definition loads (doc : str) : exn + json :=
  if startswith doc [65279%N] then
    inl (decode_error (U "Unexpected UTF-8 BOM (decode using utf-8-sig)")
           doc doc)
  else
    match scan_once (S (2 * length doc)) (skip_ws doc) with
    | inl (Decode msg rest) => inl (decode_error msg doc rest)
    | inl Recursion =>
        inl (RecursionError (U "maximum recursion depth exceeded"))
    | inr (obj, rest) =>
        match skip_ws rest with
        | [] => inr obj
        | rest' => inl (decode_error (U "Extra data") doc rest')
        end
    end.

End Decoder.

(** ** Vocabulary of the properties *)

(** [x] occurs somewhere in [s]. *)
Definition occurs_in (x s : str) : Prop :=
  exists pre post, s = pre ++ x ++ post.

(** The payload [p] inside a well-formed fenced block: the opening marker
    on a line of its own, the payload, the closing marker on a line of its
    own. *)
Definition fenced (p : str) : str :=
  U "```json" ++ [10%N] ++ p ++ [10%N] ++ U "```".

(** A response whose reply text is [t]. *)
Definition reply_with (t : str) : response := mkResponse t 0 [] 0 0 0.

(** Some string held by [d] contains the text [raw]. *)
Definition mentions (d : dict) (raw : str) : bool :=
  existsb (fun kv => match snd kv with
                     | JStr s => contains raw s
                     | _ => false
                     end) d.

(** The arithmetic mean of integer scores, 0 for no score at all. *)
Definition arithmetic_mean (scores : list Z) : Q :=
  match scores with
  | [] => 0
  | _ :: _ =>
      inject_Z (fold_right Z.add 0%Z scores)
      / inject_Z (Z.of_nat (length scores))
  end.

(** A score of the data model: an integer percentage. *)
Definition percentage (z : Z) : Prop := (0 <= z <= 100)%Z.

(** The mean of integer scores as a Python number: the [int] 0 for no
    score at all, and otherwise the binary64 number nearest to their
    arithmetic mean. *)
Definition float_mean (scores : list Z) : pynum :=
  match scores with
  | [] => PInt 0
  | _ :: _ =>
      PFloat (binary64 (fold_right Z.add 0%Z scores
                        # Pos.of_nat (length scores)))
  end.

(** Both floats are finite, and the first is below the second. *)
Definition fin_lt (f g : pyfloat) : bool :=
  match f, g with
  | Fin p, Fin q => negb (Qle_bool q p)
  | _, _ => false
  end.

(** The binary64 numbers nearest to [s / n], [(s + 1) / n], ...,
    [(s + k) / n] are finite and strictly increasing. *)
Fixpoint increasing_from (n : positive) (s : Z) (k : nat) : bool :=
  match k with
  | O => true
  | S k' =>
      fin_lt (binary64 (s # n)) (binary64 (s + 1 # n))
      && increasing_from n (s + 1) k'
  end.

(** The rational a finite Python number stands for. *)
Definition num_value (n : pynum) : Q :=
  match n with
  | PInt z => inject_Z z
  | PFloat (Fin q) => q
  | PFloat _ => 0
  end.

Section GeminiVocabulary.

Variable json_loads : str -> exn + json.
Variable py_repr : json -> str.

(** What one model call of an assessor comes to: the dictionary decoded
    from the reply, or the exception raised on the way to it. *)
Definition reply_dict (c : call_result) : exn + dict :=
  match c with
  | Fail e => inl e
  | Reply r =>
      match GeminiHazardBenchmark.parse_reply json_loads r with
      | inl e => inl e
      | inr (JObj d) => inr d
      | inr v => inl (no_attribute v (U "get"))
      end
  end.

(** The number of trials of a run that return: the trials "actually
    completed". *)
Fixpoint completed_trials (image_paths : list str) (i : Z) (w : World)
    : nat :=
  match image_paths with
  | [] => 0
  | image_path :: rest =>
      match GeminiHazardBenchmark.run_single_benchmark json_loads py_repr
              image_path i w with
      | (inl _, w') => completed_trials rest (i + 1) w'
      | (inr _, w') => S (completed_trials rest (i + 1) w')
      end
  end.

End GeminiVocabulary.

(** A computation that leaves the file system as it found it. *)
Definition keeps_files {A} (m : M A) : Prop :=
  forall w, files (snd (m w)) = files w.

(** A number that is neither an infinity nor a NaN. *)
Definition finite (n : pynum) : Prop :=
  match n with
  | PFloat (Inf _) | PFloat NaN => False
  | _ => True
  end.

(** [w'] is [w] after at most [lines] lines were read from the console
    and at most [requests] requests were sent to the model, and nothing
    else happened: the lines left are a suffix of those of [w], the log
    of calls extends that of [w], the files and the model's outcomes are
    the same. *)
Definition within (lines requests : nat) (w w' : World) : Prop :=
  files w' = files w /\ oracle w' = oracle w /\
  (exists used, stdin w = used ++ stdin w' /\ length used <= lines) /\
  (exists sent, calls w' = calls w ++ sent /\ length sent <= requests).

(** A computation that reads at most [lines] lines and sends at most
    [requests] requests, whether it returns or raises. *)
Definition costs {A} (m : M A) (lines requests : nat) : Prop :=
  forall w, within lines requests w (snd (m w)).

(** The score a trial record holds under [key]:
    [result['evaluation'].get(key, 0)]. *)
Definition recorded_score (key : str) (result : dict) : json :=
  match get_none result (U "evaluation") with
  | JObj eval_data => get eval_data key (JInt 0)
  | _ => JInt 0
  end.

(** A JSON value Python's [sum] can add to a number. *)
Definition is_number (v : json) : bool :=
  match as_number v with
  | Some _ => true
  | None => false
  end.

(** [records] are trial records of some of [paths], in the order of the
    paths, each holding its path as ["image_path"] and the position of
    that path, counted from [i], as ["test_number"]. *)
Inductive numbered : Z -> list str -> list dict -> Prop :=
| numbered_done (i : Z) : numbered i [] []
| numbered_skipped (i : Z) (p : str) (paths : list str)
    (records : list dict) :
    numbered (i + 1) paths records -> numbered i (p :: paths) records
| numbered_recorded (i : Z) (p : str) (paths : list str) (r : dict)
    (records : list dict) :
    get_none r (U "test_number") = JInt i ->
    get_none r (U "image_path") = JStr p ->
    numbered (i + 1) paths records ->
    numbered i (p :: paths) (r :: records).

(** The request the single-pass assessor sends for an image of content
    [data]. *)
Definition assessment_request (data : list N) : request :=
  mkRequest
    [HazardDetectionBenchmark.system_prompt;
     HazardDetectionBenchmark.user_text]
    (Some (U "image/jpeg", data)).

(** The scores of the worked example of the aggregator, per strategy. *)
Definition example_scores_a : list Z := [80; 70; 100; 60; 90]%Z.
Definition example_scores_b : list Z := [90; 95; 85; 70; 88]%Z.

(** ** The worlds of the closed examples *)

Module Example.

Definition photo : str := U "line3.png".

Definition missing_photo : str := U "line9.png".

Definition image : list N := [137; 80; 78; 71]%N.

(** One photograph on disk, the given lines to be typed, the given
    outcomes for the model calls in order and a dropped connection after
    them. *)
Definition world (lines : list str) (outcomes : list call_result) : World :=
  mkWorld [(photo, Readable image)] lines
    (fun k => nth k outcomes (Fail (APIError (U "connection reset")))) [].

(** No example below pastes a float, a list or a dictionary into a prompt,
    so none reaches [repr]; this stands in its place. *)
Definition no_repr : json -> str := fun _ => [].

(** A low-confidence reply that declares auto-fill all the same. *)
Definition low_confidence_reply : str :=
  U "{" ++ quoted "confidence_level" ++ U ": " ++ quoted "low" ++ U ", "
  ++ quoted "mode" ++ U ": " ++ quoted "auto_fill" ++ U ", "
  ++ quoted "issue" ++ U ": " ++ quoted "oil on the floor" ++ U "}".

(** A reply that is prose, not JSON. *)
Definition prose_reply : str :=
  U "The photo is too dark to assess.".

(** A JSON payload whose note holds three backticks. *)
Definition backtick_payload : str :=
  U "{" ++ quoted "note" ++ U ": " ++ quoted "a```b" ++ U "}".

Definition plain_payload : str :=
  U "{" ++ quoted "issue" ++ U ": " ++ quoted "exposed wiring" ++ U "}".

(** A fenced reply cut off before its closing marker. *)
Definition unterminated_reply : str :=
  U "```json" ++ [10%N] ++ plain_payload.

Definition question : str := U "Is the guard missing on the press?".

Definition scripted_answer : str :=
  U "metal shard visible near conveyor belt, west wall".

Definition followup_reply : str :=
  U "{" ++ quoted "initial_analysis" ++ U ": " ++ quoted "a press"
  ++ U ", " ++ quoted "follow_up_question" ++ U ": " ++ dq ++ question ++ dq
  ++ U "}".

(** What [followup_reply] decodes to. *)
Definition followup_dict : dict :=
  [(U "initial_analysis", JStr (U "a press"));
   (U "follow_up_question", JStr question)].

Definition assessment_reply : str :=
  U "{" ++ quoted "issue" ++ U ": " ++ quoted "exposed wiring" ++ U ", "
  ++ quoted "location" ++ U ": " ++ quoted "assembly line 3" ++ U ", "
  ++ quoted "confidence_level" ++ U ": " ++ quoted "high" ++ U "}".

Definition score_reply : str :=
  U "{" ++ quoted "method1_accuracy" ++ U ": 80, "
  ++ quoted "method2_accuracy" ++ U ": 90, "
  ++ quoted "winner" ++ U ": " ++ quoted "method2" ++ U "}".

(** What is typed during one trial: three fields for method 1, the answer
    for method 2, three fields of ground truth. *)
Definition trial_lines : list str :=
  [U "exposed wiring"; U "assembly line 3"; U "near panel B";
   scripted_answer;
   U "sparking exposed wiring"; U "assembly line 3, panel B"; U "urgent"].

(** The model's outcomes during one trial whose calls all succeed. *)
Definition trial_outcomes : list call_result :=
  [Reply (reply_with assessment_reply); Reply (reply_with followup_reply);
   Reply (reply_with assessment_reply); Reply (reply_with score_reply)].

(** A trial in which the judge's call fails. *)
Definition judge_down : World :=
  world trial_lines (firstn 3 trial_outcomes).

(** Five paths, the third of which does not exist, and four good trials. *)
Definition five_paths : list str :=
  [photo; photo] ++ missing_photo :: [photo; photo].

Definition four_good_trials : World :=
  world (trial_lines ++ trial_lines ++ trial_lines ++ trial_lines)
    (trial_outcomes ++ trial_outcomes ++ trial_outcomes ++ trial_outcomes).

(** A verdict whose first score is a string. *)
Definition percent_score_reply : str :=
  U "{" ++ quoted "method1_accuracy" ++ U ": " ++ quoted "85%" ++ U ", "
  ++ quoted "method2_accuracy" ++ U ": 90}".

(** A verdict that is a JSON list. *)
Definition list_score_reply : str := U "[80, 90]".

(** One good trial but for the judge, who answers [verdict]. *)
Definition judged (verdict : str) : World :=
  world trial_lines
    (firstn 3 trial_outcomes ++ [Reply (reply_with verdict)]).

Definition five_photos : list str := [photo; photo; photo; photo; photo].

(** Five trials, the first of which is scored with a string. *)
Definition percent_score_run : World :=
  world (trial_lines ++ trial_lines ++ trial_lines ++ trial_lines
         ++ trial_lines)
    (firstn 3 trial_outcomes ++ [Reply (reply_with percent_score_reply)]
     ++ trial_outcomes ++ trial_outcomes ++ trial_outcomes
     ++ trial_outcomes).

(** The examples do not depend on what the serializer writes; this
    stands in its place. *)
Definition dumps : json -> str := fun v => U "<" ++ type_name v ++ U ">".

Definition api_key : option str := Some (U "k-123").

(** A reply that brings a ["model"] and a ["usage"] of its own. *)
Definition self_stamped_reply : str :=
  U "{" ++ quoted "mode" ++ U ": " ++ quoted "auto_fill" ++ U ", "
  ++ quoted "model" ++ U ": " ++ quoted "mine" ++ U ", "
  ++ quoted "usage" ++ U ": 7}".

Definition null_mode_reply : str :=
  U "{" ++ quoted "mode" ++ U ": null, "
  ++ quoted "issue" ++ U ": " ++ quoted "oil on the floor" ++ U "}".

(** A fenced payload with a sentence before it and one after it. *)
Definition preamble : str := U "Here is the assessment:" ++ [10%N].
Definition postscript : str := [10%N] ++ U "Let me know if you need more.".

(** What is typed at the five path prompts: a path that does not exist
    comes second, and the first path has blanks around it. *)
Definition typed_paths : list str :=
  [U "  line3.png "; missing_photo; photo; photo; photo; photo].

(** The photograph is there but cannot be opened. *)
Definition locked (lines : list str) : World :=
  mkWorld
    [(photo, Unreadable (U "[Errno 13] Permission denied: 'line3.png'"))]
    lines (fun _ => Fail (APIError (U "connection reset"))) [].

End Example.

(** * Properties *)

(** ** Strings *)

Lemma startswith_app (p t : str) : startswith (p ++ t) p = true.
Proof.
  induction p as [|x p IH]; simpl; [reflexivity|].
  now rewrite N.eqb_refl, IH.
Qed.

Lemma startswith_inv (s p : str) :
  startswith s p = true -> exists t, s = p ++ t.
Proof.
  revert s; induction p as [|x p IH]; intros s H.
  - now exists s.
  - destruct s as [|y s]; simpl in H; [discriminate|].
    apply andb_prop in H as [Hxy Hs].
    apply N.eqb_eq in Hxy; subst y.
    destruct (IH _ Hs) as [t ->]. now exists t.
Qed.

Lemma startswith_nil (p : str) : startswith [] p = true -> p = [].
Proof. destruct p; simpl; [reflexivity|discriminate]. Qed.

(** [find_at] gives the first occurrence. *)
Lemma find_at_some (sub s : str) (i k : nat) :
  find_at sub s i = Some k ->
  exists a b, s = a ++ sub ++ b /\ k = i + length a.
Proof.
  revert i; induction s as [|c s IH]; intros i; simpl.
  - destruct (startswith [] sub) eqn:E; [|discriminate].
    intros [= <-]. apply startswith_nil in E; subst.
    exists [], []. split; [reflexivity|simpl; lia].
  - destruct (startswith (c :: s) sub) eqn:E.
    + intros [= <-]. destruct (startswith_inv _ _ E) as [t Ht].
      exists [], t. split; [exact Ht|simpl; lia].
    + intros H. destruct (IH _ H) as (a & b & -> & ->).
      exists (c :: a), b. split; [reflexivity|simpl; lia].
Qed.

Lemma find_at_none (sub s : str) (i : nat) :
  find_at sub s i = None -> forall a b, s <> a ++ sub ++ b.
Proof.
  revert i; induction s as [|c s IH]; intros i; simpl.
  - destruct (startswith [] sub) eqn:E; [discriminate|].
    intros _ a b H. symmetry in H. apply app_eq_nil in H as [-> H].
    apply app_eq_nil in H as [-> _]. discriminate.
  - destruct (startswith (c :: s) sub) eqn:E; [discriminate|].
    intros H a b Hs. destruct a as [|x a].
    + simpl in Hs. rewrite Hs, startswith_app in E. discriminate.
    + injection Hs as -> Hs. exact (IH _ H _ _ Hs).
Qed.

Lemma find_at_shift (sub s : str) (i : nat) :
  find_at sub s i = option_map (fun k => i + k) (find_at sub s 0).
Proof.
  revert i; induction s as [|c s IH]; intros i; simpl.
  - destruct (startswith [] sub); simpl; [f_equal; lia|reflexivity].
  - destruct (startswith (c :: s) sub); simpl; [f_equal; lia|].
    rewrite (IH (S i)), (IH 1). destruct (find_at sub s 0); simpl;
      [f_equal; lia|reflexivity].
Qed.

Lemma contains_true (sub s : str) :
  contains sub s = true <-> occurs_in sub s.
Proof.
  unfold contains, occurs_in. split.
  - destruct (find_at sub s 0) eqn:E; [|discriminate]. intros _.
    destruct (find_at_some _ _ _ _ E) as (a & b & H & _). now exists a, b.
  - intros (a & b & H). destruct (find_at sub s 0) eqn:E; [reflexivity|].
    now destruct (find_at_none _ _ _ E a b).
Qed.

Lemma contains_false (sub s : str) :
  contains sub s = false <-> ~ occurs_in sub s.
Proof.
  rewrite <- contains_true. destruct (contains sub s); split; congruence.
Qed.

Lemma occurs_in_trans (x y z : str) :
  occurs_in x y -> occurs_in y z -> occurs_in x z.
Proof.
  intros (a & b & ->) (c & d & ->).
  exists (c ++ a), (b ++ d). now rewrite <- !app_assoc.
Qed.

(** *** [strip] *)

Lemma lstrip_suffix (s : str) : exists a, s = a ++ lstrip s.
Proof.
  induction s as [|c s [a IH]]; simpl.
  - now exists [].
  - destruct (is_space c).
    + exists (c :: a). simpl. now f_equal.
    + now exists [].
Qed.

Lemma strip_occurs_in (s : str) : occurs_in (strip s) s.
Proof.
  unfold strip, rstrip.
  destruct (lstrip_suffix s) as [a Ha].
  destruct (lstrip_suffix (rev (lstrip s))) as [b Hb].
  exists a, (rev b).
  rewrite <- rev_app_distr, <- Hb, rev_involutive. exact Ha.
Qed.

Lemma lstrip_not_space (c : N) (s : str) :
  is_space c = false -> lstrip (c :: s) = c :: s.
Proof. intros H; simpl; now rewrite H. Qed.

Lemma lstrip_space (c : N) (s : str) :
  is_space c = true -> lstrip (c :: s) = lstrip s.
Proof. intros H; simpl; now rewrite H. Qed.

Lemma rstrip_space (s : str) (c : N) :
  is_space c = true -> rstrip (s ++ [c]) = rstrip s.
Proof.
  intros H. unfold rstrip. rewrite rev_app_distr. simpl. now rewrite H.
Qed.

Lemma rstrip_not_space (s : str) (c : N) :
  is_space c = false -> rstrip (s ++ [c]) = s ++ [c].
Proof.
  intros H. unfold rstrip. rewrite rev_app_distr. simpl. rewrite H.
  simpl. now rewrite rev_involutive.
Qed.

Lemma lstrip_app_space (s : str) (c : N) :
  is_space c = true ->
  lstrip (s ++ [c]) = [] /\ lstrip s = []
  \/ lstrip (s ++ [c]) = lstrip s ++ [c].
Proof.
  intros H. induction s as [|x s IH]; simpl.
  - rewrite H. now left.
  - destruct (is_space x); [exact IH|now right].
Qed.

(** Whitespace next to the payload goes with [strip]. *)
Lemma strip_newlines (p : str) : strip (10%N :: p ++ [10%N]) = strip p.
Proof.
  unfold strip. rewrite lstrip_space by reflexivity.
  destruct (lstrip_app_space p 10%N eq_refl) as [[-> ->]| ->];
    [reflexivity|].
  now apply rstrip_space.
Qed.

(** *** Slices that end at the sentinel *)

Lemma skipn_removelast (n : nat) (l : str) :
  skipn n (removelast l) = removelast (skipn n l).
Proof.
  revert l; induction n as [|n IH]; intros l; [reflexivity|].
  destruct l as [|x l]; [reflexivity|].
  destruct l as [|y l]; [now destruct n|].
  change (removelast (x :: y :: l)) with (x :: removelast (y :: l)).
  change (skipn (S n) (x :: removelast (y :: l)))
    with (skipn n (removelast (y :: l))).
  change (skipn (S n) (x :: y :: l)) with (skipn n (y :: l)).
  apply IH.
Qed.

(** [s[a:-1]] is [s[a:]] without its last character. *)
Lemma slice_to_sentinel (s : str) (a : nat) :
  slice s (Z.of_nat a) (-1) = removelast (skipn a s).
Proof.
  unfold slice, norm_index.
  replace (Z.of_nat a <? 0)%Z with false by (symmetry; apply Z.ltb_ge; lia).
  replace (-1 <? 0)%Z with true by reflexivity.
  replace (Z.to_nat (Z.max 0 (Z.of_nat (length s) + -1)))
    with (pred (length s)) by lia.
  rewrite <- removelast_firstn_len, Nat2Z.id.
  destruct (Nat.le_gt_cases a (length s)) as [Hle|Hgt].
  - rewrite Nat.min_l by lia. apply skipn_removelast.
  - rewrite Nat.min_r by lia.
    rewrite (skipn_all2 s) by lia.
    apply skipn_all2. rewrite removelast_firstn_len, length_firstn. lia.
Qed.

Lemma find_from_start (s sub : str) :
  find s sub 0 =
  match find_at sub s 0 with Some k => Z.of_nat k | None => (-1)%Z end.
Proof.
  unfold find, norm_index.
  replace (Z.of_nat (length s) <? 0)%Z with false
    by (symmetry; apply Z.ltb_ge; lia).
  reflexivity.
Qed.

Lemma contains_find_at (sub s : str) :
  contains sub s = true -> exists k, find_at sub s 0 = Some k.
Proof.
  unfold contains. destruct (find_at sub s 0) as [k|]; [|discriminate].
  now exists k.
Qed.

(** ** The monad *)

Lemma bind_input {A} (k : str -> M A) (w : World) {line : str}
    {rest : list str} :
  stdin w = line :: rest -> bind input k w = k line (set_stdin rest w).
Proof. intros H. unfold bind, input. now rewrite H. Qed.

Lemma bind_input_eof {A} (k : str -> M A) (w : World) :
  stdin w = [] ->
  bind input k w = (inl (EOFError (U "EOF when reading a line")), w).
Proof. intros H. unfold bind, input. now rewrite H. Qed.

Lemma bind_read_file {A} (k : list N -> M A) (w : World) {path : str}
    {data : list N} :
  find_file (files w) path = Some (Readable data) ->
  bind (read_file path) k w = k data w.
Proof. intros H. unfold bind, read_file. now rewrite H. Qed.

Lemma bind_inr {A B} (m : M A) (k : A -> M B) (w w1 : World) (a : A) :
  m w = (inr a, w1) -> bind m k w = k a w1.
Proof. intros H. unfold bind. now rewrite H. Qed.

Lemma bind_inl {A B} (m : M A) (k : A -> M B) (w w1 : World) (e : exn) :
  m w = (inl e, w1) -> bind m k w = (inl e, w1).
Proof. intros H. unfold bind. now rewrite H. Qed.

(** A bind that returns went through both of its halves. *)
Lemma bind_returns {A B} (m : M A) (k : A -> M B) (w w' : World) (b : B) :
  bind m k w = (inr b, w') ->
  exists a w1, m w = (inr a, w1) /\ k a w1 = (inr b, w').
Proof.
  unfold bind. destruct (m w) as [[e|a] w1]; [discriminate|].
  intros H. now exists a, w1.
Qed.

Lemma next_reply_set_stdin (rest : list str) (w : World) :
  next_reply (set_stdin rest w) = next_reply w.
Proof. reflexivity. Qed.

(** ** The sites of [gemini_hazard_benchmark.py] *)

Section GeminiSites.

Import GeminiHazardBenchmark.

Variable json_loads : str -> exn + json.
Variable py_repr : json -> str.

(** The comparator, in one equation. *)
Lemma evaluate_accuracy_eq (m1 m2 gt : dict) (w : World) :
  evaluate_accuracy json_loads py_repr m1 m2 gt w =
  (inr (match next_reply w with
        | Fail e => JObj (evaluation_failed e)
        | Reply r =>
            match parse_reply json_loads r with
            | inl e => JObj (evaluation_failed e)
            | inr v => v
            end
        end),
   log (mkRequest [evaluation_prompt py_repr m1 m2 gt] None) w).
Proof.
  unfold evaluate_accuracy, try_except, bind, call_model, lift, ret.
  destruct (next_reply w) as [r|e]; [|reflexivity].
  now destruct (parse_reply json_loads r).
Qed.

(** A model call followed by the decoding of its reply and the first
    [get] on the result. *)
Lemma ask_dict_eq {A} (req : request) (k : dict -> M A) (w : World) :
  bind (call_model req)
    (fun response =>
       bind (lift (parse_reply json_loads response))
         (fun result => bind (as_dict result) k)) w =
  match reply_dict json_loads (next_reply w) with
  | inl e => (inl e, log req w)
  | inr d => k d (log req w)
  end.
Proof.
  unfold bind at 1, call_model, reply_dict.
  destruct (next_reply w) as [r|msg]; [|reflexivity].
  unfold bind, lift, as_dict.
  destruct (parse_reply json_loads r) as [e|v]; [reflexivity|].
  now destruct v.
Qed.

(** The manual-input assessor, once its three lines are typed and the
    image is read. *)
Lemma method1_eq (p : str) (w : World) (a b c : str) (rest : list str)
    (data : list N) :
  stdin w = a :: b :: c :: rest ->
  find_file (files w) p = Some (Readable data) ->
  method1_manual_input_with_ai json_loads p w =
  (inr (match reply_dict json_loads (next_reply w) with
        | inl e => method1_failed a b c e
        | inr d => method1_record a b c d
        end),
   log (mkRequest [ai_prompt a b c] (Some (mime_type p, data)))
     (set_stdin rest w)).
Proof.
  intros Hin Hfile. unfold method1_manual_input_with_ai.
  rewrite (bind_input _ _ Hin).
  rewrite (bind_input _ (set_stdin (b :: c :: rest) w) eq_refl).
  rewrite (bind_input _ (set_stdin (c :: rest) _) eq_refl).
  change (set_stdin rest _) with (set_stdin rest w).
  unfold encode_image.
  rewrite (bind_read_file _ (set_stdin rest w) (path := p) (data := data))
    by exact Hfile.
  unfold try_except. rewrite ask_dict_eq.
  change (next_reply _) with (next_reply w).
  now destruct (reply_dict json_loads (next_reply w)).
Qed.

(** The follow-up assessor, once the image is read. *)
Lemma method2_eq (p : str) (w : World) (data : list N) :
  find_file (files w) p = Some (Readable data) ->
  let image := Some (mime_type p, data) in
  let w1 := log (mkRequest [followup_prompt] image) w in
  method2_ai_followup json_loads py_repr p w =
  match reply_dict json_loads (next_reply w) with
  | inl e => (inr (method2_failed e), w1)
  | inr d =>
      match stdin w with
      | [] =>
          (inr (method2_failed (EOFError (U "EOF when reading a line"))),
           w1)
      | answer :: rest =>
          let w2 := set_stdin rest w1 in
          (inr (match reply_dict json_loads (next_reply w2) with
                | inl e => method2_failed e
                | inr d2 => method2_record d answer d2
                end),
           log (mkRequest [final_prompt py_repr d answer] image) w2)
      end
  end.
Proof.
  intros Hfile image w1. unfold method2_ai_followup, encode_image.
  rewrite (bind_read_file _ _ Hfile).
  unfold try_except. rewrite ask_dict_eq. fold image w1.
  destruct (reply_dict json_loads (next_reply w)) as [e|d]; [reflexivity|].
  destruct (stdin w) as [|answer rest] eqn:Hin.
  - rewrite bind_input_eof by exact Hin. reflexivity.
  - rewrite (bind_input _ w1 (line := answer) (rest := rest)) by exact Hin.
    rewrite ask_dict_eq.
    now destruct (reply_dict json_loads (next_reply (set_stdin rest w1))).
Qed.

End GeminiSites.

Lemma occurs_in_here (x t : str) : occurs_in x (x ++ t).
Proof. now exists [], t. Qed.

Lemma occurs_in_app_r (x a t : str) : occurs_in x t -> occurs_in x (a ++ t).
Proof.
  intros (pre & post & ->). exists (a ++ pre), post.
  now rewrite <- app_assoc.
Qed.

Ltac find_occurrence :=
  repeat first [apply occurs_in_here | apply occurs_in_app_r].

(** ** The response extractor of the Gemini sites *)

Section GeminiExtractor.

Import GeminiHazardBenchmark.

Variable json_loads : str -> exn + json.
Variable py_repr : json -> str.

(** C10.  When a reply (after [strip()]) holds the opening marker and no
    closing marker after it, [find] answers [-1] and the slice ends one
    character early: what goes to [json.loads] is the text after the
    opening marker without its last character (and stripped, as at every
    site).  This is so for the shared decoding step of
    [method1_manual_input_with_ai] and of both calls of
    [method2_ai_followup], and for [evaluate_accuracy]. *)
Theorem unterminated_fence_drops_last_character (reply : str) :
  contains (U "```json") reply = true ->
  find reply (U "```") (find reply (U "```json") 0 + 7) = (-1)%Z ->
  exists k,
    find_at (U "```json") reply 0 = Some k /\
    let parsed := strip (removelast (skipn (k + 7) reply)) in
    strip_json_fence reply = parsed /\
    forall r, strip (text r) = reply ->
      parse_reply json_loads r = json_loads parsed /\
      reply_dict json_loads (Reply r) =
        match json_loads parsed with
        | inl e => inl e
        | inr (JObj d) => inr d
        | inr v => inl (no_attribute v (U "get"))
        end /\
      forall m1 m2 gt w, next_reply w = Reply r ->
        fst (evaluate_accuracy json_loads py_repr m1 m2 gt w) =
        inr (match json_loads parsed with
             | inl e => JObj (evaluation_failed e)
             | inr v => v
             end).
Proof.
  intros Hin Hend.
  destruct (contains_find_at _ _ Hin) as [k Hk]. exists k.
  split; [exact Hk|]. intros parsed.
  assert (Hfence : strip_json_fence reply = parsed).
  { unfold strip_json_fence. rewrite Hin, Hend.
    rewrite find_from_start, Hk.
    replace (Z.of_nat k + 7)%Z with (Z.of_nat (k + 7)) by lia.
    now rewrite slice_to_sentinel. }
  split; [exact Hfence|]. intros r Hr.
  assert (Hparse : parse_reply json_loads r = json_loads parsed).
  { unfold parse_reply. now rewrite Hr, Hfence. }
  split; [exact Hparse|]. split.
  - unfold reply_dict. now rewrite Hparse.
  - intros m1 m2 gt w Hw. rewrite evaluate_accuracy_eq, Hw, Hparse.
    reflexivity.
Qed.

End GeminiExtractor.

(** ** The two-round assessor *)

Section TwoRound.

Import GeminiHazardBenchmark.

Variable json_loads : str -> exn + json.
Variable py_repr : json -> str.

(** C6.  When the first reply decodes to a dictionary and an answer is
    typed, the assessor sends exactly two requests, and the prompt of the
    second one contains the follow-up question of the first reply and the
    answer, character for character. *)
Theorem final_prompt_carries_question_and_answer
    (p : str) (w : World) (data : list N) (r1 : response) (d : dict)
    (answer : str) (rest : list str) :
  find_file (files w) p = Some (Readable data) ->
  next_reply w = Reply r1 ->
  parse_reply json_loads r1 = inr (JObj d) ->
  stdin w = answer :: rest ->
  exists result w' req1 req2,
    method2_ai_followup json_loads py_repr p w = (inr result, w') /\
    calls w' = calls w ++ [req1; req2] /\
    req_parts req2 = [final_prompt py_repr d answer] /\
    occurs_in (py_str py_repr (get d (U "follow_up_question") (JStr [])))
      (final_prompt py_repr d answer) /\
    occurs_in answer (final_prompt py_repr d answer) /\
    forall q, lookup d (U "follow_up_question") = Some (JStr q) ->
      occurs_in q (final_prompt py_repr d answer).
Proof.
  intros Hfile Hreply Hparse Hin.
  assert (Hq : occurs_in
                 (py_str py_repr (get d (U "follow_up_question") (JStr [])))
                 (final_prompt py_repr d answer)).
  { unfold final_prompt. find_occurrence. }
  pose proof (method2_eq json_loads py_repr p w data Hfile) as Heq.
  cbv zeta in Heq.
  assert (Hd : reply_dict json_loads (next_reply w) = inr d).
  { rewrite Hreply. unfold reply_dict. now rewrite Hparse. }
  rewrite Hd, Hin in Heq.
  eexists _, _, (mkRequest [followup_prompt] (Some (mime_type p, data))),
    (mkRequest [final_prompt py_repr d answer] (Some (mime_type p, data))).
  split; [exact Heq|].
  split; [|split; [reflexivity|split; [exact Hq|split]]].
  - cbn [calls log set_stdin]. now rewrite <- app_assoc.
  - unfold final_prompt. find_occurrence.
  - intros q Hlook. unfold get in Hq. now rewrite Hlook in Hq.
Qed.

End TwoRound.

(** ** The file system is only read *)

Lemma keeps_files_ret {A} (a : A) : keeps_files (ret a).
Proof. now intros w. Qed.

Lemma keeps_files_raise {A} (e : exn) : keeps_files (@raise A e).
Proof. now intros w. Qed.

Lemma keeps_files_lift {A} (r : exn + A) : keeps_files (lift r).
Proof. now intros w. Qed.

Lemma keeps_files_bind {A B} (m : M A) (k : A -> M B) :
  keeps_files m -> (forall a, keeps_files (k a)) -> keeps_files (bind m k).
Proof.
  intros Hm Hk w. unfold bind. specialize (Hm w).
  destruct (m w) as [[e|a] w1]; simpl in *; [exact Hm|].
  now rewrite Hk.
Qed.

Lemma keeps_files_try_except {A} (body : M A) (handler : exn -> M A) :
  keeps_files body -> (forall e, keeps_files (handler e)) ->
  keeps_files (try_except body handler).
Proof.
  intros Hb Hh w. unfold try_except. specialize (Hb w).
  destruct (body w) as [[e|a] w1]; simpl in *; [|exact Hb].
  now rewrite Hh.
Qed.

Lemma keeps_files_input : keeps_files input.
Proof. intros w. unfold input. now destruct (stdin w). Qed.

Lemma keeps_files_read_file (path : str) : keeps_files (read_file path).
Proof.
  intros w. unfold read_file.
  now destruct (find_file (files w) path) as [[data|msg]|].
Qed.

Lemma keeps_files_path_exists (path : str) : keeps_files (path_exists path).
Proof. now intros w. Qed.

Lemma keeps_files_call_model (req : request) : keeps_files (call_model req).
Proof. intros w. unfold call_model. now destruct (next_reply w). Qed.

Create HintDb files_db.
#[local] Hint Resolve keeps_files_ret keeps_files_raise keeps_files_lift
  keeps_files_input keeps_files_read_file keeps_files_path_exists
  keeps_files_call_model : files_db.

Ltac keep_files :=
  repeat first
    [ apply keeps_files_bind; [|intro]
    | apply keeps_files_try_except; [|intro]
    | solve [auto with files_db] ].

(** ** The benchmark aggregator *)

Section Aggregator.

Import GeminiHazardBenchmark.

Variable json_loads : str -> exn + json.
Variable py_repr : json -> str.

Lemma keeps_files_as_dict (v : json) : keeps_files (as_dict v).
Proof. unfold as_dict. destruct v; auto with files_db. Qed.

Lemma keeps_files_method1 (p : str) :
  keeps_files (method1_manual_input_with_ai json_loads p).
Proof.
  unfold method1_manual_input_with_ai, encode_image.
  keep_files. apply keeps_files_as_dict.
Qed.

Lemma keeps_files_method2 (p : str) :
  keeps_files (method2_ai_followup json_loads py_repr p).
Proof.
  unfold method2_ai_followup, encode_image.
  keep_files; apply keeps_files_as_dict.
Qed.

Lemma keeps_files_ground_truth : keeps_files get_ground_truth.
Proof. unfold get_ground_truth. keep_files. Qed.

Lemma keeps_files_evaluate (m1 m2 gt : dict) :
  keeps_files (evaluate_accuracy json_loads py_repr m1 m2 gt).
Proof. unfold evaluate_accuracy. keep_files. Qed.

Lemma keeps_files_run_single (p : str) (i : Z) :
  keeps_files (run_single_benchmark json_loads py_repr p i).
Proof.
  unfold run_single_benchmark.
  apply keeps_files_bind; [auto with files_db|]. intros found.
  destruct (negb found); [auto with files_db|].
  apply keeps_files_bind; [apply keeps_files_method1|]. intros m1.
  apply keeps_files_bind; [apply keeps_files_method2|]. intros m2.
  apply keeps_files_bind; [apply keeps_files_ground_truth|]. intros gt.
  apply keeps_files_bind; [apply keeps_files_evaluate|]. intros ev.
  apply keeps_files_bind; [|auto with files_db].
  unfold _display_results. destruct ev; auto with files_db.
Qed.

Lemma run_trial_files (p : str) (i : Z) (t : tally) (w : World) :
  files (snd (run_trial json_loads py_repr p i t w)) = files w.
Proof.
  unfold run_trial.
  pose proof (keeps_files_run_single p i w) as H.
  destruct (run_single_benchmark json_loads py_repr p i w) as [[e|r] w1];
    simpl in H; [exact H|].
  now destruct (get_none r (U "evaluation")).
Qed.

Lemma run_trials_files (l : list str) (i : Z) (t : tally) (w : World) :
  files (snd (run_trials json_loads py_repr l i t w)) = files w.
Proof.
  revert i t w; induction l as [|p l IH]; intros i t w; [reflexivity|].
  simpl. pose proof (run_trial_files p i t w) as H.
  destruct (run_trial json_loads py_repr p i t w) as [t1 w1]. simpl in H.
  now rewrite IH.
Qed.

(** The loop over a concatenation runs the first part, then the second
    from the state and the index reached. *)
Lemma run_trials_app (l1 l2 : list str) (i : Z) (t : tally) (w : World) :
  run_trials json_loads py_repr (l1 ++ l2) i t w =
  let (t1, w1) := run_trials json_loads py_repr l1 i t w in
  run_trials json_loads py_repr l2 (i + Z.of_nat (length l1)) t1 w1.
Proof.
  revert i t w; induction l1 as [|p l1 IH]; intros i t w.
  - simpl. now rewrite Z.add_0_r.
  - cbn [app run_trials length].
    destruct (run_trial json_loads py_repr p i t w) as [t1 w1].
    rewrite IH. replace (i + 1 + Z.of_nat (length l1))%Z
      with (i + Z.of_nat (S (length l1)))%Z by lia.
    reflexivity.
Qed.

(** A path that does not exist stops its trial before anything is typed,
    read or sent. *)
Lemma run_single_missing (p : str) (i : Z) (w : World) :
  find_file (files w) p = None ->
  run_single_benchmark json_loads py_repr p i w =
  (inl (FileNotFoundError (U "Image not found: " ++ p)), w).
Proof.
  intros H. unfold run_single_benchmark, bind, path_exists. now rewrite H.
Qed.

(** A trial that returns carries a dictionary as its evaluation. *)
Lemma run_single_returns (p : str) (i : Z) (w w' : World) (result : dict) :
  run_single_benchmark json_loads py_repr p i w = (inr result, w') ->
  exists m1 m2 gt ev,
    result = trial_record i p m1 m2 gt (JObj ev).
Proof.
  unfold run_single_benchmark. intros H.
  apply bind_returns in H as (found & w1 & _ & H).
  destruct (negb found); [discriminate|].
  apply bind_returns in H as (m1 & w2 & _ & H).
  apply bind_returns in H as (m2 & w3 & _ & H).
  apply bind_returns in H as (gt & w4 & _ & H).
  apply bind_returns in H as (ev & w5 & _ & H).
  apply bind_returns in H as ([] & w6 & Hd & H).
  injection H as <- <-.
  unfold _display_results in Hd.
  destruct ev as [| | | | | |ev]; try discriminate.
  now exists m1, m2, gt, ev.
Qed.

Lemma evaluation_of_trial_record
    (i : Z) (p : str) (m1 m2 gt : dict) (ev : json) :
  get_none (trial_record i p m1 m2 gt ev) (U "evaluation") = ev.
Proof. reflexivity. Qed.

(** One iteration either leaves the three lists alone (the trial raised)
    or adds one entry to each (the trial returned). *)
Lemma run_trial_cases (p : str) (i : Z) (t : tally) (w : World) :
  match run_single_benchmark json_loads py_repr p i w with
  | (inl _, w') => run_trial json_loads py_repr p i t w = (t, w')
  | (inr result, w') =>
      exists ev,
        get_none result (U "evaluation") = JObj ev /\
        run_trial json_loads py_repr p i t w =
        (mkTally (results t ++ [result])
           (method1_scores t ++ [get ev (U "method1_accuracy") (JInt 0)])
           (method2_scores t ++ [get ev (U "method2_accuracy") (JInt 0)]),
         w')
  end.
Proof.
  unfold run_trial.
  destruct (run_single_benchmark json_loads py_repr p i w)
    as [[e|result] w'] eqn:E; [reflexivity|].
  destruct (run_single_returns _ _ _ _ _ E) as (m1 & m2 & gt & ev & ->).
  exists ev. rewrite evaluation_of_trial_record. now split.
Qed.

(** Each list of the loop grows by the number of trials that return. *)
Lemma run_trials_count (l : list str) (i : Z) (t : tally) (w : World) :
  let t' := fst (run_trials json_loads py_repr l i t w) in
  let n := completed_trials json_loads py_repr l i w in
  length (results t') = length (results t) + n /\
  length (method1_scores t') = length (method1_scores t) + n /\
  length (method2_scores t') = length (method2_scores t) + n.
Proof.
  revert i t w; induction l as [|p l IH]; intros i t w.
  - simpl. lia.
  - cbn [run_trials completed_trials].
    pose proof (run_trial_cases p i t w) as H.
    destruct (run_single_benchmark json_loads py_repr p i w)
      as [[e|result] w1].
    + rewrite H. apply IH.
    + destruct H as (ev & _ & ->).
      specialize (IH (i + 1)%Z
        (mkTally (results t ++ [result])
           (method1_scores t ++ [get ev (U "method1_accuracy") (JInt 0)])
           (method2_scores t ++ [get ev (U "method2_accuracy") (JInt 0)]))
        w1).
      cbv zeta in IH. cbn [results method1_scores method2_scores] in IH.
      rewrite !length_app in IH. simpl length in IH.
      cbv zeta. lia.
Qed.

Lemma completed_trials_le (l : list str) (i : Z) (w : World) :
  completed_trials json_loads py_repr l i w <= length l.
Proof.
  revert i w; induction l as [|p l IH]; intros i w; simpl; [lia|].
  destruct (run_single_benchmark json_loads py_repr p i w) as [[e|r] w1].
  - specialize (IH (i + 1)%Z w1). lia.
  - specialize (IH (i + 1)%Z w1). lia.
Qed.

End Aggregator.

(** ** Arithmetic of the summary *)

Lemma sum_from_ints (a : Z) (l : list Z) :
  sum_from (PInt a) (map JInt l) = inr (PInt (a + fold_right Z.add 0%Z l)).
Proof.
  revert a; induction l as [|z l IH]; intros a; simpl.
  - now rewrite Z.add_0_r.
  - rewrite IH. now rewrite Z.add_assoc.
Qed.

Lemma float_of_int_raises (z : Z) (e : exn) :
  float_of_int z = inl e -> exists msg, e = OverflowError msg.
Proof.
  unfold float_of_int. destruct (binary64 (inject_Z z)); try discriminate.
  intros [= <-]. eauto.
Qed.

Lemma num_add_raises (a b : pynum) (e : exn) :
  num_add a b = inl e -> exists msg, e = OverflowError msg.
Proof.
  destruct a as [x|f], b as [y|g]; simpl; try discriminate.
  - destruct (float_of_int x) eqn:E; [|discriminate].
    intros [= <-]. exact (float_of_int_raises _ _ E).
  - destruct (float_of_int y) eqn:E; [|discriminate].
    intros [= <-]. exact (float_of_int_raises _ _ E).
Qed.

(** The summary's arithmetic raises a [TypeError], on a score that is
    not a number, or an [OverflowError], on an integer too large for a
    float, and nothing else. *)
Lemma sum_from_raises (acc : pynum) (l : list json) (e : exn) :
  sum_from acc l = inl e ->
  exists msg, e = TypeError msg \/ e = OverflowError msg.
Proof.
  revert acc; induction l as [|v l IH]; intros acc; simpl; [discriminate|].
  destruct (as_number v) as [n|].
  - destruct (num_add acc n) as [e'|acc'] eqn:E; [|apply IH].
    intros [= <-]. destruct (num_add_raises _ _ _ E) as [msg ->]. eauto.
  - intros [= <-]. eauto.
Qed.

Lemma truediv_raises (a : pynum) (n : nat) (e : exn) :
  truediv a n = inl e -> exists msg, e = OverflowError msg.
Proof.
  unfold truediv. destruct a as [z|f].
  - destruct (binary64 _); try discriminate. intros [= <-]. eauto.
  - destruct (float_of_int (Z.of_nat n)) as [e'|[d| |]] eqn:E;
      try discriminate.
    intros [= <-]. exact (float_of_int_raises _ _ E).
Qed.

Lemma average_raises (l : list json) (e : exn) :
  GeminiHazardBenchmark.average l = inl e ->
  exists msg, e = TypeError msg \/ e = OverflowError msg.
Proof.
  unfold GeminiHazardBenchmark.average, sum. destruct l as [|v l];
    [discriminate|].
  destruct (sum_from (PInt 0) (v :: l)) as [e'|s] eqn:E.
  - intros [= <-]. exact (sum_from_raises _ _ _ E).
  - destruct (truediv s (length (v :: l))) as [e'|f] eqn:E'; [|discriminate].
    intros [= <-]. destruct (truediv_raises _ _ _ E') as [msg ->]. eauto.
Qed.

(** The mean of integer scores, as the aggregator computes it. *)
Lemma average_ints (l : list Z) :
  GeminiHazardBenchmark.average (map JInt l) =
  match l with
  | [] => inr (PInt 0)
  | _ :: _ =>
      match binary64 (fold_right Z.add 0%Z l # Pos.of_nat (length l)) with
      | Inf _ =>
          inl (OverflowError
                 (U "integer division result too large for a float"))
      | f => inr (PFloat f)
      end
  end.
Proof.
  destruct l as [|z l]; [reflexivity|].
  unfold GeminiHazardBenchmark.average, sum.
  change (map JInt (z :: l)) with (JInt z :: map JInt l) at 1.
  cbv iota. rewrite sum_from_ints, length_map. unfold truediv.
  rewrite Z.add_0_l.
  now destruct (binary64 _).
Qed.

Lemma num_gt_spec (a b : pynum) :
  finite a -> finite b ->
  (num_gt a b = true <-> (num_value b < num_value a)%Q).
Proof.
  destruct a as [x|[p| |]], b as [y|[q| |]]; simpl; try tauto; intros _ _.
  - rewrite Z.ltb_lt, Zlt_Qlt. reflexivity.
  - rewrite negb_true_iff, <- not_true_iff_false, Qle_bool_iff.
    split; [apply Qnot_le_lt|apply Qlt_not_le].
  - rewrite negb_true_iff, <- not_true_iff_false, Qle_bool_iff.
    split; [apply Qnot_le_lt|apply Qlt_not_le].
  - rewrite negb_true_iff, <- not_true_iff_false, Qle_bool_iff.
    split; [apply Qnot_le_lt|apply Qlt_not_le].
Qed.

Lemma winner_names_differ :
  U "method1" <> U "method2" /\ U "method1" <> U "tie"
  /\ U "method2" <> U "tie".
Proof. repeat split; intros H; cbv in H; discriminate. Qed.

(** The winner is read off the two means by strict comparison. *)
Lemma overall_winner_spec (a b : pynum) :
  finite a -> finite b ->
  let w := GeminiHazardBenchmark.overall_winner a b in
  (w = U "method1" <-> (num_value b < num_value a)%Q) /\
  (w = U "method2" <-> (num_value a < num_value b)%Q) /\
  (w = U "tie" <-> (num_value a == num_value b)%Q).
Proof.
  intros Ha Hb. cbv zeta. unfold GeminiHazardBenchmark.overall_winner.
  pose proof (num_gt_spec a b Ha Hb) as Hab.
  pose proof (num_gt_spec b a Hb Ha) as Hba.
  destruct winner_names_differ as (H12 & H1t & H2t).
  assert (H21 : U "method2" <> U "method1") by congruence.
  assert (Ht1 : U "tie" <> U "method1") by congruence.
  assert (Ht2 : U "tie" <> U "method2") by congruence.
  destruct (num_gt a b) eqn:Eab.
  - assert (Hlt : (num_value b < num_value a)%Q) by now apply Hab.
    repeat split; intros H;
      first [reflexivity | exact Hlt | contradiction | exfalso; lra].
  - assert (Hge : (num_value a <= num_value b)%Q).
    { apply Qnot_lt_le. intros H. apply Hab in H. discriminate. }
    destruct (num_gt b a) eqn:Eba.
    + assert (Hlt : (num_value a < num_value b)%Q) by now apply Hba.
      repeat split; intros H;
        first [reflexivity | exact Hlt | contradiction | exfalso; lra].
    + assert (Hge' : (num_value b <= num_value a)%Q).
      { apply Qnot_lt_le. intros H. apply Hba in H. discriminate. }
      repeat split; intros H;
        first [reflexivity | contradiction | lra | exfalso; lra].
Qed.

(** Whenever the mean of integer scores is computed at all, it is the
    float nearest to their arithmetic mean. *)
Lemma average_ints_value (l : list Z) (a : pynum) :
  GeminiHazardBenchmark.average (map JInt l) = inr a -> a = float_mean l.
Proof.
  rewrite average_ints. unfold float_mean. destruct l as [|z l].
  - now intros [= <-].
  - destruct (binary64 _); now intros [= <-].
Qed.

Lemma fin_lt_spec (f g : pyfloat) :
  fin_lt f g = true <->
  exists p q, f = Fin p /\ g = Fin q /\ (p < q)%Q.
Proof.
  split.
  - destruct f as [p| |], g as [q| |]; simpl; try discriminate.
    rewrite negb_true_iff, <- not_true_iff_false, Qle_bool_iff.
    intros H. exists p, q. repeat split. now apply Qnot_le_lt.
  - intros (p & q & -> & -> & H). simpl.
    rewrite negb_true_iff, <- not_true_iff_false, Qle_bool_iff.
    now apply Qlt_not_le.
Qed.

Lemma fin_lt_trans (f g h : pyfloat) :
  fin_lt f g = true -> fin_lt g h = true -> fin_lt f h = true.
Proof.
  rewrite !fin_lt_spec.
  intros (p & q & -> & -> & H1) (q' & r & [= <-] & -> & H2).
  exists p, r. repeat split. now apply Qlt_trans with q.
Qed.

Lemma increasing_from_spec (n : positive) (k : nat) :
  forall s, increasing_from n s k = true ->
  forall a b, (s <= a)%Z -> (a < b)%Z -> (b <= s + Z.of_nat k)%Z ->
  fin_lt (binary64 (a # n)) (binary64 (b # n)) = true.
Proof.
  induction k as [|k IH]; intros s H a b Ha Hab Hb; [lia|].
  cbn [increasing_from] in H. apply andb_true_iff in H as [H0 H].
  destruct (Z.eq_dec a s) as [->|Hne].
  - destruct (Z.eq_dec b (s + 1)) as [->|Hb1]; [exact H0|].
    apply fin_lt_trans with (binary64 (s + 1 # n)); [exact H0|].
    apply (IH (s + 1)%Z H); lia.
  - apply (IH (s + 1)%Z H); lia.
Qed.

(** Up to five integer percentages per strategy: the floats nearest to
    the possible means are finite and keep the order of the sums. *)
Lemma percentage_means_increase (n : positive) :
  (n <= 5)%positive ->
  increasing_from n 0 (100 * Pos.to_nat n) = true.
Proof.
  intros H.
  assert (Hn : n = 1%positive \/ n = 2%positive \/ n = 3%positive
               \/ n = 4%positive \/ n = 5%positive) by lia.
  destruct Hn as [-> | [-> | [-> | [-> | ->]]]]; vm_compute; reflexivity.
Qed.

Lemma sum_of_percentages (l : list Z) :
  Forall percentage l ->
  (0 <= fold_right Z.add 0 l <= 100 * Z.of_nat (length l))%Z.
Proof.
  unfold percentage.
  induction 1 as [|z l Hz _ IH]; simpl length; simpl fold_right; lia.
Qed.

Lemma mean_lt (l1 l2 : list Z) :
  length l1 = length l2 -> l1 <> [] ->
  ((arithmetic_mean l1 < arithmetic_mean l2)%Q
   <-> (fold_right Z.add 0 l1 < fold_right Z.add 0 l2)%Z) /\
  ((arithmetic_mean l1 == arithmetic_mean l2)%Q
   <-> fold_right Z.add 0%Z l1 = fold_right Z.add 0%Z l2).
Proof.
  intros Hlen Hne. unfold arithmetic_mean.
  destruct l1 as [|x l1]; [easy|]. destruct l2 as [|y l2]; [easy|].
  rewrite <- Hlen.
  set (n := inject_Z (Z.of_nat (length (x :: l1)))).
  assert (Hn : (0 < / n)%Q).
  { apply Qinv_lt_0_compat. unfold n. rewrite <- (Zlt_Qlt 0).
    simpl length. lia. }
  unfold Qdiv. split.
  - rewrite Qmult_lt_r by exact Hn. now rewrite <- Zlt_Qlt.
  - rewrite Qmult_inj_r by (intros H; rewrite H in Hn; discriminate).
    rewrite inject_Z_injective. reflexivity.
Qed.

(** The winner among up to five integer percentages per strategy is the
    strategy with the larger arithmetic mean. *)
Lemma winner_of_percentages (l1 l2 : list Z) :
  Forall percentage l1 -> Forall percentage l2 ->
  length l1 = length l2 -> length l1 <= 5 ->
  GeminiHazardBenchmark.average (map JInt l1) = inr (float_mean l1) /\
  GeminiHazardBenchmark.average (map JInt l2) = inr (float_mean l2) /\
  let w := GeminiHazardBenchmark.overall_winner (float_mean l1)
             (float_mean l2) in
  (w = U "method1" <-> (arithmetic_mean l2 < arithmetic_mean l1)%Q) /\
  (w = U "method2" <-> (arithmetic_mean l1 < arithmetic_mean l2)%Q) /\
  (w = U "tie" <-> (arithmetic_mean l1 == arithmetic_mean l2)%Q).
Proof.
  intros H1 H2 Hlen Hfive.
  destruct winner_names_differ as (H12 & H1t & H2t).
  destruct l1 as [|x l1].
  - destruct l2 as [|y l2]; [|discriminate].
    cbv zeta. unfold GeminiHazardBenchmark.overall_winner. simpl.
    repeat split; try discriminate; try reflexivity;
      intros H; try (now apply Qlt_irrefl in H); congruence.
  - assert (Hne2 : l2 <> []) by (destruct l2; [discriminate|easy]).
    destruct (mean_lt (x :: l1) l2 Hlen ltac:(discriminate)) as [M12 E12].
    destruct (mean_lt l2 (x :: l1) (eq_sym Hlen) Hne2) as [M21 _].
    cbv zeta. rewrite M12, M21, E12.
    pose proof (sum_of_percentages _ H1) as B1.
    pose proof (sum_of_percentages _ H2) as B2.
    rewrite <- Hlen in B2.
    set (n := Pos.of_nat (length (x :: l1))).
    assert (Hn : (n <= 5)%positive) by (unfold n; simpl length in *; lia).
    assert (Hk : (100 * Z.of_nat (length (x :: l1))
                  = 0 + Z.of_nat (100 * Pos.to_nat n))%Z).
    { unfold n. rewrite Nat2Pos.id by discriminate. lia. }
    pose proof (increasing_from_spec n _ 0%Z
                  (percentage_means_increase n Hn)) as Hinc.
    rewrite Hk in B1, B2.
    assert (Hfin : forall a,
               (0 <= a <= 0 + Z.of_nat (100 * Pos.to_nat n))%Z ->
               exists p, binary64 (a # n) = Fin p).
    { intros a Ha. destruct (Z.eq_dec a 0) as [->|Hnz].
      - assert (H : fin_lt (binary64 (0 # n)) (binary64 (1 # n)) = true)
          by (apply Hinc; lia).
        apply fin_lt_spec in H as (p & q & -> & _). eauto.
      - assert (H : fin_lt (binary64 (0 # n)) (binary64 (a # n)) = true)
          by (apply Hinc; lia).
        apply fin_lt_spec in H as (p & q & _ & -> & _). eauto. }
    assert (Hfm : forall l, l <> [] -> length l = length (x :: l1) ->
                    float_mean l
                    = PFloat (binary64 (fold_right Z.add 0%Z l # n))).
    { intros l Hl Hlen'. unfold float_mean, n. rewrite Hlen'.
      destruct l; [easy|reflexivity]. }
    assert (Havg : forall l, l <> [] -> length l = length (x :: l1) ->
                     (0 <= fold_right Z.add 0 l
                      <= 0 + Z.of_nat (100 * Pos.to_nat n))%Z ->
                     GeminiHazardBenchmark.average (map JInt l)
                     = inr (float_mean l)).
    { intros l Hl Hlen' Hb. rewrite average_ints, (Hfm l Hl Hlen').
      destruct l; [easy|]. rewrite Hlen'. fold n.
      destruct (Hfin _ Hb) as [p ->]. reflexivity. }
    split; [apply Havg; [discriminate|reflexivity|exact B1]|].
    split; [apply Havg; [exact Hne2|now symmetry|exact B2]|].
    rewrite (Hfm (x :: l1) ltac:(discriminate) eq_refl),
      (Hfm l2 Hne2 (eq_sym Hlen)).
    set (s1 := fold_right Z.add 0%Z (x :: l1)) in *.
    set (s2 := fold_right Z.add 0%Z l2) in *.
    cbv zeta. unfold GeminiHazardBenchmark.overall_winner, num_gt, to_float.
    destruct (Z.lt_trichotomy s1 s2) as [Hlt | [Heq | Hgt]].
    + assert (H : fin_lt (binary64 (s1 # n)) (binary64 (s2 # n)) = true)
        by (apply Hinc; lia).
      apply fin_lt_spec in H as (p & q & -> & -> & Hpq). simpl.
      replace (Qle_bool p q) with true
        by (symmetry; apply Qle_bool_iff; now apply Qlt_le_weak).
      replace (Qle_bool q p) with false
        by (symmetry; apply not_true_iff_false; rewrite Qle_bool_iff;
            now apply Qlt_not_le).
      simpl. repeat split; intros H; try reflexivity; try congruence; lia.
    + rewrite Heq. destruct (Hfin s2 B2) as [p ->]. simpl.
      replace (Qle_bool p p) with true
        by (symmetry; apply Qle_bool_iff; apply Qle_refl).
      simpl. repeat split; intros H; try reflexivity; try congruence; lia.
    + assert (H : fin_lt (binary64 (s2 # n)) (binary64 (s1 # n)) = true)
        by (apply Hinc; lia).
      apply fin_lt_spec in H as (q & p & -> & -> & Hpq). simpl.
      replace (Qle_bool p q) with false
        by (symmetry; apply not_true_iff_false; rewrite Qle_bool_iff;
            now apply Qlt_not_le).
      simpl. repeat split; intros H; try reflexivity; try congruence; lia.
Qed.

Section AggregatorTheorems.

Import GeminiHazardBenchmark.

Variable json_loads : str -> exn + json.
Variable py_repr : json -> str.

Lemma summarize_returns (t : tally) (report : BenchmarkReport) :
  summarize t = inr report ->
  exists avg1 avg2,
    average (method1_scores t) = inr avg1 /\
    average (method2_scores t) = inr avg2 /\
    report = mkReport
               (mkSummary (length (results t)) avg1 avg2
                  (method1_scores t) (method2_scores t)
                  (overall_winner avg1 avg2))
               (results t).
Proof.
  unfold summarize.
  destruct (average (method1_scores t)) as [e|avg1]; [discriminate|].
  destruct (average (method2_scores t)) as [e|avg2]; [discriminate|].
  intros H. exists avg1, avg2. repeat split. congruence.
Qed.

Lemma run_full_benchmark_returns
    (paths : list str) (w w' : World) (report : BenchmarkReport) :
  run_full_benchmark json_loads py_repr paths w = (inr report, w') ->
  length paths = 5 /\
  exists t,
    run_trials json_loads py_repr paths 1 (mkTally [] [] []) w = (t, w') /\
    summarize t = inr report.
Proof.
  unfold run_full_benchmark.
  destruct (length paths =? 5) eqn:E; cbn [negb]; [|discriminate].
  apply Nat.eqb_eq in E. intros Hr. split; [exact E|].
  destruct (run_trials json_loads py_repr paths 1 (mkTally [] [] []) w)
    as [t w1].
  exists t. split; congruence.
Qed.

(** C8.  With any number of paths other than five the full benchmark
    raises its [ValueError] at once, in the world it was given: nothing has
    been typed, read or sent.  With five paths it never raises a
    [ValueError]. *)
Theorem full_benchmark_requires_five_paths (paths : list str) (w : World) :
  (length paths <> 5 ->
   run_full_benchmark json_loads py_repr paths w =
   (inl (ValueError
           (U "Please provide exactly 5 image paths for the benchmark")),
    w)) /\
  (length paths = 5 ->
   forall msg,
     fst (run_full_benchmark json_loads py_repr paths w)
     <> inl (ValueError msg)).
Proof.
  unfold run_full_benchmark. split; intros Hlen.
  - apply Nat.eqb_neq in Hlen. now rewrite Hlen.
  - rewrite Hlen. cbn [Nat.eqb negb].
    destruct (run_trials json_loads py_repr paths 1 (mkTally [] [] []) w)
      as [t w1]. cbn [fst]. intros msg Hs.
    unfold summarize in Hs.
    destruct (average (method1_scores t)) as [e|avg1] eqn:E1.
    + destruct (average_raises _ _ E1) as [m [-> | ->]]; discriminate.
    + destruct (average (method2_scores t)) as [e|avg2] eqn:E2;
        [|discriminate].
      destruct (average_raises _ _ E2) as [m [-> | ->]]; discriminate.
Qed.

(** C7.  The report of a run holds, for each strategy, the scores the
    loop collected, one per completed trial, the mean [average] computes
    from them and the winner the strict comparison of the two means gives:
    method 1 when its mean is greater, method 2 when the mean of method 2
    is greater, a tie when neither is.  Whenever the mean of integer
    scores is computed, it is the integer 0 when there is no score and
    otherwise the float nearest to their arithmetic mean.  Integer
    percentages, up to five per strategy, always give a report: its means
    are those floats and its winner is the strategy whose arithmetic mean
    is larger, a tie exactly when the two are equal.  On the scores 80,
    70, 100, 60, 90 and 90, 95, 85, 70, 88 the means are the floats 80.0
    and 85.6 and the winner is method 2. *)
Theorem aggregator_means_and_winner :
  (forall (paths : list str) (w w' : World) (report : BenchmarkReport),
     run_full_benchmark json_loads py_repr paths w = (inr report, w') ->
     let s := benchmark_summary report in
     let t := fst (run_trials json_loads py_repr paths 1
                     (mkTally [] [] []) w) in
     summary_method1_scores s = method1_scores t /\
     summary_method2_scores s = method2_scores t /\
     total_tests s = completed_trials json_loads py_repr paths 1 w /\
     length (summary_method1_scores s) = total_tests s /\
     length (summary_method2_scores s) = total_tests s /\
     average (summary_method1_scores s) = inr (method1_average s) /\
     average (summary_method2_scores s) = inr (method2_average s) /\
     winner s = overall_winner (method1_average s) (method2_average s) /\
     forall s1 s2 : list Z,
       summary_method1_scores s = map JInt s1 ->
       summary_method2_scores s = map JInt s2 ->
       Forall percentage s1 -> Forall percentage s2 ->
       method1_average s = float_mean s1 /\
       method2_average s = float_mean s2 /\
       (winner s = U "method1"
        <-> (arithmetic_mean s2 < arithmetic_mean s1)%Q) /\
       (winner s = U "method2"
        <-> (arithmetic_mean s1 < arithmetic_mean s2)%Q) /\
       (winner s = U "tie"
        <-> (arithmetic_mean s1 == arithmetic_mean s2)%Q)) /\
  (forall a b : pynum,
     (overall_winner a b = U "method1" <-> num_gt a b = true) /\
     (overall_winner a b = U "method2"
      <-> num_gt a b = false /\ num_gt b a = true) /\
     (overall_winner a b = U "tie"
      <-> num_gt a b = false /\ num_gt b a = false)) /\
  (forall (scores : list Z) (mean : pynum),
     average (map JInt scores) = inr mean -> mean = float_mean scores) /\
  (forall (rs : list dict) (s1 s2 : list Z),
     Forall percentage s1 -> Forall percentage s2 ->
     length s1 = length s2 -> length s1 <= 5 ->
     exists report,
       summarize (mkTally rs (map JInt s1) (map JInt s2)) = inr report /\
       let s := benchmark_summary report in
       method1_average s = float_mean s1 /\
       method2_average s = float_mean s2 /\
       (winner s = U "method1"
        <-> (arithmetic_mean s2 < arithmetic_mean s1)%Q) /\
       (winner s = U "method2"
        <-> (arithmetic_mean s1 < arithmetic_mean s2)%Q) /\
       (winner s = U "tie"
        <-> (arithmetic_mean s1 == arithmetic_mean s2)%Q)) /\
  (forall rs : list dict,
     exists report,
       summarize (mkTally rs [] []) = inr report /\
       method1_average (benchmark_summary report) = PInt 0 /\
       method2_average (benchmark_summary report) = PInt 0 /\
       winner (benchmark_summary report) = U "tie") /\
  (exists report,
     summarize (mkTally [] (map JInt example_scores_a)
                  (map JInt example_scores_b)) = inr report /\
     method1_average (benchmark_summary report) = PFloat (Fin 80) /\
     method2_average (benchmark_summary report)
     = PFloat (binary64 (856 # 10)) /\
     winner (benchmark_summary report) = U "method2").
Proof.
  split; [|split; [|split; [|split; [|split]]]].
  - intros paths w w' report H.
    destruct (run_full_benchmark_returns _ _ _ _ H) as (Hlen & t & Ht & Hs).
    destruct (summarize_returns _ _ Hs) as (a1 & a2 & A1 & A2 & ->).
    pose proof (run_trials_count json_loads py_repr paths 1
                  (mkTally [] [] []) w) as Hc.
    pose proof (completed_trials_le json_loads py_repr paths 1 w) as Hle.
    rewrite Ht in Hc. cbv zeta in Hc. cbn [fst results method1_scores
      method2_scores length] in Hc.
    cbv zeta. rewrite Ht.
    cbn [fst benchmark_summary total_tests summary_method1_scores
           summary_method2_scores method1_average method2_average winner].
    destruct Hc as (C0 & C1 & C2).
    repeat (split; [first [assumption | reflexivity | lia]|]).
    intros s1 s2 E1 E2 P1 P2.
    assert (L1 : length s1 = length (method1_scores t))
      by (now rewrite E1, length_map).
    assert (L2 : length s2 = length (method2_scores t))
      by (now rewrite E2, length_map).
    destruct (winner_of_percentages s1 s2 P1 P2 ltac:(lia) ltac:(lia))
      as (V1 & V2 & W).
    rewrite E1, V1 in A1. rewrite E2, V2 in A2.
    injection A1 as <-. injection A2 as <-.
    split; [reflexivity|]. split; [reflexivity|]. exact W.
  - intros a b. destruct winner_names_differ as (H12 & H1t & H2t).
    unfold overall_winner.
    destruct (num_gt a b), (num_gt b a); intuition congruence.
  - exact average_ints_value.
  - intros rs s1 s2 P1 P2 Hlen Hfive.
    destruct (winner_of_percentages s1 s2 P1 P2 Hlen Hfive)
      as (V1 & V2 & W).
    unfold summarize. cbn [method1_scores method2_scores].
    rewrite V1, V2. eexists. split; [reflexivity|].
    cbv zeta. cbn [benchmark_summary method1_average method2_average
                     winner].
    split; [reflexivity|]. split; [reflexivity|]. exact W.
  - intros rs. eexists. split; [reflexivity|]. now repeat split.
  - eexists. split; [vm_compute; reflexivity|].
    split; [reflexivity|]. split; [vm_compute; reflexivity|reflexivity].
Qed.

(** C9.  In a full run that returns a summary, a path that does not exist
    makes its trial raise [FileNotFoundError] with nothing typed, read or
    sent; the loop goes on with the paths after it from the state it had
    before; and [total_tests] is the number of trials that completed, at
    most 4, and 4 exactly when every other trial completed. *)
Theorem missing_image_skips_one_trial
    (l1 l2 : list str) (p : str) (w w' : World) (report : BenchmarkReport) :
  find_file (files w) p = None ->
  run_full_benchmark json_loads py_repr (l1 ++ p :: l2) w
  = (inr report, w') ->
  let i := (1 + Z.of_nat (length l1))%Z in
  let start := mkTally [] [] [] in
  let t1 := fst (run_trials json_loads py_repr l1 1 start w) in
  let w1 := snd (run_trials json_loads py_repr l1 1 start w) in
  let total := total_tests (benchmark_summary report) in
  run_single_benchmark json_loads py_repr p i w1
  = (inl (FileNotFoundError (U "Image not found: " ++ p)), w1) /\
  run_trials json_loads py_repr (l1 ++ p :: l2) 1 start w
  = run_trials json_loads py_repr l2 (i + 1) t1 w1 /\
  total = completed_trials json_loads py_repr (l1 ++ p :: l2) 1 w /\
  total = length (detailed_results report) /\
  total = completed_trials json_loads py_repr l1 1 w
          + completed_trials json_loads py_repr l2 (i + 1) w1 /\
  total <= 4 /\
  (total = 4 <->
   completed_trials json_loads py_repr l1 1 w = length l1 /\
   completed_trials json_loads py_repr l2 (i + 1) w1 = length l2).
Proof.
  intros Hmiss Hrun. cbv zeta.
  set (i := (1 + Z.of_nat (length l1))%Z).
  destruct (run_full_benchmark_returns _ _ _ _ Hrun) as (Hlen & t & Ht & Hs).
  destruct (summarize_returns _ _ Hs) as (a1 & a2 & _ & _ & Hrep).
  pose proof (run_trials_files json_loads py_repr l1 1
                (mkTally [] [] []) w) as Hfiles.
  pose proof (run_trials_count json_loads py_repr l1 1
                (mkTally [] [] []) w) as Hc1.
  pose proof (run_trials_app json_loads py_repr l1 (p :: l2) 1
                (mkTally [] [] []) w)
    as Happ.
  destruct (run_trials json_loads py_repr l1 1 (mkTally [] [] []) w) as [t1 w1].
  cbn [fst snd] in *.
  assert (Hmiss1 : find_file (files w1) p = None) by now rewrite Hfiles.
  assert (Hsingle := run_single_missing json_loads py_repr p i w1 Hmiss1).
  assert (Hloop : run_trials json_loads py_repr (l1 ++ p :: l2) 1
                    (mkTally [] [] []) w
                  = run_trials json_loads py_repr l2 (i + 1) t1 w1).
  { rewrite Happ. cbn [run_trials]. fold i.
    unfold run_trial. now rewrite Hsingle. }
  pose proof (run_trials_count json_loads py_repr (l1 ++ p :: l2) 1
                (mkTally [] [] []) w) as Hall.
  pose proof (run_trials_count json_loads py_repr l2 (i + 1) t1 w1) as Hc2.
  rewrite <- Hloop in Hc2. rewrite Ht in Hall, Hc2.
  cbv zeta in Hall, Hc1, Hc2.
  cbn [fst results method1_scores method2_scores length]
    in Hall, Hc1, Hc2.
  pose proof (completed_trials_le json_loads py_repr l1 1 w) as B1.
  pose proof (completed_trials_le json_loads py_repr l2 (i + 1) w1) as B2.
  rewrite length_app in Hlen. cbn [length] in Hlen.
  rewrite Hrep.
  cbn [benchmark_summary total_tests detailed_results].
  repeat split; try assumption; lia.
Qed.

(** X25.  When the judge's call raises, or [json.loads] rejects its
    reply, the comparator returns scores 0 and 0 with winner "error"; the
    trial is still recorded, and it adds a 0 to the scores of both
    strategies. *)
Theorem comparator_failure_counts_as_zero
    (p : str) (i : Z) (t : tally) (w w1 w2 w3 : World) (m1 m2 gt : dict) :
  fst (path_exists p w) = inr true ->
  method1_manual_input_with_ai json_loads p w = (inr m1, w1) ->
  method2_ai_followup json_loads py_repr p w1 = (inr m2, w2) ->
  get_ground_truth w2 = (inr gt, w3) ->
  (exists e, next_reply w3 = Fail e) \/
  (exists r e, next_reply w3 = Reply r /\
               parse_reply json_loads r = inl e) ->
  exists e,
    let w4 := log (mkRequest [evaluation_prompt py_repr m1 m2 gt] None) w3 in
    let score := JObj (evaluation_failed e) in
    evaluate_accuracy json_loads py_repr m1 m2 gt w3 = (inr score, w4) /\
    get_none (evaluation_failed e) (U "method1_accuracy") = JInt 0 /\
    get_none (evaluation_failed e) (U "method2_accuracy") = JInt 0 /\
    get_none (evaluation_failed e) (U "winner") = JStr (U "error") /\
    run_trial json_loads py_repr p i t w =
    (mkTally (results t ++ [trial_record i p m1 m2 gt score])
       (method1_scores t ++ [JInt 0]) (method2_scores t ++ [JInt 0]),
     w4).
Proof.
  intros Hfile H1 H2 Hgt Hfail.
  assert (Heval : exists e,
             evaluate_accuracy json_loads py_repr m1 m2 gt w3 =
             (inr (JObj (evaluation_failed e)),
              log (mkRequest [evaluation_prompt py_repr m1 m2 gt] None) w3)).
  { rewrite evaluate_accuracy_eq.
    destruct Hfail as [[e ->]|(r & e & -> & ->)]; eauto. }
  destruct Heval as [e Heval]. exists e. cbv zeta.
  split; [exact Heval|]. repeat split.
  unfold run_trial, run_single_benchmark.
  unfold bind at 1. unfold path_exists in *. cbn [fst] in Hfile.
  destruct (find_file (files w) p) as [f|]; [|discriminate].
  cbn [negb].
  rewrite (bind_inr _ _ _ _ _ H1), (bind_inr _ _ _ _ _ H2),
    (bind_inr _ _ _ _ _ Hgt), (bind_inr _ _ _ _ _ Heval).
  unfold bind, _display_results, ret.
  now rewrite evaluation_of_trial_record.
Qed.

End AggregatorTheorems.

(** ** Fenced replies *)

Lemma fence_marker : U "```" = [96; 96; 96]%N.
Proof. reflexivity. Qed.

Lemma json_marker : U "```json" = [96; 96; 96; 106; 115; 111; 110]%N.
Proof. reflexivity. Qed.

Lemma find_at_head (sub s : str) (i : nat) :
  find_at sub s i = None -> startswith s sub = false.
Proof.
  destruct s as [|c s]; simpl; destruct (startswith _ sub); congruence.
Qed.

Lemma find_at_tail (sub : str) (c : N) (s : str) (i : nat) :
  find_at sub (c :: s) i = None -> find_at sub s 0 = None.
Proof.
  simpl. destruct (startswith (c :: s) sub); [discriminate|].
  rewrite find_at_shift. now destruct (find_at sub s 0).
Qed.

Lemma find_at_prefix (sub s : str) (i : nat) :
  startswith s sub = true -> find_at sub s i = Some i.
Proof. intros H. destruct s; simpl; now rewrite H. Qed.

(** A marker cannot straddle the newline that follows the payload. *)
Lemma no_straddle (p t : str) :
  startswith (p ++ 10%N :: t) [96; 96; 96]%N
  = startswith p [96; 96; 96]%N.
Proof.
  destruct p as [|a [|b [|c p]]]; cbn [app startswith];
    repeat match goal with
           | |- context [(96 =? ?x)%N] =>
               is_var x; destruct (96 =? x)%N; cbn [andb]
           end; reflexivity.
Qed.

Lemma startswith_json_marker (s : str) :
  startswith s (U "```json") = true -> startswith s (U "```") = true.
Proof.
  rewrite json_marker, fence_marker.
  destruct s as [|a [|b [|c s]]]; cbn [startswith];
    repeat match goal with
           | |- context [(96 =? ?x)%N] =>
               is_var x; destruct (96 =? x)%N; cbn [andb]
           end; congruence.
Qed.

(** In a payload without marker, followed by a newline and the closing
    marker, the first marker is the closing one. *)
Lemma find_closing_marker (p : str) (i : nat) :
  find_at (U "```") p 0 = None ->
  find_at (U "```") (p ++ 10%N :: U "```") i = Some (i + length p + 1).
Proof.
  rewrite fence_marker. revert i; induction p as [|c p IH]; intros i H.
  - simpl. f_equal. lia.
  - pose proof (find_at_head _ _ _ H) as Hh.
    pose proof (find_at_tail _ _ _ _ H) as Ht.
    change ((c :: p) ++ 10%N :: [96; 96; 96]%N)
      with (c :: (p ++ 10%N :: [96; 96; 96]%N)).
    cbn [find_at].
    change (c :: (p ++ 10%N :: [96; 96; 96]%N))
      with ((c :: p) ++ 10%N :: [96; 96; 96]%N).
    rewrite no_straddle, Hh, (IH (S i) Ht). f_equal. simpl. lia.
Qed.

(** [replace] leaves a text without occurrence alone. *)
Lemma replace_json_marker_absent (p : str) :
  find_at (U "```") p 0 = None ->
  replace_from (U "```json") [] 0 (p ++ 10%N :: U "```")
  = p ++ 10%N :: U "```".
Proof.
  induction p as [|c p IH]; intros H; [reflexivity|].
  pose proof (find_at_head _ _ _ H) as Hh.
  pose proof (find_at_tail _ _ _ _ H) as Ht.
  change ((c :: p) ++ 10%N :: U "```") with (c :: (p ++ 10%N :: U "```")).
  cbn [replace_from].
  change (c :: (p ++ 10%N :: U "```")) with ((c :: p) ++ 10%N :: U "```").
  destruct (startswith ((c :: p) ++ 10%N :: U "```") (U "```json")) eqn:E.
  - apply startswith_json_marker in E.
    rewrite fence_marker, no_straddle in E.
    rewrite fence_marker in Hh. congruence.
  - now rewrite (IH Ht).
Qed.

Lemma replace_closing_marker (p : str) :
  find_at (U "```") p 0 = None ->
  replace_from (U "```") [] 0 (p ++ 10%N :: U "```") = p ++ [10%N].
Proof.
  rewrite fence_marker.
  induction p as [|c p IH]; intros H; [reflexivity|].
  pose proof (find_at_head _ _ _ H) as Hh.
  pose proof (find_at_tail _ _ _ _ H) as Ht.
  change ((c :: p) ++ 10%N :: [96; 96; 96]%N)
    with (c :: (p ++ 10%N :: [96; 96; 96]%N)).
  cbn [replace_from].
  change (c :: (p ++ 10%N :: [96; 96; 96]%N))
    with ((c :: p) ++ 10%N :: [96; 96; 96]%N).
  rewrite no_straddle, Hh, (IH Ht). reflexivity.
Qed.

Lemma strip_fenced (p : str) : strip (fenced p) = fenced p.
Proof.
  unfold strip, fenced. rewrite json_marker, fence_marker.
  cbn [app]. rewrite lstrip_not_space by reflexivity.
  change (96%N :: 96%N :: 96%N :: 106%N :: 115%N :: 111%N :: 110%N
            :: 10%N :: p ++ [10; 96; 96; 96]%N)
    with ([96; 96; 96; 106; 115; 111; 110; 10]%N
            ++ p ++ [10; 96; 96]%N ++ [96%N]).
  rewrite !app_assoc. apply rstrip_not_space. reflexivity.
Qed.

Lemma no_marker_in_stripped (p : str) :
  contains (U "```") p = false -> contains (U "```") (strip p) = false.
Proof.
  rewrite !contains_false. intros H Hs. apply H.
  exact (occurs_in_trans _ _ _ Hs (strip_occurs_in p)).
Qed.

Lemma no_json_marker (s : str) :
  contains (U "```") s = false ->
  contains (U "```json") s = false /\ startswith s (U "```json") = false.
Proof.
  rewrite contains_false. intros H. split.
  - apply contains_false. intros (a & b & ->). apply H.
    exists a, (U "json" ++ b). reflexivity.
  - destruct (startswith s (U "```json")) eqn:E; [|reflexivity].
    destruct (startswith_inv _ _ E) as [t ->]. destruct H.
    exists [], (U "json" ++ t). reflexivity.
Qed.

(** The fence block of the Gemini sites on a fenced payload. *)
Lemma strip_json_fence_fenced (p : str) :
  contains (U "```") p = false ->
  GeminiHazardBenchmark.strip_json_fence (fenced p) = strip p.
Proof.
  intros H. unfold contains in H.
  destruct (find_at (U "```") p 0) eqn:Hp; [discriminate|].
  unfold GeminiHazardBenchmark.strip_json_fence.
  assert (Hin : find_at (U "```json") (fenced p) 0 = Some 0).
  { apply find_at_prefix. apply startswith_app. }
  unfold contains. rewrite find_from_start, Hin.
  assert (Hlen : length (fenced p) = length p + 12).
  { unfold fenced. rewrite !length_app. simpl. lia. }
  change (Z.of_nat 0 + 7)%Z with 7%Z.
  assert (Hend : find (fenced p) (U "```") 7 = Z.of_nat (length p + 9)).
  { unfold find, norm_index. rewrite Hlen.
    replace (Z.of_nat (length p + 12) <? 7)%Z with false
      by (symmetry; apply Z.ltb_ge; lia).
    change (7 <? 0)%Z with false. cbv iota.
    change (Z.to_nat 7) with 7.
    rewrite Nat.min_l by lia.
    change (skipn 7 (fenced p)) with (10%N :: p ++ 10%N :: U "```").
    cbn [find_at].
    change (startswith (10%N :: p ++ 10%N :: U "```") (U "```"))
      with false. cbv iota.
    rewrite find_closing_marker by exact Hp. f_equal. lia. }
  rewrite Hend. unfold slice, norm_index. rewrite Hlen.
  change (7 <? 0)%Z with false.
  replace (Z.of_nat (length p + 9) <? 0)%Z with false
    by (symmetry; apply Z.ltb_ge; lia).
  cbv iota. change (Z.to_nat 7) with 7.
  rewrite Nat2Z.id, !Nat.min_l by lia.
  replace (firstn (length p + 9) (fenced p))
    with (U "```json" ++ 10%N :: p ++ [10%N]).
  - change (skipn 7 (U "```json" ++ 10%N :: p ++ [10%N]))
      with (10%N :: p ++ [10%N]).
    apply strip_newlines.
  - unfold fenced.
    change (U "```json" ++ [10%N] ++ p ++ [10%N] ++ U "```")
      with ((U "```json" ++ [10%N]) ++ p ++ [10%N] ++ U "```").
    rewrite (app_assoc p), app_assoc.
    replace (length p + 9)
      with (length ((U "```json" ++ [10%N]) ++ p ++ [10%N]) + 0)
      by (rewrite !length_app; simpl; lia).
    rewrite firstn_app_2. cbn [firstn]. rewrite app_nil_r.
    now rewrite <- app_assoc.
Qed.

(** The clean-up of the single-pass assessor on a fenced payload. *)
Lemma clean_markdown_fenced (p : str) :
  contains (U "```") p = false ->
  HazardDetectionBenchmark.clean_markdown (fenced p) = strip p.
Proof.
  intros H. unfold contains in H.
  destruct (find_at (U "```") p 0) eqn:Hp; [discriminate|].
  unfold HazardDetectionBenchmark.clean_markdown.
  replace (startswith (fenced p) (U "```json")) with true
    by (symmetry; apply startswith_app).
  unfold replace.
  replace (replace_from (U "```json") [] 0 (fenced p))
    with (10%N :: p ++ 10%N :: U "```").
  - change (10%N :: p ++ 10%N :: U "```")
      with ((10%N :: p) ++ 10%N :: U "```").
    rewrite replace_closing_marker.
    + apply strip_newlines.
    + simpl. change (startswith (10%N :: p) (U "```")) with false.
      cbv iota. rewrite find_at_shift, Hp. reflexivity.
  - unfold fenced. rewrite json_marker. cbn [app replace_from startswith].
    rewrite !N.eqb_refl. cbn [andb length Nat.sub app].
    change (10%N :: p ++ [10%N] ++ U "```")
      with ((10%N :: p) ++ 10%N :: U "```").
    rewrite <- json_marker. rewrite replace_json_marker_absent; [reflexivity|].
    simpl. change (startswith (10%N :: p) (U "```")) with false.
    cbv iota. rewrite find_at_shift, Hp. reflexivity.
Qed.

Section Extractor.

Variable json_loads : str -> exn + json.

(** X24.  For a payload without the sequence of three
    backticks, the reply that wraps it in a fenced block and the reply that
    is the bare payload hand the same text to [json.loads], at the Gemini
    sites and in the single-pass assessor: the payload with the whitespace
    around it removed.  Where the decoder reads the payload the same with
    and without that whitespace, the fenced reply decodes as the payload
    itself does. *)
Theorem fenced_and_bare_replies_decode_alike (p : str) :
  contains (U "```") p = false ->
  (forall r, strip (text r) = fenced p ->
     GeminiHazardBenchmark.parse_reply json_loads r = json_loads (strip p)
     /\ HazardDetectionBenchmark.clean_markdown (strip (text r)) = strip p)
  /\
  (forall r, text r = p ->
     GeminiHazardBenchmark.parse_reply json_loads r = json_loads (strip p)
     /\ HazardDetectionBenchmark.clean_markdown (strip (text r)) = strip p)
  /\
  (forall r meta, strip (text r) = fenced p ->
     HazardDetectionBenchmark.decode_and_stamp json_loads meta
       (HazardDetectionBenchmark.clean_markdown (strip (text r)))
     = HazardDetectionBenchmark.decode_and_stamp json_loads meta (strip p))
  /\
  (json_loads (strip p) = json_loads p ->
   forall r, strip (text r) = fenced p ->
     GeminiHazardBenchmark.parse_reply json_loads r = json_loads p).
Proof.
  intros H.
  assert (Hf : forall r, strip (text r) = fenced p ->
     GeminiHazardBenchmark.parse_reply json_loads r = json_loads (strip p)
     /\ HazardDetectionBenchmark.clean_markdown (strip (text r)) = strip p).
  { intros r Hr. unfold GeminiHazardBenchmark.parse_reply. rewrite Hr.
    rewrite strip_json_fence_fenced, clean_markdown_fenced by exact H.
    now split. }
  split; [exact Hf|]. split; [|split].
  - intros r Hr.
    destruct (no_json_marker _ (no_marker_in_stripped _ H)) as [Hc Hs].
    unfold GeminiHazardBenchmark.parse_reply,
      GeminiHazardBenchmark.strip_json_fence,
      HazardDetectionBenchmark.clean_markdown.
    now rewrite Hr, Hc, Hs.
  - intros r meta Hr. now rewrite (proj2 (Hf r Hr)).
  - intros Hp r Hr. now rewrite (proj1 (Hf r Hr)).
Qed.

End Extractor.

(** ** Dictionaries *)

Lemma eqb_eq (a b : str) : PyStr.eqb a b = true <-> a = b.
Proof.
  revert b; induction a as [|x a IH]; intros [|y b]; simpl;
    try (split; congruence).
  rewrite andb_true_iff, N.eqb_eq, IH. split.
  - now intros [-> ->].
  - now intros [= -> ->].
Qed.

Lemma lookup_setitem_other (d : dict) (k k' : str) (v : json) :
  k <> k' -> lookup (setitem d k' v) k = lookup d k.
Proof.
  intros Hk. induction d as [|[kd vd] d IH]; simpl.
  - destruct (PyStr.eqb k k') eqn:E; [|reflexivity].
    now apply eqb_eq in E.
  - destruct (PyStr.eqb k' kd) eqn:E'; simpl.
    + apply eqb_eq in E'. subst kd.
      destruct (PyStr.eqb k k') eqn:E; [|reflexivity].
      now apply eqb_eq in E.
    + now rewrite IH.
Qed.

(** ** The single-pass assessor *)

Section SinglePass.

Import HazardDetectionBenchmark.

Variable json_loads : str -> exn + json.

(** The assessor, once the image is read, by the outcome of its model
    call. *)
Lemma analyze_hazard_image_eq (p : str) (w : World) (data : list N) :
  find_file (files w) p = Some (Readable data) ->
  analyze_hazard_image json_loads p w =
  (match next_reply w with
   | Fail e =>
       if is_JSONDecodeError e then inl content_unbound
       else inr (JObj (call_failed e))
   | Reply r =>
       inr (let content := clean_markdown (strip (text r)) in
            match decode_and_stamp json_loads r content with
            | inr result => result
            | inl e =>
                if is_JSONDecodeError e
                then JObj (parsing_failed content e)
                else JObj (call_failed e)
            end)
   end,
   log (mkRequest [system_prompt; user_text] (Some (U "image/jpeg", data)))
     w).
Proof.
  intros Hfile. unfold analyze_hazard_image, encode_image.
  rewrite (bind_read_file _ _ Hfile).
  unfold try_except, bind, call_model, lift, ret, raise.
  destruct (next_reply w) as [r|e].
  - destruct (decode_and_stamp json_loads r _) as [e|v]; [|reflexivity].
    destruct (is_JSONDecodeError e) eqn:E; [reflexivity|].
    cbv beta iota. now rewrite E.
  - now destruct (is_JSONDecodeError e).
Qed.

Lemma decode_and_stamp_dict (r : response) (content : str) (d : dict) :
  json_loads content = inr (JObj d) ->
  exists d',
    decode_and_stamp json_loads r content = inr (JObj d') /\
    forall k, k <> U "timestamp" -> k <> U "model" -> k <> U "usage" ->
      lookup d' k = lookup d k.
Proof.
  intros H. unfold decode_and_stamp. rewrite H.
  cbn [setitem_json]. eexists. split; [reflexivity|].
  intros k H1 H2 H3. now rewrite !lookup_setitem_other.
Qed.

Lemma decode_and_stamp_raises (r : response) (content : str) (e : exn) :
  json_loads content = inl e ->
  decode_and_stamp json_loads r content = inl e.
Proof. intros H. unfold decode_and_stamp. now rewrite H. Qed.

Lemma decode_and_stamp_not_dict (r : response) (content : str) (v : json) :
  json_loads content = inr v ->
  (forall d, v <> JObj d) ->
  exists msg, decode_and_stamp json_loads r content = inl (TypeError msg).
Proof.
  intros H Hv. unfold decode_and_stamp. rewrite H.
  destruct v; cbn [setitem_json]; eauto. now destruct (Hv d).
Qed.

Lemma assessment_mode_auto_fill (result : json) :
  assessment_mode result = AutoFill
  <-> field result (U "mode") = JStr (U "auto_fill").
Proof.
  unfold assessment_mode.
  destruct (field result (U "mode")) as [| | | |m| |]; try (split; discriminate).
  destruct (PyStr.eqb m (U "auto_fill")) eqn:E.
  - apply eqb_eq in E. subst m. now split.
  - split.
    + destruct (PyStr.eqb m (U "follow_up_question")); discriminate.
    + intros [= ->]. discriminate.
Qed.

(** The summary prints its auto-fill block only for the declared mode
    ["auto_fill"]. *)
Lemma print_summary_auto_fill (d : dict) :
  _print_summary d = inr AutoFillBlock ->
  get_none d (U "mode") = JStr (U "auto_fill").
Proof.
  unfold _print_summary.
  destruct (truthy (get_none d (U "error"))); [discriminate|].
  unfold get_none, get.
  destruct (lookup d (U "mode")) as [[| | | |m| |]|]; cbn [upper];
    try discriminate.
  - destruct (upper _); [discriminate|].
    destruct (PyStr.eqb m (U "auto_fill")) eqn:E.
    + apply eqb_eq in E. now subst m.
    + destruct (PyStr.eqb m (U "follow_up_question")); discriminate.
  - destruct (upper _); [discriminate|].
    change (PyStr.eqb (U "unknown") (U "auto_fill")) with false.
    change (PyStr.eqb (U "unknown") (U "follow_up_question")) with false.
    discriminate.
Qed.

End SinglePass.

Lemma key_mode : U "mode" <> U "timestamp" /\ U "mode" <> U "model"
                 /\ U "mode" <> U "usage".
Proof. repeat split; intros H; cbv in H; discriminate. Qed.

Lemma key_confidence_level :
  U "confidence_level" <> U "timestamp" /\ U "confidence_level" <> U "model"
  /\ U "confidence_level" <> U "usage".
Proof. repeat split; intros H; cbv in H; discriminate. Qed.

Section SinglePassTheorems.

Import HazardDetectionBenchmark.

Variable json_loads : str -> exn + json.

(** C1, as the code has it.  The assessor does not derive the mode from the
    confidence tier.  When the reply decodes to a dictionary, the result
    carries the ["mode"] and the ["confidence_level"] that the reply
    declares, unchanged, and the outcome is auto-fill exactly when the
    declared mode is ["auto_fill"].  When the call fails with an exception
    that is not a [JSONDecodeError], or the reply does not decode to a
    dictionary, the assessor itself sets both fields to ["error"].  The
    summary prints the auto-fill block only for a declared mode
    ["auto_fill"]. *)
Theorem assessor_reports_declared_mode
    (p : str) (w : World) (data : list N) :
  find_file (files w) p = Some (Readable data) ->
  (forall msg, next_reply w <> Fail (JSONDecodeError msg)) ->
  exists result,
    analyze_hazard_image json_loads p w =
    (inr result,
     log (mkRequest [system_prompt; user_text]
            (Some (U "image/jpeg", data))) w) /\
    (assessment_mode result = AutoFill
     <-> field result (U "mode") = JStr (U "auto_fill")) /\
    (forall d, result = JObj d -> _print_summary d = inr AutoFillBlock ->
       field result (U "mode") = JStr (U "auto_fill")) /\
    match next_reply w with
    | Fail _ =>
        field result (U "mode") = JStr (U "error") /\
        field result (U "confidence_level") = JStr (U "error")
    | Reply r =>
        match json_loads (clean_markdown (strip (text r))) with
        | inr (JObj d) =>
            field result (U "mode") = get_none d (U "mode") /\
            field result (U "confidence_level")
            = get_none d (U "confidence_level")
        | _ =>
            field result (U "mode") = JStr (U "error") /\
            field result (U "confidence_level") = JStr (U "error")
        end
    end.
Proof.
  intros Hfile Hcall.
  pose proof (analyze_hazard_image_eq json_loads p w data Hfile) as Hrun.
  destruct (next_reply w) as [r|e].
  2: { assert (He : is_JSONDecodeError e = false)
         by (destruct e; try reflexivity; now destruct (Hcall msg)).
       rewrite He in Hrun. eexists. split; [exact Hrun|].
       split; [apply assessment_mode_auto_fill|].
       split; [|now split].
       intros d Hd Hs. rewrite Hd. exact (print_summary_auto_fill d Hs). }
  eexists. split; [exact Hrun|].
  split; [apply assessment_mode_auto_fill|].
  split; [intros d Hd Hs; rewrite Hd; exact (print_summary_auto_fill d Hs)|].
  cbv zeta.
  destruct (json_loads (clean_markdown (strip (text r)))) as [e|v] eqn:E.
  - rewrite (decode_and_stamp_raises json_loads r _ _ E).
    destruct (is_JSONDecodeError e); now split.
  - assert (Hnd : (forall d, v <> JObj d) ->
        field
          match decode_and_stamp json_loads r
                  (clean_markdown (strip (text r))) with
          | inl e =>
              if is_JSONDecodeError e
              then JObj (parsing_failed (clean_markdown (strip (text r))) e)
              else JObj (call_failed e)
          | inr result => result
          end (U "mode") = JStr (U "error") /\
        field
          match decode_and_stamp json_loads r
                  (clean_markdown (strip (text r))) with
          | inl e =>
              if is_JSONDecodeError e
              then JObj (parsing_failed (clean_markdown (strip (text r))) e)
              else JObj (call_failed e)
          | inr result => result
          end (U "confidence_level") = JStr (U "error")).
    { intros Hv.
      destruct (decode_and_stamp_not_dict json_loads r _ _ E Hv) as [m ->].
      now split. }
    destruct v as [| | | | | |d]; try (apply Hnd; intros d; discriminate).
    destruct (decode_and_stamp_dict json_loads r _ _ E) as (d' & -> & Hd').
    destruct key_mode as (M1 & M2 & M3).
    destruct key_confidence_level as (C1 & C2 & C3).
    unfold field, get_none, get. now rewrite !Hd'.
Qed.

End SinglePassTheorems.

(** ** Failures inside a model call *)

Section ErrorHandling.

Import GeminiHazardBenchmark.

Variable json_loads : str -> exn + json.
Variable py_repr : json -> str.

Lemma reply_dict_raises (r : response) (e : exn) :
  parse_reply json_loads r = inl e ->
  reply_dict json_loads (Reply r) = inl e.
Proof. intros H. unfold reply_dict. now rewrite H. Qed.

Lemma reply_dict_returns (r : response) (d : dict) :
  parse_reply json_loads r = inr (JObj d) ->
  reply_dict json_loads (Reply r) = inr d.
Proof. intros H. unfold reply_dict. now rewrite H. Qed.

(** C2, as the code has it.  A reply that [json.loads] rejects, with
    whatever exception, makes every extraction site return, not raise, a
    dictionary with an ["error"] entry.  The single-pass assessor puts the
    offending text in it, as ["raw_response"] (the reply after [strip()]
    and the removal of the fence markers), when the exception is a
    [JSONDecodeError]; on any other exception its dictionary is the
    generic one, which has no ["raw_response"].  The sites of the Gemini
    file return a dictionary that is built from the exception's message
    alone. *)
Theorem undecodable_reply_gives_error_record (r : response) (e : exn) :
  (forall p w data,
     find_file (files w) p = Some (Readable data) ->
     next_reply w = Reply r ->
     let content :=
       HazardDetectionBenchmark.clean_markdown (strip (text r)) in
     json_loads content = inl e ->
     exists record,
       fst (HazardDetectionBenchmark.analyze_hazard_image json_loads p w)
       = inr (JObj record) /\
       get_none record (U "confidence_level") = JStr (U "error") /\
       get_none record (U "mode") = JStr (U "error") /\
       if is_JSONDecodeError e then
         lookup record (U "raw_response") = Some (JStr content) /\
         get_none record (U "error")
         = JStr (U "JSON parsing error: " ++ exn_str e)
       else
         lookup record (U "raw_response") = None /\
         get_none record (U "error")
         = JStr (U "API call failed: " ++ exn_str e))
  /\
  (parse_reply json_loads r = inl e ->
   let cause :=
     (if is_JSONDecodeError e then U "JSON parsing failed: "
      else U "AI analysis failed: ") ++ exn_str e in
   (forall p w a b c rest data,
      stdin w = a :: b :: c :: rest ->
      find_file (files w) p = Some (Readable data) ->
      next_reply w = Reply r ->
      fst (method1_manual_input_with_ai json_loads p w)
      = inr (method1_failed a b c e) /\
      get_none (method1_failed a b c e) (U "error") = JStr cause /\
      lookup (method1_failed a b c e) (U "raw_response") = None)
   /\
   (forall p w data,
      find_file (files w) p = Some (Readable data) ->
      next_reply w = Reply r ->
      fst (method2_ai_followup json_loads py_repr p w)
      = inr (method2_failed e))
   /\
   (forall p w data r1 d answer rest,
      find_file (files w) p = Some (Readable data) ->
      next_reply w = Reply r1 ->
      parse_reply json_loads r1 = inr (JObj d) ->
      stdin w = answer :: rest ->
      oracle w (S (length (calls w))) = Reply r ->
      fst (method2_ai_followup json_loads py_repr p w)
      = inr (method2_failed e))
   /\
   (get_none (method2_failed e) (U "error") = JStr cause /\
    lookup (method2_failed e) (U "raw_response") = None)
   /\
   (forall m1 m2 gt w,
      next_reply w = Reply r ->
      fst (evaluate_accuracy json_loads py_repr m1 m2 gt w)
      = inr (JObj (evaluation_failed e)))
   /\
   (get_none (evaluation_failed e) (U "error")
    = JStr (U "Evaluation failed: " ++ exn_str e) /\
    lookup (evaluation_failed e) (U "raw_response") = None)).
Proof.
  split.
  - intros p w data Hfile Hreply content Hloads.
    pose proof (analyze_hazard_image_eq json_loads p w data Hfile) as Heq.
    rewrite Hreply in Heq. cbv zeta in Heq. fold content in Heq.
    rewrite (decode_and_stamp_raises json_loads r _ _ Hloads) in Heq.
    rewrite Heq.
    destruct (is_JSONDecodeError e); eexists;
      (split; [reflexivity|]); now repeat split.
  - intros Hparse cause. pose proof (reply_dict_raises _ _ Hparse) as Hd.
    split; [|split; [|split; [|split; [|split]]]].
    + intros p w a b c rest data Hin Hfile Hreply.
      rewrite (method1_eq json_loads p w a b c rest data Hin Hfile).
      rewrite Hreply, Hd. split; [reflexivity|].
      unfold method1_failed, cause. now destruct (is_JSONDecodeError e).
    + intros p w data Hfile Hreply.
      pose proof (method2_eq json_loads py_repr p w data Hfile) as Heq.
      cbv zeta in Heq. rewrite Hreply, Hd in Heq. now rewrite Heq.
    + intros p w data r1 d answer rest Hfile Hreply1 Hparse1 Hin Hreply2.
      pose proof (method2_eq json_loads py_repr p w data Hfile) as Heq.
      cbv zeta in Heq.
      rewrite Hreply1, (reply_dict_returns _ _ Hparse1), Hin in Heq.
      rewrite Heq. cbn [fst]. f_equal.
      replace (next_reply _) with (Reply r); [now rewrite Hd|].
      unfold next_reply. cbn [oracle calls log set_stdin].
      rewrite length_app, Nat.add_comm. now rewrite <- Hreply2.
    + unfold method2_failed, cause. now destruct (is_JSONDecodeError e).
    + intros m1 m2 gt w Hreply.
      now rewrite evaluate_accuracy_eq, Hreply, Hparse.
    + now split.
Qed.

(** C4, as the code has it.  A failure inside a model call is turned by
    the site into a dictionary with an ["error"] entry, which it returns
    instead of raising, so the trial goes on: in
    [method1_manual_input_with_ai] and [method2_ai_followup], whatever
    the call raises, whatever the decoding raises, and a reply that
    decodes to something that is not a dictionary; in the comparator,
    whatever the call or the decoding raises; in the single-pass
    assessor, whatever the decoding and the stamping of the reply raise,
    and whatever the call raises but a [JSONDecodeError].
    [method2_ai_followup] and the single-pass assessor set
    ["confidence_level"] to ["error"], the comparator sets ["winner"] to
    ["error"] and both scores to 0, and [method1_manual_input_with_ai]
    falls back on what the user typed. *)
Theorem failures_become_error_records (e : exn) :
  (forall p w a b c rest data,
     stdin w = a :: b :: c :: rest ->
     find_file (files w) p = Some (Readable data) ->
     reply_dict json_loads (next_reply w) = inl e ->
     let record := method1_failed a b c e in
     fst (method1_manual_input_with_ai json_loads p w) = inr record /\
     lookup record (U "error") <> None /\
     get_none record (U "issue")
     = JStr (U "Based on user input: " ++ a) /\
     get_none record (U "location") = JStr b /\
     get_none record (U "note") = JStr c)
  /\
  (forall p w data,
     find_file (files w) p = Some (Readable data) ->
     reply_dict json_loads (next_reply w) = inl e ->
     fst (method2_ai_followup json_loads py_repr p w)
     = inr (method2_failed e))
  /\
  (forall p w data d answer rest,
     find_file (files w) p = Some (Readable data) ->
     reply_dict json_loads (next_reply w) = inr d ->
     stdin w = answer :: rest ->
     reply_dict json_loads (oracle w (S (length (calls w)))) = inl e ->
     fst (method2_ai_followup json_loads py_repr p w)
     = inr (method2_failed e))
  /\
  (lookup (method2_failed e) (U "error") <> None /\
   get_none (method2_failed e) (U "confidence_level") = JStr (U "error"))
  /\
  (forall m1 m2 gt w,
     next_reply w = Fail e \/
     (exists r, next_reply w = Reply r /\ parse_reply json_loads r = inl e)
     ->
     let score := evaluation_failed e in
     fst (evaluate_accuracy json_loads py_repr m1 m2 gt w)
     = inr (JObj score) /\
     get_none score (U "error")
     = JStr (U "Evaluation failed: " ++ exn_str e) /\
     get_none score (U "winner") = JStr (U "error") /\
     get_none score (U "method1_accuracy") = JInt 0 /\
     get_none score (U "method2_accuracy") = JInt 0)
  /\
  (forall p w data,
     find_file (files w) p = Some (Readable data) ->
     (next_reply w = Fail e /\ is_JSONDecodeError e = false) \/
     (exists r, next_reply w = Reply r /\
        HazardDetectionBenchmark.decode_and_stamp json_loads r
          (HazardDetectionBenchmark.clean_markdown (strip (text r)))
        = inl e) ->
     exists record,
       fst (HazardDetectionBenchmark.analyze_hazard_image json_loads p w)
       = inr (JObj record) /\
       lookup record (U "error") <> None /\
       get_none record (U "confidence_level") = JStr (U "error") /\
       get_none record (U "mode") = JStr (U "error")).
Proof.
  split; [|split; [|split; [|split; [|split]]]].
  - intros p w a b c rest data Hin Hfile Hd. cbv zeta.
    rewrite (method1_eq json_loads p w a b c rest data Hin Hfile), Hd.
    split; [reflexivity|]. unfold method1_failed.
    destruct (is_JSONDecodeError e); repeat split; discriminate.
  - intros p w data Hfile Hd.
    pose proof (method2_eq json_loads py_repr p w data Hfile) as Heq.
    cbv zeta in Heq. rewrite Hd in Heq. now rewrite Heq.
  - intros p w data d answer rest Hfile Hd Hin Hd2.
    pose proof (method2_eq json_loads py_repr p w data Hfile) as Heq.
    cbv zeta in Heq. rewrite Hd, Hin in Heq. rewrite Heq. cbn [fst].
    f_equal.
    replace (next_reply _) with (oracle w (S (length (calls w))));
      [now rewrite Hd2|].
    unfold next_reply. cbn [oracle calls log set_stdin].
    now rewrite length_app, Nat.add_comm.
  - unfold method2_failed.
    destruct (is_JSONDecodeError e); split; (discriminate || reflexivity).
  - intros m1 m2 gt w Hfail. cbv zeta.
    rewrite evaluate_accuracy_eq.
    destruct Hfail as [-> |(r & -> & ->)]; now repeat split.
  - intros p w data Hfile Hfail.
    rewrite (analyze_hazard_image_eq json_loads p w data Hfile).
    destruct Hfail as [(-> & ->)|(r & -> & Hs)].
    + eexists. split; [reflexivity|]. repeat split. discriminate.
    + cbv zeta. rewrite Hs. destruct (is_JSONDecodeError e).
      * eexists. split; [reflexivity|]. repeat split. discriminate.
      * eexists. split; [reflexivity|]. repeat split. discriminate.
Qed.

End ErrorHandling.

(** ** The decoder always answers *)

Module DecoderFacts.

Import Decoder.

Lemma skip_ws_le (s : str) : length (skip_ws s) <= length s.
Proof.
  induction s as [|c s IH]; simpl; [lia|].
  destruct (is_ws c); simpl; lia.
Qed.

Lemma span_digits_length (s ds r : str) :
  span_digits s = (ds, r) -> length s = length ds + length r.
Proof.
  revert ds r; induction s as [|c s IH]; intros ds r; simpl.
  - intros [= <- <-]. reflexivity.
  - destruct (is_digit c).
    + destruct (span_digits s) as [ds' r'] eqn:E.
      intros [= <- <-]. simpl. now rewrite (IH _ _ eq_refl).
    + intros [= <- <-]. reflexivity.
Qed.

Ltac crunch IH Hn :=
  repeat match goal with
    | H : inl _ = inr _ |- _ => discriminate H
    | H : inr _ = inr _ |- _ => injection H as <- <-
    | H : match ?x with _ => _ end = inr _ |- _ =>
        lazymatch x with
        | scanstring _ _ _ => fail
        | _ => destruct x
        end
    | H : scanstring _ _ _ = inr _ |- _ =>
        apply IH in H; [|cbn [length] in Hn |- *; lia]
    end.

Lemma scanstring_shorter (n : nat) :
  forall begin s acc v r,
    length s <= n ->
    scanstring begin s acc = inr (v, r) -> length r < length s.
Proof.
  induction n as [|n IH]; intros begin s acc v r Hn H.
  - destruct s; [discriminate|simpl in Hn; lia].
  - destruct s as [|c s]; [discriminate|].
    cbn [scanstring] in H. cbn [length] in Hn.
    crunch IH Hn; cbn [length] in *; try lia.
Qed.

Lemma startswith_skipn (s lit : str) :
  startswith s lit = true -> length (skipn (length lit) s) + length lit
                             = length s.
Proof.
  intros H. destruct (startswith_inv _ _ H) as [t ->].
  rewrite skipn_app, skipn_all, Nat.sub_diag. cbn [skipn app].
  rewrite length_app. lia.
Qed.

Lemma scan_sign_le (s : str) : length (snd (scan_sign s)) <= length s.
Proof.
  destruct s as [|c s]; simpl; [lia|]. destruct (c =? 45)%N; simpl; lia.
Qed.

Lemma scan_int_shorter (s ids r : str) :
  scan_int s = Some (ids, r) -> length r < length s.
Proof.
  destruct s as [|c s]; [discriminate|]. unfold scan_int.
  destruct (c =? 48)%N; [intros [= <- <-]; simpl; lia|].
  destruct (is_digit c) eqn:D; [|discriminate].
  cbn [span_digits]. rewrite D.
  destruct (span_digits s) as [ds r'] eqn:E.
  apply span_digits_length in E. intros [= _ <-]. simpl. lia.
Qed.

Lemma scan_frac_le (s : str) : length (snd (scan_frac s)) <= length s.
Proof.
  destruct s as [|c s]; simpl; [lia|].
  destruct (c =? 46)%N; simpl; [|lia].
  destruct (span_digits s) as [ds r] eqn:E.
  apply span_digits_length in E. destruct ds; simpl in *; lia.
Qed.

Lemma scan_exp_le (s : str) : length (snd (scan_exp s)) <= length s.
Proof.
  destruct s as [|c s]; simpl; [lia|].
  destruct ((c =? 101) || (c =? 69))%N; simpl; [|lia].
  assert (H : forall r1, length r1 <= length s ->
            length (snd match span_digits r1 with
                        | ([], _) => (@None Z, c :: s)
                        | (d :: ds, r') => (Some 0%Z, r')
                        end) <= S (length s)).
  { intros r1 Hr. destruct (span_digits r1) as [ds r'] eqn:E.
    apply span_digits_length in E. destruct ds; simpl in *; lia. }
  destruct s as [|sg s']; simpl.
  - lia.
  - destruct (sg =? 45)%N; [|destruct (sg =? 43)%N].
    + destruct (span_digits s') as [ds r'] eqn:E.
      apply span_digits_length in E. destruct ds; simpl in *; lia.
    + destruct (span_digits s') as [ds r'] eqn:E.
      apply span_digits_length in E. destruct ds; simpl in *; lia.
    + destruct (span_digits (sg :: s')) as [ds r'] eqn:E.
      apply span_digits_length in E. destruct ds; simpl in *; lia.
Qed.

Lemma match_number_shorter (s r : str) (v : json) :
  match_number s = Some (v, r) -> length r < length s.
Proof.
  unfold match_number.
  pose proof (scan_sign_le s) as H1.
  destruct (scan_sign s) as [neg s1]. cbn [snd] in H1.
  destruct (scan_int s1) as [[ids s2]|] eqn:E2; [|discriminate].
  apply scan_int_shorter in E2.
  pose proof (scan_frac_le s2) as H3.
  destruct (scan_frac s2) as [fds s3]. cbn [snd] in H3.
  pose proof (scan_exp_le s3) as H4.
  destruct (scan_exp s3) as [ex s4]. cbn [snd] in H4.
  destruct fds; [destruct ex|]; intros [= _ <-]; lia.
Qed.

Lemma scan_atom_shorter (s r : str) (v : json) :
  scan_atom s = inr (v, r) -> length r < length s.
Proof.
  unfold scan_atom.
  repeat match goal with
    | |- (if startswith s ?lit then _ else _) = _ -> _ =>
        destruct (startswith s lit) eqn:?;
        [ intros [= _ <-];
          match goal with
          | E : startswith _ _ = true |- _ =>
              apply startswith_skipn in E; simpl in E; lia
          end | ]
    end.
  destruct (match_number s) as [[v' r']|] eqn:E.
  - intros [= _ <-]. exact (match_number_shorter _ _ _ E).
  - repeat match goal with
      | |- (if startswith s ?lit then _ else _) = _ -> _ =>
          destruct (startswith s lit) eqn:?;
          [ intros [= _ <-];
            match goal with
            | E : startswith _ _ = true |- _ =>
                apply startswith_skipn in E; simpl in E; lia
            end | ]
      end.
    discriminate.
Qed.

Lemma scanstring_consumes (begin s acc v r : str) :
  scanstring begin s acc = inr (v, r) -> length r < length s.
Proof. apply (scanstring_shorter (length s)). lia. Qed.

(** What a scanner returns is shorter than what it was given. *)
Lemma scan_consumes (fuel : nat) :
  (forall s v r, scan_once fuel s = inr (v, r) -> length r < length s) /\
  (forall s pairs v r,
     scan_members fuel s pairs = inr (v, r) -> length r < length s) /\
  (forall s values v r,
     scan_elements fuel s values = inr (v, r) -> length r < length s).
Proof.
  induction fuel as [|f (IH1 & IH2 & IH3)];
    [repeat split; intros; discriminate|].
  split; [|split].
  - intros s v r H. cbn [scan_once] in H.
    destruct s as [|c s]; [discriminate|]. cbn [length].
    destruct (c =? 34)%N.
    { destruct (scanstring (c :: s) s []) as [e|[k r']] eqn:E;
        [discriminate|].
      injection H as _ <-. apply scanstring_consumes in E. lia. }
    pose proof (skip_ws_le s) as Hs.
    destruct (c =? 123)%N.
    { destruct (skip_ws s) as [|c1 r1]; [discriminate|].
      cbn [length] in Hs.
      destruct (c1 =? 125)%N; [injection H as _ <-; lia|].
      destruct (c1 =? 34)%N; [|discriminate].
      apply IH2 in H. cbn [length] in H. lia. }
    destruct (c =? 91)%N.
    { destruct (skip_ws s) as [|c1 r1].
      - apply IH3 in H. cbn [length] in H. lia.
      - cbn [length] in Hs.
        destruct (c1 =? 93)%N; [injection H as _ <-; lia|].
        apply IH3 in H. cbn [length] in H. lia. }
    apply scan_atom_shorter in H. exact H.
  - intros s pairs v r H. cbn [scan_members] in H.
    destruct (scanstring s (tl s) []) as [e|[key s1]] eqn:E; [discriminate|].
    apply scanstring_consumes in E.
    assert (Ht : length (tl s) <= length s) by (destruct s; simpl; lia).
    pose proof (skip_ws_le s1) as H1.
    destruct (skip_ws s1) as [|c s2]; [discriminate|]. cbn [length] in H1.
    destruct (c =? 58)%N; [|discriminate].
    pose proof (skip_ws_le s2) as H2.
    destruct (scan_once f (skip_ws s2)) as [e|[value s3]] eqn:E3;
      [discriminate|].
    apply IH1 in E3. pose proof (skip_ws_le s3) as H3.
    destruct (skip_ws s3) as [|c1 s4]; [discriminate|]. cbn [length] in H3.
    destruct (c1 =? 125)%N; [injection H as _ <-; lia|].
    destruct (c1 =? 44)%N; [|discriminate].
    pose proof (skip_ws_le s4) as H4.
    destruct (skip_ws s4) as [|c2 s5]; [discriminate|]. cbn [length] in H4.
    destruct (c2 =? 34)%N; [|discriminate].
    apply IH2 in H. cbn [length] in H. lia.
  - intros s values v r H. cbn [scan_elements] in H.
    destruct (scan_once f s) as [e|[value s1]] eqn:E; [discriminate|].
    apply IH1 in E. pose proof (skip_ws_le s1) as H1.
    destruct (skip_ws s1) as [|c s2]; [discriminate|]. cbn [length] in H1.
    destruct (c =? 93)%N; [injection H as _ <-; lia|].
    destruct (c =? 44)%N; [|discriminate].
    pose proof (skip_ws_le s2) as H2.
    apply IH3 in H. lia.
Qed.

Lemma scanstring_answers (n : nat) :
  forall begin s acc,
    length s <= n -> scanstring begin s acc <> inl Recursion.
Proof.
  induction n as [|n IH]; intros begin s acc Hn.
  - destruct s; [discriminate|simpl in Hn; lia].
  - destruct s as [|c s]; [discriminate|].
    cbn [scanstring]. cbn [length] in Hn.
    repeat match goal with
      | |- scanstring _ _ _ <> _ => apply IH; cbn [length] in Hn |- *; lia
      | |- match ?x with _ => _ end <> _ => destruct x
      | |- _ => discriminate
      end.
Qed.

Lemma scan_atom_answers (s : str) : scan_atom s <> inl Recursion.
Proof.
  unfold scan_atom.
  repeat match goal with
    | |- match ?x with _ => _ end <> _ => destruct x
    | |- _ => discriminate
    end.
Qed.

(** With twice the length of the input as fuel, no scanner runs out. *)
Lemma scan_answers (fuel : nat) :
  (forall s, 2 * length s < fuel -> scan_once fuel s <> inl Recursion) /\
  (forall s pairs,
     2 * length s + 2 <= fuel ->
     scan_members fuel s pairs <> inl Recursion) /\
  (forall s values,
     2 * length s + 2 <= fuel ->
     scan_elements fuel s values <> inl Recursion).
Proof.
  induction fuel as [|f (IH1 & IH2 & IH3)];
    [repeat split; intros; lia|].
  destruct (scan_consumes f) as (C1 & C2 & C3).
  split; [|split].
  - intros s Hf. cbn [scan_once].
    destruct s as [|c s]; [discriminate|]. cbn [length] in Hf.
    destruct (c =? 34)%N.
    { pose proof (scanstring_answers (length s) (c :: s) s []
                    (Nat.le_refl _)) as Hs.
      destruct (scanstring (c :: s) s []) as [e|[k r']];
        [congruence|discriminate]. }
    pose proof (skip_ws_le s) as Hs.
    destruct (c =? 123)%N.
    { destruct (skip_ws s) as [|c1 r1]; [discriminate|].
      cbn [length] in Hs.
      destruct (c1 =? 125)%N; [discriminate|].
      destruct (c1 =? 34)%N; [|discriminate].
      apply IH2. cbn [length]. lia. }
    destruct (c =? 91)%N.
    { destruct (skip_ws s) as [|c1 r1].
      - apply IH3. cbn [length]. lia.
      - cbn [length] in Hs.
        destruct (c1 =? 93)%N; [discriminate|].
        apply IH3. cbn [length]. lia. }
    apply scan_atom_answers.
  - intros s pairs Hf. cbn [scan_members].
    pose proof (scanstring_answers (length (tl s)) s (tl s) []
                  (Nat.le_refl _)) as Hk.
    destruct (scanstring s (tl s) []) as [e|[key s1]] eqn:E; [congruence|].
    apply scanstring_consumes in E.
    assert (Ht : length (tl s) <= length s) by (destruct s; simpl; lia).
    pose proof (skip_ws_le s1) as H1.
    destruct (skip_ws s1) as [|c s2]; [discriminate|]. cbn [length] in H1.
    destruct (c =? 58)%N; [|discriminate].
    pose proof (skip_ws_le s2) as H2.
    pose proof (IH1 (skip_ws s2)) as Hv.
    destruct (scan_once f (skip_ws s2)) as [e|[value s3]] eqn:E3.
    { intros [= ->]. apply Hv; [lia|reflexivity]. }
    apply C1 in E3. pose proof (skip_ws_le s3) as H3.
    destruct (skip_ws s3) as [|c1 s4]; [discriminate|]. cbn [length] in H3.
    destruct (c1 =? 125)%N; [discriminate|].
    destruct (c1 =? 44)%N; [|discriminate].
    pose proof (skip_ws_le s4) as H4.
    destruct (skip_ws s4) as [|c2 s5]; [discriminate|]. cbn [length] in H4.
    destruct (c2 =? 34)%N; [|discriminate].
    apply IH2. cbn [length]. lia.
  - intros s values Hf. cbn [scan_elements].
    pose proof (IH1 s) as Hv.
    destruct (scan_once f s) as [e|[value s1]] eqn:E.
    { intros [= ->]. apply Hv; [lia|reflexivity]. }
    apply C1 in E. pose proof (skip_ws_le s1) as H1.
    destruct (skip_ws s1) as [|c s2]; [discriminate|]. cbn [length] in H1.
    destruct (c =? 93)%N; [discriminate|].
    destruct (c =? 44)%N; [|discriminate].
    pose proof (skip_ws_le s2) as H2.
    apply IH3. lia.
Qed.

(** [loads] never runs out of fuel: it returns a value or raises a
    [JSONDecodeError]. *)
Lemma loads_answers (doc : str) :
  (exists v, loads doc = inr v) \/
  (exists msg, loads doc = inl (JSONDecodeError msg)).
Proof.
  unfold loads.
  destruct (startswith doc [65279%N]); [right; eexists; reflexivity|].
  pose proof (proj1 (scan_answers (S (2 * length doc))) (skip_ws doc)) as H.
  pose proof (skip_ws_le doc) as Hl.
  destruct (scan_once (S (2 * length doc)) (skip_ws doc))
    as [[msg rest|]|[obj rest]].
  - right. eexists. reflexivity.
  - destruct H; [lia|reflexivity].
  - destruct (skip_ws rest); [left|right]; eexists; reflexivity.
Qed.

End DecoderFacts.

(** ** Closed examples *)

Module Examples.

Import Example.

(** C1 fails as stated: a reply that declares low confidence and the mode
    ["auto_fill"] comes back as an auto-fill result, and is summarised as
    one. *)
Lemma low_confidence_reply_is_auto_filled :
  exists result w',
    HazardDetectionBenchmark.analyze_hazard_image Decoder.loads photo
      (world [] [Reply (reply_with low_confidence_reply)])
    = (inr result, w') /\
    HazardDetectionBenchmark.assessment_mode result
    = HazardDetectionBenchmark.AutoFill /\
    HazardDetectionBenchmark.field result (U "confidence_level")
    = JStr (U "low") /\
    exists d,
      result = JObj d /\
      HazardDetectionBenchmark._print_summary d
      = inr HazardDetectionBenchmark.AutoFillBlock.
Proof.
  eexists _, _. split; [vm_compute; reflexivity|].
  split; [vm_compute; reflexivity|].
  split; [vm_compute; reflexivity|].
  eexists. split; [reflexivity|vm_compute; reflexivity].
Qed.

(** C2 fails as stated: [method2_ai_followup] answers a reply that is not
    JSON with a dictionary that holds the decoder's message and nothing of
    the reply. *)
Lemma followup_error_record_omits_raw_reply :
  exists record w' msg,
    GeminiHazardBenchmark.method2_ai_followup Decoder.loads no_repr photo
      (world [] [Reply (reply_with prose_reply)])
    = (inr record, w') /\
    Decoder.loads prose_reply = inl (JSONDecodeError msg) /\
    lookup record (U "error")
    = Some (JStr (U "JSON parsing failed: " ++ msg)) /\
    mentions record prose_reply = false.
Proof.
  eexists _, _, _. split; [vm_compute; reflexivity|].
  split; [vm_compute; reflexivity|].
  split; vm_compute; reflexivity.
Qed.

(** C3 fails on the code: a payload with three backticks inside a string
    is valid JSON, yet its fenced reply does not decode at the Gemini
    sites, which cut it at the backticks, and decodes to another record
    in the single-pass assessor, which deletes them. *)
Lemma backticks_in_payload_break_the_fence :
  Decoder.loads backtick_payload
  = inr (JObj [(U "note", JStr (U "a```b"))]) /\
  (exists msg,
     GeminiHazardBenchmark.parse_reply Decoder.loads
       (reply_with (fenced backtick_payload))
     = inl (JSONDecodeError msg)) /\
  Decoder.loads
    (HazardDetectionBenchmark.clean_markdown
       (strip (fenced backtick_payload)))
  = inr (JObj [(U "note", JStr (U "ab"))]).
Proof.
  split; [vm_compute; reflexivity|].
  split; [eexists; vm_compute; reflexivity|vm_compute; reflexivity].
Qed.

(** C4 fails as stated: when its model call fails,
    [method1_manual_input_with_ai] returns a dictionary without any
    ["confidence_level"]. *)
Lemma manual_input_error_record_has_no_confidence_level :
  exists record w',
    GeminiHazardBenchmark.method1_manual_input_with_ai Decoder.loads photo
      (world (firstn 3 trial_lines)
         [Fail (APIError (U "503 Service Unavailable"))])
    = (inr record, w') /\
    lookup record (U "error")
    = Some (JStr (U "AI analysis failed: 503 Service Unavailable")) /\
    lookup record (U "confidence_level") = None.
Proof.
  eexists _, _. split; [vm_compute; reflexivity|].
  split; vm_compute; reflexivity.
Qed.

(** C5 fails on the code: the judge answers with the JSON list
    [[80, 90]], which is no score record.  The comparator returns the
    list as it is, the display of the results raises on it, and the loop
    drops the trial, after all its lines were typed and its four requests
    sent, instead of counting a zero for each strategy. *)
Lemma list_verdict_is_not_counted :
  GeminiHazardBenchmark.parse_reply Decoder.loads
    (reply_with list_score_reply) = inr (JArr [JInt 80; JInt 90]) /\
  exists msg w',
    GeminiHazardBenchmark.run_single_benchmark Decoder.loads no_repr photo 1
      (judged list_score_reply) = (inl (AttributeError msg), w') /\
    GeminiHazardBenchmark.run_trial Decoder.loads no_repr photo 1
      (GeminiHazardBenchmark.mkTally [] [] []) (judged list_score_reply)
    = (GeminiHazardBenchmark.mkTally [] [] [], w') /\
    length (calls w') = 4 /\ stdin w' = [].
Proof.
  split; [vm_compute; reflexivity|].
  eexists _, _. split; [vm_compute; reflexivity|].
  split; [vm_compute; reflexivity|]. split; reflexivity.
Qed.

(** *** The theorems at work on the example worlds *)

Lemma unterminated_fence_witness :
  contains (U "```json") unterminated_reply = true /\
  find unterminated_reply (U "```")
    (find unterminated_reply (U "```json") 0 + 7) = (-1)%Z /\
  GeminiHazardBenchmark.strip_json_fence unterminated_reply
  = removelast plain_payload /\
  exists msg,
    GeminiHazardBenchmark.parse_reply Decoder.loads
      (reply_with unterminated_reply)
    = inl (JSONDecodeError msg).
Proof.
  split; [reflexivity|]. split; [reflexivity|].
  destruct (unterminated_fence_drops_last_character Decoder.loads no_repr
              unterminated_reply eq_refl eq_refl) as (k & Hk & Hs & Hr).
  vm_compute in Hk. injection Hk as <-. split.
  - rewrite Hs. vm_compute. reflexivity.
  - destruct (Hr (reply_with unterminated_reply) eq_refl) as (Hp & _).
    rewrite Hp. eexists. vm_compute. reflexivity.
Defined.

Lemma final_prompt_witness :
  exists d result w' req1 req2,
    GeminiHazardBenchmark.parse_reply Decoder.loads
      (reply_with followup_reply) = inr (JObj d) /\
    lookup d (U "follow_up_question") = Some (JStr question) /\
    GeminiHazardBenchmark.method2_ai_followup Decoder.loads no_repr photo
      (world [scripted_answer]
         [Reply (reply_with followup_reply);
          Reply (reply_with assessment_reply)])
    = (inr result, w') /\
    calls w' = [req1; req2] /\
    req_parts req2
    = [GeminiHazardBenchmark.final_prompt no_repr d scripted_answer] /\
    occurs_in question
      (GeminiHazardBenchmark.final_prompt no_repr d scripted_answer) /\
    occurs_in scripted_answer
      (GeminiHazardBenchmark.final_prompt no_repr d scripted_answer).
Proof.
  exists followup_dict.
  assert (Hp : GeminiHazardBenchmark.parse_reply Decoder.loads
                 (reply_with followup_reply) = inr (JObj followup_dict))
    by (vm_compute; reflexivity).
  assert (Hq : lookup followup_dict (U "follow_up_question")
               = Some (JStr question))
    by reflexivity.
  destruct (final_prompt_carries_question_and_answer Decoder.loads no_repr
              photo
              (world [scripted_answer]
                 [Reply (reply_with followup_reply);
                  Reply (reply_with assessment_reply)])
              image (reply_with followup_reply) _ scripted_answer []
              eq_refl eq_refl Hp eq_refl)
    as (result & w' & req1 & req2 & Hrun & Hcalls & Hparts & _ & Ha & Hall).
  exists result, w', req1, req2.
  repeat split; try assumption. exact (Hall question Hq).
Defined.

Lemma comparator_failure_witness :
  exists t w',
    GeminiHazardBenchmark.run_trial Decoder.loads no_repr photo 1
      (GeminiHazardBenchmark.mkTally [] [] []) judge_down = (t, w') /\
    length (GeminiHazardBenchmark.results t) = 1 /\
    GeminiHazardBenchmark.method1_scores t = [JInt 0] /\
    GeminiHazardBenchmark.method2_scores t = [JInt 0].
Proof.
  edestruct (comparator_failure_counts_as_zero Decoder.loads no_repr photo 1
               (GeminiHazardBenchmark.mkTally [] [] []) judge_down)
    as (e & _ & _ & _ & _ & Hrun).
  - reflexivity.
  - vm_compute. reflexivity.
  - vm_compute. reflexivity.
  - vm_compute. reflexivity.
  - left. eexists. vm_compute. reflexivity.
  - eexists _, _. split; [exact Hrun|]. repeat split.
Defined.

Lemma missing_image_witness :
  find_file (files four_good_trials) missing_photo = None /\
  exists report w',
    GeminiHazardBenchmark.run_full_benchmark Decoder.loads no_repr
      five_paths four_good_trials = (inr report, w') /\
    GeminiHazardBenchmark.total_tests
      (GeminiHazardBenchmark.benchmark_summary report) = 4.
Proof.
  split; [reflexivity|].
  assert (Hrun : exists report w',
            GeminiHazardBenchmark.run_full_benchmark Decoder.loads no_repr
              five_paths four_good_trials = (inr report, w'))
    by (eexists _, _; vm_compute; reflexivity).
  destruct Hrun as (report & w' & Hrun). exists report, w'.
  split; [exact Hrun|].
  destruct (missing_image_skips_one_trial Decoder.loads no_repr
              [photo; photo] [photo; photo] missing_photo four_good_trials
              w' report eq_refl Hrun) as (_ & _ & _ & _ & _ & _ & Hiff).
  apply Hiff. split; vm_compute; reflexivity.
Defined.

Lemma run_means_witness :
  exists report w',
    GeminiHazardBenchmark.run_full_benchmark Decoder.loads no_repr
      five_paths four_good_trials = (inr report, w') /\
    GeminiHazardBenchmark.total_tests
      (GeminiHazardBenchmark.benchmark_summary report) = 4 /\
    GeminiHazardBenchmark.method1_average
      (GeminiHazardBenchmark.benchmark_summary report) = PFloat (Fin 80) /\
    GeminiHazardBenchmark.method2_average
      (GeminiHazardBenchmark.benchmark_summary report) = PFloat (Fin 90) /\
    GeminiHazardBenchmark.winner
      (GeminiHazardBenchmark.benchmark_summary report) = U "method2".
Proof.
  assert (Hrun : exists report w',
            GeminiHazardBenchmark.run_full_benchmark Decoder.loads no_repr
              five_paths four_good_trials = (inr report, w') /\
            GeminiHazardBenchmark.summary_method1_scores
              (GeminiHazardBenchmark.benchmark_summary report)
            = map JInt [80; 80; 80; 80]%Z /\
            GeminiHazardBenchmark.summary_method2_scores
              (GeminiHazardBenchmark.benchmark_summary report)
            = map JInt [90; 90; 90; 90]%Z)
    by (eexists _, _; vm_compute; repeat split; reflexivity).
  destruct Hrun as (report & w' & Hrun & S1 & S2). exists report, w'.
  split; [exact Hrun|].
  destruct (proj1 (aggregator_means_and_winner Decoder.loads no_repr)
              _ _ _ _ Hrun)
    as (_ & _ & _ & L1 & _ & _ & _ & _ & Hmeans).
  destruct (Hmeans _ _ S1 S2) as (M1 & M2 & _ & W2 & _).
  - repeat constructor; unfold percentage; lia.
  - repeat constructor; unfold percentage; lia.
  - split; [now rewrite <- L1, S1|].
    split; [rewrite M1; vm_compute; reflexivity|].
    split; [rewrite M2; vm_compute; reflexivity|].
    apply W2. vm_compute. reflexivity.
Defined.

Lemma four_paths_witness :
  length [photo; photo; photo; photo] <> 5 /\
  GeminiHazardBenchmark.run_full_benchmark Decoder.loads no_repr
    [photo; photo; photo; photo] four_good_trials
  = (inl (ValueError
            (U "Please provide exactly 5 image paths for the benchmark")),
     four_good_trials).
Proof.
  assert (H : length [photo; photo; photo; photo] <> 5) by (simpl; lia).
  split; [exact H|].
  exact (proj1 (full_benchmark_requires_five_paths Decoder.loads no_repr
                  _ four_good_trials) H).
Defined.

Lemma fenced_plain_payload_witness :
  contains (U "```") plain_payload = false /\
  GeminiHazardBenchmark.parse_reply Decoder.loads
    (reply_with (fenced plain_payload))
  = Decoder.loads plain_payload.
Proof.
  split; [reflexivity|].
  exact (proj2 (proj2 (proj2
           (fenced_and_bare_replies_decode_alike Decoder.loads
              plain_payload eq_refl)))
           eq_refl (reply_with (fenced plain_payload)) eq_refl).
Defined.

Lemma declared_mode_witness :
  find_file
    (files (world [] [Reply (reply_with low_confidence_reply)])) photo
  = Some (Readable image) /\
  exists result,
    fst (HazardDetectionBenchmark.analyze_hazard_image Decoder.loads photo
           (world [] [Reply (reply_with low_confidence_reply)]))
    = inr result /\
    HazardDetectionBenchmark.field result (U "mode")
    = JStr (U "auto_fill").
Proof.
  split; [reflexivity|].
  destruct (assessor_reports_declared_mode Decoder.loads photo
              (world [] [Reply (reply_with low_confidence_reply)]) image
              eq_refl) as (result & Hrun & _ & _ & Hfields).
  { intros msg H. vm_compute in H. discriminate. }
  exists result. rewrite Hrun. split; [reflexivity|].
  vm_compute in Hfields. exact (proj1 Hfields).
Defined.

Lemma raw_response_witness :
  exists record,
    fst (HazardDetectionBenchmark.analyze_hazard_image Decoder.loads photo
           (world [] [Reply (reply_with prose_reply)]))
    = inr (JObj record) /\
    lookup record (U "raw_response") = Some (JStr prose_reply).
Proof.
  destruct (proj1 (undecodable_reply_gives_error_record Decoder.loads
                     no_repr (reply_with prose_reply)
                     (JSONDecodeError
                        (U "Expecting value: line 1 column 1 (char 0)")))
              photo (world [] [Reply (reply_with prose_reply)]) image
              eq_refl eq_refl eq_refl)
    as (record & Hrun & _ & _ & Hraw & _).
  exists record. split; [exact Hrun|exact Hraw].
Defined.

Lemma dropped_connection_witness :
  reply_dict Decoder.loads (next_reply (world [] []))
  = inl (APIError (U "connection reset")) /\
  fst (GeminiHazardBenchmark.method2_ai_followup Decoder.loads no_repr photo
         (world [] []))
  = inr (GeminiHazardBenchmark.method2_failed
           (APIError (U "connection reset"))).
Proof.
  split; [reflexivity|].
  exact (proj1 (proj2 (failures_become_error_records Decoder.loads no_repr
                         (APIError (U "connection reset"))))
           photo (world [] []) image eq_refl eq_refl).
Defined.

End Examples.

(** * What a run reads and sends *)

Lemma within_refl (l c : nat) (w : World) : within l c w w.
Proof.
  repeat split; [exists []|exists []]; simpl.
  - split; [reflexivity|lia].
  - split; [now rewrite app_nil_r|lia].
Qed.

Lemma within_trans (l1 c1 l2 c2 : nat) (w w1 w2 : World) :
  within l1 c1 w w1 -> within l2 c2 w1 w2 ->
  within (l1 + l2) (c1 + c2) w w2.
Proof.
  intros (Hf1 & Ho1 & (u1 & Hu1 & Hl1) & (s1 & Hs1 & Hc1))
         (Hf2 & Ho2 & (u2 & Hu2 & Hl2) & (s2 & Hs2 & Hc2)).
  repeat split; try congruence.
  - exists (u1 ++ u2). rewrite Hu1, Hu2, app_assoc, length_app.
    split; [reflexivity|lia].
  - exists (s1 ++ s2). rewrite Hs2, Hs1, app_assoc, length_app.
    split; [reflexivity|lia].
Qed.

Lemma within_weaken (l c l' c' : nat) (w w' : World) :
  within l c w w' -> l <= l' -> c <= c' -> within l' c' w w'.
Proof.
  intros (Hf & Ho & (u & Hu & Hl) & (s & Hs & Hc)) Hl' Hc'.
  repeat split; try assumption.
  - exists u. split; [assumption|lia].
  - exists s. split; [assumption|lia].
Qed.

Lemma costs_ret {A} (a : A) (l c : nat) : costs (ret a) l c.
Proof. intros w. apply within_refl. Qed.

Lemma costs_raise {A} (e : exn) (l c : nat) : costs (@raise A e) l c.
Proof. intros w. apply within_refl. Qed.

Lemma costs_lift {A} (r : exn + A) (l c : nat) : costs (lift r) l c.
Proof. intros w. apply within_refl. Qed.

Lemma costs_path_exists (path : str) (l c : nat) :
  costs (path_exists path) l c.
Proof. intros w. apply within_refl. Qed.

Lemma costs_read_file (path : str) (l c : nat) : costs (read_file path) l c.
Proof.
  intros w. unfold read_file.
  destruct (find_file (files w) path) as [[data|msg]|]; apply within_refl.
Qed.

Lemma costs_input (l c : nat) : costs input (S l) c.
Proof.
  intros w. unfold input. destruct (stdin w) as [|line rest] eqn:E.
  - apply within_refl.
  - repeat split; simpl.
    + exists [line]. split; [exact E|simpl; lia].
    + exists []. split; [now rewrite app_nil_r|simpl; lia].
Qed.

Lemma costs_call_model (req : request) (l c : nat) :
  costs (call_model req) l (S c).
Proof.
  intros w. unfold call_model.
  assert (within l (S c) w (log req w)) as H.
  { repeat split; simpl.
    - exists []. split; [reflexivity|simpl; lia].
    - exists [req]. split; [reflexivity|simpl; lia]. }
  now destruct (next_reply w).
Qed.

Lemma costs_bind {A B} (l1 c1 l2 c2 : nat) (m : M A) (k : A -> M B) :
  costs m l1 c1 -> (forall a, costs (k a) l2 c2) ->
  costs (bind m k) (l1 + l2) (c1 + c2).
Proof.
  intros Hm Hk w. unfold bind. specialize (Hm w).
  destruct (m w) as [[e|a] w1]; simpl in Hm |- *.
  - eapply within_weaken; [exact Hm|lia|lia].
  - eapply within_trans; [exact Hm|apply Hk].
Qed.

Lemma costs_try_except {A} (l1 c1 l2 c2 : nat) (body : M A)
    (handler : exn -> M A) :
  costs body l1 c1 -> (forall e, costs (handler e) l2 c2) ->
  costs (try_except body handler) (l1 + l2) (c1 + c2).
Proof.
  intros Hb Hh w. unfold try_except. specialize (Hb w).
  destruct (body w) as [[e|a] w1]; simpl in Hb |- *.
  - eapply within_trans; [exact Hb|apply Hh].
  - eapply within_weaken; [exact Hb|lia|lia].
Qed.

(** The budget of a bind whose first half is a line read, a model call,
    or a step that does neither. *)
Lemma costs_after_input {A} (l c : nat) (k : str -> M A) :
  (forall line, costs (k line) l c) -> costs (bind input k) (S l) c.
Proof. intros H. apply (costs_bind 1 0 l c); [apply costs_input|exact H]. Qed.

Lemma costs_after_call {A} (l c : nat) (req : request)
    (k : response -> M A) :
  (forall r, costs (k r) l c) -> costs (bind (call_model req) k) l (S c).
Proof.
  intros H. apply (costs_bind 0 1 l c); [apply costs_call_model|exact H].
Qed.

Lemma costs_after_free {A B} (l c : nat) (m : M A) (k : A -> M B) :
  costs m 0 0 -> (forall a, costs (k a) l c) -> costs (bind m k) l c.
Proof. intros Hm H. apply (costs_bind 0 0 l c); assumption. Qed.

(** A [try] whose handler only builds the value it returns. *)
Lemma costs_try_free {A} (l c : nat) (body : M A) (handler : exn -> M A) :
  costs body l c -> (forall e, costs (handler e) 0 0) ->
  costs (try_except body handler) l c.
Proof.
  intros Hb Hh w. generalize (costs_try_except l c 0 0 body handler Hb Hh w).
  now rewrite !Nat.add_0_r.
Qed.

Ltac cost :=
  repeat first
    [ apply costs_ret | apply costs_raise | apply costs_lift
    | apply costs_path_exists | apply costs_read_file
    | apply costs_after_input; intro
    | apply costs_after_call; intro
    | apply costs_try_free; [|intro]
    | apply costs_after_free; [|intro] ].

Section GeminiCosts.

Import GeminiHazardBenchmark.

Variable json_loads : str -> exn + json.
Variable py_repr : json -> str.

Lemma costs_as_dict (v : json) (l c : nat) : costs (as_dict v) l c.
Proof. destruct v; cost. Qed.

Lemma costs_method1 (p : str) :
  costs (method1_manual_input_with_ai json_loads p) 3 1.
Proof.
  unfold method1_manual_input_with_ai, encode_image. cost.
  apply costs_as_dict.
Qed.

Lemma costs_method2 (p : str) :
  costs (method2_ai_followup json_loads py_repr p) 1 2.
Proof.
  unfold method2_ai_followup, encode_image. cost.
  - apply costs_as_dict.
  - apply costs_as_dict.
Qed.

Lemma costs_ground_truth : costs get_ground_truth 3 0.
Proof. unfold get_ground_truth. cost. Qed.

Lemma costs_evaluate (m1 m2 gt : dict) :
  costs (evaluate_accuracy json_loads py_repr m1 m2 gt) 0 1.
Proof. unfold evaluate_accuracy. cost. Qed.

Lemma costs_run_single (p : str) (i : Z) :
  costs (run_single_benchmark json_loads py_repr p i) 7 4.
Proof.
  unfold run_single_benchmark.
  apply costs_after_free; [cost|intros found].
  destruct (negb found); [cost|].
  apply (costs_bind 3 1 4 3); [apply costs_method1|intros m1].
  apply (costs_bind 1 2 3 1); [apply costs_method2|intros m2].
  apply (costs_bind 3 0 0 1); [apply costs_ground_truth|intros gt].
  apply (costs_bind 0 1 0 0); [apply costs_evaluate|intros ev].
  unfold _display_results. destruct ev; cost.
Qed.

Lemma run_trial_within (p : str) (i : Z) (t : tally) (w : World) :
  within 7 4 w (snd (run_trial json_loads py_repr p i t w)).
Proof.
  unfold run_trial. pose proof (costs_run_single p i w) as H.
  destruct (run_single_benchmark json_loads py_repr p i w)
    as [[e|result] w1]; [exact H|].
  now destruct (get_none result (U "evaluation")).
Qed.

Lemma run_trials_within (l : list str) (i : Z) (t : tally) (w : World) :
  within (7 * length l) (4 * length l) w
    (snd (run_trials json_loads py_repr l i t w)).
Proof.
  revert i t w; induction l as [|p l IH]; intros i t w.
  - apply within_refl.
  - cbn [run_trials]. pose proof (run_trial_within p i t w) as H.
    destruct (run_trial json_loads py_repr p i t w) as [t1 w1].
    eapply within_weaken.
    + eapply within_trans; [exact H|apply IH].
    + simpl length. lia.
    + simpl length. lia.
Qed.

(** X1.  A full benchmark reads at most 35 lines from the console and
    sends at most 20 requests to the model, four per trial at most (no
    call is ever repeated); what it leaves of the console is a suffix of
    what it found, the log of requests only grows, and the files are
    untouched.  This holds whether the run returns or raises. *)
Theorem full_benchmark_sends_at_most_twenty_requests (paths : list str) :
  costs (run_full_benchmark json_loads py_repr paths) 35 20.
Proof.
  intros w. unfold run_full_benchmark.
  destruct (length paths =? 5) eqn:E; cbn [negb].
  - apply Nat.eqb_eq in E.
    pose proof (run_trials_within paths 1 (mkTally [] [] []) w) as H.
    destruct (run_trials json_loads py_repr paths 1 (mkTally [] [] []) w)
      as [t w1].
    rewrite E in H. exact H.
  - apply within_refl.
Qed.

End GeminiCosts.

(** * The lists of a run *)

Lemma sum_from_not_number (acc : pynum) (l : list json) (v : json) :
  In v l -> is_number v = false -> exists e, sum_from acc l = inl e.
Proof.
  revert acc; induction l as [|x l IH]; intros acc; simpl; [easy|].
  intros [->|Hin] Hv.
  - unfold is_number in Hv. destruct (as_number v); [discriminate|eauto].
  - destruct (as_number x) as [n|]; [|eauto].
    destruct (num_add acc n) as [e|acc']; [eauto|now apply IH].
Qed.

Section GeminiResults.

Import GeminiHazardBenchmark.

Variable json_loads : str -> exn + json.
Variable py_repr : json -> str.

(** What the loop adds to its three lists: the records of the trials that
    returned and, for each, the two scores it holds. *)
Lemma run_trials_scores (l : list str) (i : Z) (t : tally) (w : World) :
  exists new,
    let t' := fst (run_trials json_loads py_repr l i t w) in
    results t' = results t ++ new /\
    method1_scores t'
    = method1_scores t ++ map (recorded_score (U "method1_accuracy")) new /\
    method2_scores t'
    = method2_scores t ++ map (recorded_score (U "method2_accuracy")) new /\
    numbered i l new.
Proof.
  revert i t w; induction l as [|p l IH]; intros i t w.
  - exists []. cbn. rewrite !app_nil_r. repeat split. constructor.
  - cbn [run_trials].
    pose proof (run_trial_cases json_loads py_repr p i t w) as H.
    pose proof (run_single_returns json_loads py_repr p i w) as Hret.
    destruct (run_single_benchmark json_loads py_repr p i w)
      as [[e|result] w1].
    + rewrite H. destruct (IH (i + 1)%Z t w1) as (new & Hnew).
      exists new. cbv zeta in Hnew |- *.
      destruct Hnew as (H1 & H2 & H3 & H4).
      repeat split; try assumption. now constructor.
    + destruct H as (ev & Hev & ->).
      destruct (Hret w1 result eq_refl) as (m1 & m2 & gt & ev' & Hrec).
      destruct (IH (i + 1)%Z
        (mkTally (results t ++ [result])
           (method1_scores t ++ [get ev (U "method1_accuracy") (JInt 0)])
           (method2_scores t ++ [get ev (U "method2_accuracy") (JInt 0)]))
        w1) as (new & Hnew).
      exists (result :: new). cbv zeta in Hnew |- *.
      cbn [results method1_scores method2_scores] in Hnew.
      destruct Hnew as (H1 & H2 & H3 & H4).
      assert (Hscore : forall key,
                recorded_score key result = get ev key (JInt 0))
        by (intros key; unfold recorded_score; now rewrite Hev).
      rewrite H1, H2, H3, <- !app_assoc. cbn [app map].
      rewrite !Hscore.
      repeat split. constructor; [now rewrite Hrec|now rewrite Hrec|exact H4].
Qed.

(** X2.  In the report of a full benchmark the two score lists of the
    summary are read off the detailed results, record by record and in
    their order: each score is the value the record's evaluation holds
    under ["method1_accuracy"] (or ["method2_accuracy"]), whatever that
    value is, and 0 where the evaluation has no such key. *)
Theorem summary_scores_are_the_recorded_scores
    (paths : list str) (w w' : World) (report : BenchmarkReport) :
  run_full_benchmark json_loads py_repr paths w = (inr report, w') ->
  summary_method1_scores (benchmark_summary report)
  = map (recorded_score (U "method1_accuracy")) (detailed_results report) /\
  summary_method2_scores (benchmark_summary report)
  = map (recorded_score (U "method2_accuracy")) (detailed_results report).
Proof.
  intros Hrun.
  destruct (run_full_benchmark_returns _ _ _ _ _ _ Hrun)
    as (_ & t & Ht & Hs).
  destruct (summarize_returns _ _ Hs) as (a1 & a2 & _ & _ & ->).
  destruct (run_trials_scores paths 1 (mkTally [] [] []) w)
    as (new & Hnew).
  rewrite Ht in Hnew. cbv zeta in Hnew. cbn [fst] in Hnew.
  destruct Hnew as (H1 & H2 & H3 & _).
  cbn [benchmark_summary detailed_results summary_method1_scores
       summary_method2_scores].
  now rewrite H1, H2, H3.
Qed.

(** X3.  The detailed results of a full benchmark follow the order of the
    paths given; each record holds its own path and the 1-based position
    of that path among the five, so a trial that was skipped leaves a gap
    in the test numbers instead of renumbering the trials after it. *)
Theorem detailed_results_keep_their_test_numbers
    (paths : list str) (w w' : World) (report : BenchmarkReport) :
  run_full_benchmark json_loads py_repr paths w = (inr report, w') ->
  numbered 1 paths (detailed_results report).
Proof.
  intros Hrun.
  destruct (run_full_benchmark_returns _ _ _ _ _ _ Hrun)
    as (_ & t & Ht & Hs).
  destruct (summarize_returns _ _ Hs) as (a1 & a2 & _ & _ & ->).
  destruct (run_trials_scores paths 1 (mkTally [] [] []) w)
    as (new & Hnew).
  rewrite Ht in Hnew. cbv zeta in Hnew. cbn [fst] in Hnew.
  destruct Hnew as (H1 & _ & _ & H4).
  cbn [detailed_results]. now rewrite H1.
Qed.

Lemma average_not_number (l : list json) (v : json) :
  In v l -> is_number v = false ->
  exists e, GeminiHazardBenchmark.average l = inl e.
Proof.
  intros Hin Hv. destruct (sum_from_not_number (PInt 0) l v Hin Hv) as [e He].
  unfold average, sum. destruct l as [|x l]; [easy|].
  rewrite He. eauto.
Qed.

(** X4.  The scores are summed as the judge gave them.  If one completed
    trial of a five-path run holds a score that is not a number (a string
    such as ["85%"], [null], a list), the full benchmark raises once all
    five trials have run, and returns no report.  What it raises is the
    [TypeError] of the sum, or the [OverflowError] of an integer too
    large for a float when the arithmetic meets one first. *)
Theorem non_numeric_score_aborts_the_benchmark
    (paths : list str) (w : World) (r : dict) (key : str) :
  length paths = 5 ->
  let run := run_trials json_loads py_repr paths 1 (mkTally [] [] []) w in
  In r (results (fst run)) ->
  key = U "method1_accuracy" \/ key = U "method2_accuracy" ->
  is_number (recorded_score key r) = false ->
  exists e msg,
    run_full_benchmark json_loads py_repr paths w = (inl e, snd run) /\
    (e = TypeError msg \/ e = OverflowError msg).
Proof.
  intros Hlen run Hin Hkey Hbad. unfold run_full_benchmark.
  rewrite Hlen. cbn [Nat.eqb negb].
  destruct (run_trials_scores paths 1 (mkTally [] [] []) w) as (new & Hnew).
  fold run in Hnew |- *. cbv zeta in Hnew.
  destruct run as [t w']. cbn [fst snd results method1_scores
                                method2_scores app] in *.
  destruct Hnew as (H1 & H2 & H3 & _). subst new.
  assert (Hsum : exists e, summarize t = inl e).
  { unfold summarize. destruct Hkey as [-> | ->].
    - destruct (average_not_number (method1_scores t) _
                  (eq_ind_r (fun l => In _ l) (in_map _ _ _ Hin) H2) Hbad)
        as [e ->]. eauto.
    - destruct (average (method1_scores t)) as [e|a1]; [eauto|].
      destruct (average_not_number (method2_scores t) _
                  (eq_ind_r (fun l => In _ l) (in_map _ _ _ Hin) H3) Hbad)
        as [e ->]. eauto. }
  destruct Hsum as [e Hsum]. rewrite Hsum.
  assert (Hkind : exists msg, e = TypeError msg \/ e = OverflowError msg).
  { unfold summarize in Hsum.
    destruct (average (method1_scores t)) as [e1|a1] eqn:E1.
    - injection Hsum as <-. exact (average_raises _ _ E1).
    - destruct (average (method2_scores t)) as [e2|a2] eqn:E2;
        [|discriminate].
      injection Hsum as <-. exact (average_raises _ _ E2). }
  destruct Hkind as [msg Hkind]. now exists e, msg.
Qed.

(** X5.  A verdict that decodes, but not to a dictionary, is returned by
    the comparator as it is; the display that follows raises an
    [AttributeError] on it, so the trial is discarded: the three lists of
    the loop stay as they were, although all the lines of the trial were
    typed and its requests sent. *)
Theorem verdict_that_is_no_dictionary_discards_the_trial
    (p : str) (i : Z) (t : tally) (w w1 w2 w3 : World) (m1 m2 gt : dict)
    (r : response) (v : json) :
  fst (path_exists p w) = inr true ->
  method1_manual_input_with_ai json_loads p w = (inr m1, w1) ->
  method2_ai_followup json_loads py_repr p w1 = (inr m2, w2) ->
  get_ground_truth w2 = (inr gt, w3) ->
  next_reply w3 = Reply r ->
  parse_reply json_loads r = inr v ->
  (forall d, v <> JObj d) ->
  let w4 := log (mkRequest [evaluation_prompt py_repr m1 m2 gt] None) w3 in
  evaluate_accuracy json_loads py_repr m1 m2 gt w3 = (inr v, w4) /\
  run_single_benchmark json_loads py_repr p i w
  = (inl (no_attribute v (U "get")), w4) /\
  run_trial json_loads py_repr p i t w = (t, w4).
Proof.
  intros Hfile H1 H2 Hgt Hreply Hparse Hv w4.
  assert (Heval : evaluate_accuracy json_loads py_repr m1 m2 gt w3
                  = (inr v, w4))
    by (now rewrite evaluate_accuracy_eq, Hreply, Hparse).
  assert (Hsingle : run_single_benchmark json_loads py_repr p i w
                    = (inl (no_attribute v (U "get")), w4)).
  { unfold run_single_benchmark.
    unfold bind at 1. unfold path_exists in *. cbn [fst] in Hfile.
    destruct (find_file (files w) p) as [f|]; [|discriminate].
    cbn [negb].
    rewrite (bind_inr _ _ _ _ _ H1), (bind_inr _ _ _ _ _ H2),
      (bind_inr _ _ _ _ _ Hgt), (bind_inr _ _ _ _ _ Heval).
    unfold bind, _display_results, raise.
    destruct v; try reflexivity. now destruct (Hv d). }
  repeat split; try assumption.
  unfold run_trial. now rewrite Hsingle.
Qed.

(** X6.  The final summary indexes the second score list by the positions
    of the first.  On the lists the loop of a run has built it never goes
    out of range, whatever the trials did: the two lists have the same
    length. *)
Theorem final_summary_display_never_fails
    (paths : list str) (i : Z) (w : World) (avg1 avg2 : pynum) :
  let t := fst (run_trials json_loads py_repr paths i (mkTally [] [] []) w) in
  _display_final_summary avg1 avg2 (method1_scores t) (method2_scores t)
  = Displayed.
Proof.
  cbv zeta. unfold _display_final_summary.
  destruct (run_trials_count json_loads py_repr paths i (mkTally [] [] []) w)
    as (_ & H1 & H2).
  rewrite H1, H2. cbn [method1_scores method2_scores length].
  now rewrite Nat.ltb_irrefl.
Qed.

End GeminiResults.

(** * Files written *)

Lemma eqb_refl (a : str) : PyStr.eqb a a = true.
Proof. now apply eqb_eq. Qed.

Lemma eqb_neq (a b : str) : a <> b -> PyStr.eqb a b = false.
Proof.
  intros H. destruct (PyStr.eqb a b) eqn:E; [|reflexivity].
  now apply eqb_eq in E.
Qed.

(** Writing to a path that can be opened: the path then holds what was
    written, and every other path is as before. *)
Lemma store_file_ok (fs : list (str * file)) (path : str) (data : list N) :
  (forall msg, find_file fs path <> Some (Unreadable msg)) ->
  exists fs',
    store_file fs path data = inr fs' /\
    find_file fs' path = Some (Readable data) /\
    forall q, q <> path -> find_file fs' q = find_file fs q.
Proof.
  induction fs as [|[p f] fs IH]; simpl; intros Hok.
  - eexists. split; [reflexivity|]. simpl. rewrite eqb_refl.
    split; [reflexivity|]. intros q Hq. now rewrite eqb_neq.
  - destruct (PyStr.eqb path p) eqn:E.
    + apply eqb_eq in E. subst p.
      destruct f as [old|msg]; [|now destruct (Hok msg)].
      eexists. split; [reflexivity|]. simpl. rewrite eqb_refl.
      split; [reflexivity|]. intros q Hq. now rewrite eqb_neq.
    + destruct (IH Hok) as (fs' & -> & Hsame & Hother).
      eexists. split; [reflexivity|]. simpl. rewrite E.
      split; [exact Hsame|]. intros q Hq.
      destruct (PyStr.eqb q p); [reflexivity|now apply Hother].
Qed.

Lemma store_file_raises (fs : list (str * file)) (path : str)
    (data : list N) (e : exn) :
  store_file fs path data = inl e ->
  exists msg, e = OSError msg /\ find_file fs path = Some (Unreadable msg).
Proof.
  induction fs as [|[p f] fs IH]; simpl; [discriminate|].
  destruct (PyStr.eqb path p).
  - destruct f as [old|msg]; [discriminate|]. intros [= <-]. eauto.
  - destruct (store_file fs path data) as [e'|fs']; [|discriminate].
    intros [= <-]. now apply IH.
Qed.

Lemma write_file_ok (path text : str) (w : World) :
  (forall msg, find_file (files w) path <> Some (Unreadable msg)) ->
  exists w',
    write_file path text w = (inr tt, w') /\
    find_file (files w') path = Some (Readable text) /\
    (forall q, q <> path -> find_file (files w') q = find_file (files w) q) /\
    stdin w' = stdin w /\ calls w' = calls w /\ oracle w' = oracle w.
Proof.
  intros Hok. unfold write_file.
  destruct (store_file_ok (files w) path text Hok) as (fs' & -> & H1 & H2).
  eexists. split; [reflexivity|]. now repeat split.
Qed.

Lemma write_file_raises (path text : str) (w w' : World) (e : exn) :
  write_file path text w = (inl e, w') -> w' = w.
Proof.
  unfold write_file. destruct (store_file (files w) path text).
  - now intros [= _ <-].
  - discriminate.
Qed.

Lemma lookup_setitem_same (d : dict) (k : str) (v : json) :
  lookup (setitem d k v) k = Some v.
Proof.
  induction d as [|[k' v'] d IH]; simpl.
  - now rewrite eqb_refl.
  - destruct (PyStr.eqb k k') eqn:E; simpl; rewrite E; [reflexivity|exact IH].
Qed.

(** * The single-pass benchmark and its script *)

Section SinglePassRuns.

Import HazardDetectionBenchmark.

Variable json_loads : str -> exn + json.
Variable json_dumps : json -> str.

(** X7.  The three entries the assessor stamps on a decoded reply win
    over entries of the same name in the reply: the result holds the
    response's own creation time, model name and token counts under
    ["timestamp"], ["model"] and ["usage"], and every other key as the
    reply had it. *)
Theorem stamps_replace_reply_entries
    (p : str) (w : World) (data : list N) (r : response) (d : dict) :
  find_file (files w) p = Some (Readable data) ->
  next_reply w = Reply r ->
  json_loads (clean_markdown (strip (text r))) = inr (JObj d) ->
  exists d',
    analyze_hazard_image json_loads p w
    = (inr (JObj d'), log (assessment_request data) w) /\
    lookup d' (U "timestamp") = Some (JInt (created r)) /\
    lookup d' (U "model") = Some (JStr (model r)) /\
    lookup d' (U "usage")
    = Some (JObj [(U "prompt_tokens", JInt (prompt_tokens r));
                  (U "completion_tokens", JInt (completion_tokens r));
                  (U "total_tokens", JInt (total_tokens r))]) /\
    forall k, k <> U "timestamp" -> k <> U "model" -> k <> U "usage" ->
      lookup d' k = lookup d k.
Proof.
  intros Hfile Hreply Hloads.
  rewrite (analyze_hazard_image_eq json_loads p w data Hfile), Hreply.
  cbv zeta. unfold decode_and_stamp. rewrite Hloads. cbn [setitem_json].
  eexists. split; [reflexivity|].
  assert (Hts : U "timestamp" <> U "model" /\ U "timestamp" <> U "usage"
                /\ U "model" <> U "usage")
    by (repeat split; intros H; cbv in H; discriminate).
  destruct Hts as (H1 & H2 & H3).
  repeat split.
  - now rewrite (lookup_setitem_other _ _ _ _ H2),
      (lookup_setitem_other _ _ _ _ H1), lookup_setitem_same.
  - now rewrite (lookup_setitem_other _ _ _ _ H3), lookup_setitem_same.
  - now rewrite lookup_setitem_same.
  - intros k K1 K2 K3. now rewrite !lookup_setitem_other.
Qed.

(** [run_benchmark] without an output file, once the assessor has
    returned. *)
Lemma run_benchmark_eq (p : str) (w w1 : World) (f : file) (result : json) :
  find_file (files w) p = Some f ->
  analyze_hazard_image json_loads p w = (inr result, w1) ->
  run_benchmark json_loads json_dumps p None w
  = (match print_summary_of result with
     | inl e => inl e
     | inr _ => inr (benchmark_result p result)
     end, w1).
Proof.
  intros Hfile Hrun. unfold run_benchmark.
  unfold bind at 1. unfold path_exists. rewrite Hfile. cbn [negb].
  rewrite (bind_inr _ _ _ _ _ Hrun).
  unfold bind, ret, lift. now destruct (print_summary_of result).
Qed.

(** What the assessor returns when the call raised something other than
    a [JSONDecodeError], or the reply could not be turned into a stamped
    dictionary. *)
Lemma failed_assessment (p : str) (w : World) (data : list N) :
  find_file (files w) p = Some (Readable data) ->
  (exists e, next_reply w = Fail e /\ is_JSONDecodeError e = false) \/
  (exists r e, next_reply w = Reply r /\
     decode_and_stamp json_loads r (clean_markdown (strip (text r)))
     = inl e) ->
  exists record,
    analyze_hazard_image json_loads p w
    = (inr (JObj record), log (assessment_request data) w) /\
    _print_summary record = inr ErrorBlock /\
    assessment_mode (JObj record) = Error.
Proof.
  intros Hfile Hfail.
  rewrite (analyze_hazard_image_eq json_loads p w data Hfile).
  destruct Hfail as [(e & -> & ->)|(r & e & -> & Hdec)].
  - eexists. split; [reflexivity|]. split; reflexivity.
  - cbv zeta. rewrite Hdec.
    destruct (is_JSONDecodeError e); eexists;
      (split; [reflexivity|]); split; reflexivity.
Qed.

(** What the assessor does when the call itself raises a
    [JSONDecodeError]. *)
Lemma unbound_content (p : str) (w : World) (data : list N) (msg : str) :
  find_file (files w) p = Some (Readable data) ->
  next_reply w = Fail (JSONDecodeError msg) ->
  analyze_hazard_image json_loads p w
  = (inl content_unbound, log (assessment_request data) w).
Proof.
  intros Hfile Hcall.
  now rewrite (analyze_hazard_image_eq json_loads p w data Hfile), Hcall.
Qed.

(** X8.  [run_benchmark] does not raise when the model call raises
    something other than a [JSONDecodeError], or when the reply cannot be
    decoded: it returns a report whose analysis is an error record,
    summarised by the error block, after the one request it sent. *)
Theorem run_benchmark_returns_an_error_report
    (p : str) (w : World) (data : list N) :
  find_file (files w) p = Some (Readable data) ->
  (exists e, next_reply w = Fail e /\ is_JSONDecodeError e = false) \/
  (exists r e, next_reply w = Reply r /\
     decode_and_stamp json_loads r (clean_markdown (strip (text r)))
     = inl e) ->
  exists record,
    run_benchmark json_loads json_dumps p None w
    = (inr (benchmark_result p (JObj record)),
       log (assessment_request data) w) /\
    _print_summary record = inr ErrorBlock /\
    assessment_mode (JObj record) = Error.
Proof.
  intros Hfile Hfail.
  destruct (failed_assessment p w data Hfile Hfail)
    as (record & Hrun & Hsum & Hmode).
  exists record. split; [|now split].
  rewrite (run_benchmark_eq p w _ _ _ Hfile Hrun).
  cbn [print_summary_of]. now rewrite Hsum.
Qed.

(** X9.  With an output file, [run_benchmark] writes the report before it
    prints the summary: once the assessor has returned, the file holds
    the serialized report even when the summary then raises, and the
    outcome of the call is that of the summary. *)
Theorem report_is_written_before_the_summary
    (p out : str) (w w1 : World) (data : list N) (result : json) :
  find_file (files w) p = Some (Readable data) ->
  out <> [] ->
  (forall msg, find_file (files w) out <> Some (Unreadable msg)) ->
  analyze_hazard_image json_loads p w = (inr result, w1) ->
  exists w',
    run_benchmark json_loads json_dumps p (Some out) w
    = (match print_summary_of result with
       | inl e => inl e
       | inr _ => inr (benchmark_result p result)
       end, w') /\
    find_file (files w') out
    = Some (Readable (json_dumps (JObj (benchmark_result p result)))) /\
    calls w' = calls w ++ [assessment_request data].
Proof.
  intros Hfile Hout Hok Hrun.
  assert (Hw1 : w1 = log (assessment_request data) w).
  { pose proof (analyze_hazard_image_eq json_loads p w data Hfile) as Heq.
    rewrite Hrun in Heq. now injection Heq as _ ->. }
  subst w1.
  destruct (write_file_ok out
              (json_dumps (JObj (benchmark_result p result)))
              (log (assessment_request data) w) Hok)
    as (w' & Hwrite & Hheld & _ & _ & Hcalls & _).
  exists w'. split; [|split; [exact Hheld|exact Hcalls]].
  unfold run_benchmark.
  unfold bind at 1. unfold path_exists. rewrite Hfile. cbn [negb].
  rewrite (bind_inr _ _ _ _ _ Hrun).
  destruct out as [|c name]; [now destruct Hout|].
  rewrite (bind_inr _ _ _ _ _ Hwrite).
  unfold bind, ret, lift. now destruct (print_summary_of result).
Qed.

(** X10.  Once the image has been read, the single-pass assessor sends
    exactly one request, which declares the image as [image/jpeg]
    whatever the extension of the path, and reads nothing from the
    console.  It then returns a dictionary, whatever the call and the
    reply were, except when the call itself raises a [JSONDecodeError]:
    the handler for that exception reads a variable that is not bound
    yet, and the assessor raises an [UnboundLocalError]. *)
Theorem assessor_sends_one_jpeg_request
    (p : str) (w : World) (data : list N) :
  find_file (files w) p = Some (Readable data) ->
  let run := analyze_hazard_image json_loads p w in
  calls (snd run) = calls w ++ [assessment_request data] /\
  req_image (assessment_request data) = Some (U "image/jpeg", data) /\
  stdin (snd run) = stdin w /\ files (snd run) = files w /\
  ((forall msg, next_reply w <> Fail (JSONDecodeError msg)) ->
   exists record, fst run = inr (JObj record)) /\
  (forall msg, next_reply w = Fail (JSONDecodeError msg) ->
   fst run = inl content_unbound).
Proof.
  intros Hfile run. subst run.
  rewrite (analyze_hazard_image_eq json_loads p w data Hfile).
  fold (assessment_request data). cbn [fst snd].
  repeat split.
  - intros Hcall. destruct (next_reply w) as [r|e].
    + cbv zeta.
      destruct (decode_and_stamp json_loads r _) as [e|v] eqn:E.
      * destruct (is_JSONDecodeError e); eauto.
      * unfold decode_and_stamp in E.
        destruct (json_loads _) as [e|v0]; [discriminate|].
        destruct v0; cbn [setitem_json] in E; try discriminate.
        injection E as <-. eauto.
    + assert (He : is_JSONDecodeError e = false)
        by (destruct e; try reflexivity; now destruct (Hcall msg)).
      rewrite He. eauto.
  - now intros msg ->.
Qed.

End SinglePassRuns.

Lemma store_file_holds (fs fs' : list (str * file)) (path : str)
    (data : list N) :
  store_file fs path data = inr fs' ->
  find_file fs' path = Some (Readable data).
Proof.
  revert fs'; induction fs as [|[p f] fs IH]; simpl; intros fs'.
  - intros [= <-]. simpl. now rewrite eqb_refl.
  - destruct (PyStr.eqb path p) eqn:E.
    + destruct f as [old|msg]; [|discriminate].
      intros [= <-]. simpl. now rewrite E.
    + destruct (store_file fs path data) as [e|fs1]; [discriminate|].
      intros [= <-]. simpl. rewrite E. now apply IH.
Qed.

(** * The scripts *)

Section Scripts.

Variable json_loads : str -> exn + json.
Variable py_repr : json -> str.
Variable json_dumps : json -> str.

(** X11.  Both single-image scripts end with status 1, having read,
    sent and written nothing, unless they are given exactly one argument
    that names an existing path and the API key is set to a non-empty
    value. *)
Theorem scripts_exit_1_before_any_work
    (argv : list str) (api_key : option str) (w : World) :
  (forall prog p, argv = [prog; p] ->
     find_file (files w) p = None \/ is_set api_key = false) ->
  SimpleTest.main json_loads json_dumps argv api_key w = (inr 1%Z, w) /\
  QuickBenchmark.main json_loads py_repr json_dumps argv api_key w
  = (inr 1%Z, w).
Proof.
  intros H. unfold SimpleTest.main, QuickBenchmark.main.
  destruct argv as [|prog [|p [|x argv]]]; try (split; reflexivity).
  unfold bind, path_exists.
  destruct (H prog p eq_refl) as [-> | ->].
  - split; reflexivity.
  - destruct (find_file (files w) p); split; reflexivity.
Qed.

(** X12.  [simple_test.py] ends with status 0 when the model call raises
    something other than a [JSONDecodeError], or when the reply cannot be
    decoded: the failure has become an error record, which is summarised
    and reported like any result.  When the call raises a
    [JSONDecodeError], the assessor raises in its turn and the script
    ends with status 1. *)
Theorem simple_test_exits_0_on_a_failed_assessment
    (prog p : str) (api_key : option str) (w : World) (data : list N) :
  find_file (files w) p = Some (Readable data) ->
  is_set api_key = true ->
  ((exists e, next_reply w = Fail e /\ is_JSONDecodeError e = false) \/
   (exists r e, next_reply w = Reply r /\
      HazardDetectionBenchmark.decode_and_stamp json_loads r
        (HazardDetectionBenchmark.clean_markdown (strip (text r)))
      = inl e) ->
   SimpleTest.main json_loads json_dumps [prog; p] api_key w
   = (inr 0%Z, log (assessment_request data) w)) /\
  (forall msg,
     next_reply w = Fail (JSONDecodeError msg) ->
     SimpleTest.main json_loads json_dumps [prog; p] api_key w
     = (inr 1%Z, log (assessment_request data) w)).
Proof.
  intros Hfile Hkey. split.
  - intros Hfail.
    destruct (failed_assessment json_loads p w data Hfile Hfail)
      as (record & Hrun & Hsum & _).
    pose proof (run_benchmark_eq json_loads json_dumps p w _ _ _ Hfile Hrun)
      as Hbench.
    cbn [HazardDetectionBenchmark.print_summary_of] in Hbench.
    rewrite Hsum in Hbench.
    unfold SimpleTest.main.
    unfold bind at 1. unfold path_exists. rewrite Hfile, Hkey. cbn [negb].
    unfold try_except. now rewrite (bind_inr _ _ _ _ _ Hbench).
  - intros msg Hcall.
    pose proof (unbound_content json_loads p w data msg Hfile Hcall) as Hrun.
    assert (Hbench : HazardDetectionBenchmark.run_benchmark json_loads
                       json_dumps p None w
                     = (inl HazardDetectionBenchmark.content_unbound,
                        log (assessment_request data) w)).
    { unfold HazardDetectionBenchmark.run_benchmark.
      unfold bind at 1. unfold path_exists. rewrite Hfile. cbn [negb].
      now rewrite (bind_inl _ _ _ _ _ Hrun). }
    unfold SimpleTest.main.
    unfold bind at 1. unfold path_exists. rewrite Hfile, Hkey. cbn [negb].
    unfold try_except. now rewrite (bind_inl _ _ _ _ _ Hbench).
Qed.

(** [quick_benchmark.py] past its three checks. *)
Lemma quick_benchmark_eq (prog p : str) (api_key : option str) (w : World) :
  find_file (files w) p <> None ->
  is_set api_key = true ->
  QuickBenchmark.main json_loads py_repr json_dumps [prog; p] api_key w
  = match GeminiHazardBenchmark.run_single_benchmark json_loads py_repr
            p 1 w with
    | (inl _, w1) => (inr 1%Z, w1)
    | (inr result, w1) =>
        match store_file (files w1) (U "single_test_result.json")
                (json_dumps (JObj result)) with
        | inl _ => (inr 1%Z, w1)
        | inr fs => (inr 0%Z, mkWorld fs (stdin w1) (oracle w1) (calls w1))
        end
    end.
Proof.
  intros Hfile Hkey. unfold QuickBenchmark.main.
  unfold bind at 1. unfold path_exists.
  destruct (find_file (files w) p) as [f|]; [|easy].
  rewrite Hkey. cbn [negb]. unfold try_except, bind at 1.
  destruct (GeminiHazardBenchmark.run_single_benchmark json_loads py_repr
              p 1 w) as [[e|result] w1]; [reflexivity|].
  unfold bind, write_file, ret.
  now destruct (store_file (files w1) (U "single_test_result.json")
                  (json_dumps (JObj result))).
Qed.

(** X13.  Past its three checks, [quick_benchmark.py] ends with status 0
    exactly when the trial returned and its record was written: the file
    [single_test_result.json] then holds the serialized record.  With
    status 1 no file has been written or changed. *)
Theorem quick_benchmark_status_tells_whether_the_record_was_written
    (prog p : str) (api_key : option str) (w : World) :
  find_file (files w) p <> None ->
  is_set api_key = true ->
  let trial :=
    GeminiHazardBenchmark.run_single_benchmark json_loads py_repr p 1 w in
  let run :=
    QuickBenchmark.main json_loads py_repr json_dumps [prog; p] api_key w in
  (exists result,
     fst trial = inr result /\
     fst run = inr 0%Z /\
     find_file (files (snd run)) (U "single_test_result.json")
     = Some (Readable (json_dumps (JObj result)))) \/
  (fst run = inr 1%Z /\ files (snd run) = files w).
Proof.
  intros Hfile Hkey trial run. subst run trial.
  rewrite (quick_benchmark_eq prog p api_key w Hfile Hkey).
  pose proof (keeps_files_run_single json_loads py_repr p 1 w) as Hkeep.
  destruct (GeminiHazardBenchmark.run_single_benchmark json_loads py_repr
              p 1 w) as [[e|result] w1]; cbn [fst snd] in *.
  - right. now split.
  - destruct (store_file (files w1) (U "single_test_result.json")
                (json_dumps (JObj result))) as [e|fs] eqn:E; cbn [fst snd].
    + right. now split.
    + left. exists result. repeat split. cbn [files].
      exact (store_file_holds _ _ _ _ E).
Qed.

(** X14.  An image that exists but cannot be opened is not turned into an
    error record.  The single-pass assessor reads the image before its
    [try], so it raises the [OSError], and so does [run_benchmark];
    [simple_test.py] then ends with status 1 and no request sent.  The
    manual-input assessor raises it once its three prompts have been
    answered, and the loop of the benchmark drops the trial. *)
Theorem unreadable_image_is_not_an_error_record
    (p msg : str) (w : World) :
  find_file (files w) p = Some (Unreadable msg) ->
  HazardDetectionBenchmark.analyze_hazard_image json_loads p w
  = (inl (OSError msg), w) /\
  (forall out,
     HazardDetectionBenchmark.run_benchmark json_loads json_dumps p out w
     = (inl (OSError msg), w)) /\
  (forall prog api_key,
     is_set api_key = true ->
     SimpleTest.main json_loads json_dumps [prog; p] api_key w
     = (inr 1%Z, w)) /\
  (forall a b c rest i t,
     stdin w = a :: b :: c :: rest ->
     GeminiHazardBenchmark.method1_manual_input_with_ai json_loads p w
     = (inl (OSError msg), set_stdin rest w) /\
     GeminiHazardBenchmark.run_trial json_loads py_repr p i t w
     = (t, set_stdin rest w)).
Proof.
  intros Hfile.
  assert (Hrun : HazardDetectionBenchmark.analyze_hazard_image json_loads
                   p w = (inl (OSError msg), w)).
  { unfold HazardDetectionBenchmark.analyze_hazard_image,
      HazardDetectionBenchmark.encode_image, bind, read_file.
    now rewrite Hfile. }
  assert (Hbench : forall out,
            HazardDetectionBenchmark.run_benchmark json_loads json_dumps
              p out w = (inl (OSError msg), w)).
  { intros out. unfold HazardDetectionBenchmark.run_benchmark.
    unfold bind at 1. unfold path_exists. rewrite Hfile. cbn [negb].
    now rewrite (bind_inl _ _ _ _ _ Hrun). }
  split; [exact Hrun|]. split; [exact Hbench|]. split.
  - intros prog api_key Hkey. unfold SimpleTest.main.
    unfold bind at 1. unfold path_exists. rewrite Hfile, Hkey. cbn [negb].
    unfold try_except. now rewrite (bind_inl _ _ _ _ _ (Hbench None)).
  - intros a b c rest i t Hin.
    assert (Hm1 : GeminiHazardBenchmark.method1_manual_input_with_ai
                    json_loads p w = (inl (OSError msg), set_stdin rest w)).
    { unfold GeminiHazardBenchmark.method1_manual_input_with_ai.
      rewrite (bind_input _ w Hin).
      rewrite (bind_input _ (set_stdin (b :: c :: rest) w) eq_refl).
      rewrite (bind_input _ (set_stdin (c :: rest) _) eq_refl).
      unfold GeminiHazardBenchmark.encode_image, bind, read_file.
      cbn [set_stdin files]. now rewrite Hfile. }
    split; [exact Hm1|].
    unfold GeminiHazardBenchmark.run_trial,
      GeminiHazardBenchmark.run_single_benchmark.
    unfold bind at 1. unfold path_exists. rewrite Hfile. cbn [negb].
    now rewrite (bind_inl _ _ _ _ _ Hm1).
Qed.

End Scripts.

(** * The interactive runner *)

Section Runner.

Import GeminiHazardBenchmark.

Variable json_loads : str -> exn + json.
Variable py_repr : json -> str.
Variable json_dumps : json -> str.

Lemma ask_image_path_spec (fs : list (str * file)) (lines : list str) :
  let missing := fun line => find_file fs (strip line) = None in
  match ask_image_path fs lines with
  | (inr p, rest) =>
      exists skipped line,
        lines = skipped ++ line :: rest /\ Forall missing skipped /\
        p = strip line /\ find_file fs p <> None
  | (inl e, rest) =>
      e = EOFError (U "EOF when reading a line") /\ rest = [] /\
      Forall missing lines
  end.
Proof.
  cbv zeta. induction lines as [|line lines IH]; cbn [ask_image_path].
  - repeat split. constructor.
  - destruct (find_file fs (strip line)) as [f|] eqn:E.
    + exists [], line. repeat split; [constructor|congruence].
    + destruct (ask_image_path fs lines) as [[e|p] rest].
      * destruct IH as (-> & -> & Hall). repeat split. now constructor.
      * destruct IH as (skipped & l & -> & Hall & -> & Hp).
        exists (line :: skipped), l. repeat split; try assumption.
        now constructor.
Qed.

(** X15.  The path prompt of the interactive runner reads lines until
    one, stripped of surrounding white space, names an existing path,
    and returns that stripped line; the lines before it are consumed.
    When no line left names an existing path it raises [EOFError] with
    the console exhausted.  It sends nothing and touches no file. *)
Theorem path_prompt_repeats_until_a_path_exists (w : World) :
  let missing := fun line => find_file (files w) (strip line) = None in
  match read_image_path w with
  | (inr p, w') =>
      (exists skipped line,
         stdin w = skipped ++ line :: stdin w' /\ Forall missing skipped /\
         p = strip line /\ find_file (files w) p <> None) /\
      w' = set_stdin (stdin w') w
  | (inl e, w') =>
      e = EOFError (U "EOF when reading a line") /\
      Forall missing (stdin w) /\ w' = set_stdin [] w
  end.
Proof.
  cbv zeta. unfold read_image_path.
  pose proof (ask_image_path_spec (files w) (stdin w)) as H. cbv zeta in H.
  destruct (ask_image_path (files w) (stdin w)) as [[e|p] rest].
  - destruct H as (-> & -> & Hall). now repeat split.
  - split; [exact H|reflexivity].
Qed.

(** What the path prompts leave: the paths asked for, all existing, and
    a world that differs by the lines read. *)
Lemma read_image_paths_spec (n : nat) (w : World) :
  match read_image_paths n w with
  | (inr paths, w') =>
      length paths = n /\
      Forall (fun p => find_file (files w) p <> None) paths /\
      exists rest, w' = set_stdin rest w
  | (inl e, w') =>
      e = EOFError (U "EOF when reading a line") /\ w' = set_stdin [] w
  end.
Proof.
  revert w; induction n as [|n IH]; intros w; cbn [read_image_paths].
  - repeat split; [constructor|]. exists (stdin w). now destruct w.
  - unfold bind at 1. unfold read_image_path.
    pose proof (ask_image_path_spec (files w) (stdin w)) as H.
    cbv zeta in H.
    destruct (ask_image_path (files w) (stdin w)) as [[e|p] rest].
    + destruct H as (-> & -> & _). now split.
    + destruct H as (skipped & line & _ & _ & _ & Hp).
      specialize (IH (set_stdin rest w)). unfold bind, ret.
      destruct (read_image_paths n (set_stdin rest w)) as [[e|paths] w'].
      * exact IH.
      * destruct IH as (Hlen & Hall & rest' & ->).
        repeat split; [simpl; congruence|now constructor|].
        now exists rest'.
Qed.

(** X16.  The interactive runner returns without doing anything when the
    API key is not set.  Otherwise the only exception it lets through is
    the [EOFError] of a path prompt, raised before any request was sent
    and with no file written: whatever the benchmark or the writing of
    its report raises is caught. *)
Theorem runner_raises_only_at_the_path_prompt
    (api_key : option str) (w : World) :
  (is_set api_key = false -> main json_loads py_repr json_dumps api_key w
                             = (inr tt, w)) /\
  match main json_loads py_repr json_dumps api_key w with
  | (inr _, _) => True
  | (inl e, w') =>
      e = EOFError (U "EOF when reading a line") /\ w' = set_stdin [] w
  end.
Proof.
  unfold main. split; [now intros ->|].
  destruct (is_set api_key); cbn [negb]; [|exact I].
  unfold bind at 1.
  pose proof (read_image_paths_spec 5 w) as H.
  destruct (read_image_paths 5 w) as [[e|paths] w1]; [exact H|].
  unfold try_except.
  now destruct (bind _ _ w1) as [[e|[]] w2].
Qed.

(** X17.  The runner always hands the benchmark five existing paths, so
    the benchmark's own check of the count never fires.  When the summary
    can be computed and the results file can be opened, the runner leaves
    the serialized report in [benchmark_results.json]; when the summary
    raises, no file is written. *)
Theorem runner_writes_the_report_of_five_trials
    (api_key : option str) (w w1 : World) (paths : list str) :
  is_set api_key = true ->
  read_image_paths 5 w = (inr paths, w1) ->
  let run := run_trials json_loads py_repr paths 1 (mkTally [] [] []) w1 in
  let out := U "benchmark_results.json" in
  length paths = 5 /\
  Forall (fun p => find_file (files w) p <> None) paths /\
  run_full_benchmark json_loads py_repr paths w1
  = (summarize (fst run), snd run) /\
  match summarize (fst run) with
  | inl _ =>
      main json_loads py_repr json_dumps api_key w = (inr tt, snd run)
  | inr report =>
      (forall msg, find_file (files w) out <> Some (Unreadable msg)) ->
      exists w',
        main json_loads py_repr json_dumps api_key w = (inr tt, w') /\
        find_file (files w') out
        = Some (Readable (json_dumps (report_json report)))
  end.
Proof.
  intros Hkey Hread run out.
  pose proof (read_image_paths_spec 5 w) as H. rewrite Hread in H.
  destruct H as (Hlen & Hall & rest & ->).
  assert (Hfull : run_full_benchmark json_loads py_repr paths
                    (set_stdin rest w) = (summarize (fst run), snd run)).
  { unfold run_full_benchmark. rewrite Hlen. cbn [Nat.eqb negb].
    fold run. now destruct run. }
  repeat split; try assumption.
  pose proof (run_trials_files json_loads py_repr paths 1
                (mkTally [] [] []) (set_stdin rest w)) as Hfiles.
  fold run in Hfiles. cbn [set_stdin files] in Hfiles.
  unfold main. rewrite Hkey. cbn [negb].
  rewrite (bind_inr _ _ _ _ _ Hread). unfold try_except.
  destruct (summarize (fst run)) as [e|report].
  - now rewrite (bind_inl _ _ _ _ _ Hfull).
  - intros Hok. rewrite (bind_inr _ _ _ _ _ Hfull).
    destruct (write_file_ok out (json_dumps (report_json report)) (snd run))
      as (w' & Hw & Hheld & _).
    { now rewrite Hfiles. }
    exists w'. fold out. now rewrite Hw.
Qed.

End Runner.

(** * The console during a trial *)

Section Console.

Import GeminiHazardBenchmark.

Variable json_loads : str -> exn + json.
Variable py_repr : json -> str.

(** X18.  When the first call of the follow-up assessor fails, or its
    reply does not decode to a dictionary, nothing is asked of the user
    and no second request is sent: the assessor returns its error record
    with the console as it was and one request logged. *)
Theorem no_question_after_a_failed_first_call
    (p : str) (w : World) (data : list N) (e : exn) :
  find_file (files w) p = Some (Readable data) ->
  reply_dict json_loads (next_reply w) = inl e ->
  let w' := snd (method2_ai_followup json_loads py_repr p w) in
  fst (method2_ai_followup json_loads py_repr p w)
  = inr (method2_failed e) /\
  stdin w' = stdin w /\
  calls w'
  = calls w ++ [mkRequest [followup_prompt] (Some (mime_type p, data))].
Proof.
  intros Hfile Hfail. cbv zeta.
  rewrite (method2_eq json_loads py_repr p w data Hfile). cbv zeta.
  rewrite Hfail. now repeat split.
Qed.

(** X19.  The end of the console input is caught at the clarification
    prompt and nowhere else.  The follow-up assessor turns it into an
    error record; the manual-input assessor, whose prompts come before
    its [try], lets the [EOFError] through with no request sent, and the
    loop of the benchmark then drops the trial. *)
Theorem end_of_input_is_caught_only_at_the_clarification
    (p : str) (w : World) :
  (forall data d,
     find_file (files w) p = Some (Readable data) ->
     reply_dict json_loads (next_reply w) = inr d ->
     stdin w = [] ->
     method2_ai_followup json_loads py_repr p w
     = (inr (method2_failed (EOFError (U "EOF when reading a line"))),
        log (mkRequest [followup_prompt] (Some (mime_type p, data))) w))
  /\
  (length (stdin w) < 3 ->
   exists w',
     method1_manual_input_with_ai json_loads p w
     = (inl (EOFError (U "EOF when reading a line")), w') /\
     stdin w' = [] /\ calls w' = calls w /\
     forall i t,
       find_file (files w) p <> None ->
       run_trial json_loads py_repr p i t w = (t, w')).
Proof.
  split.
  - intros data d Hfile Hreply Hin.
    rewrite (method2_eq json_loads py_repr p w data Hfile). cbv zeta.
    now rewrite Hreply, Hin.
  - intros Hshort.
    assert (Hm1 : exists w',
              method1_manual_input_with_ai json_loads p w
              = (inl (EOFError (U "EOF when reading a line")), w') /\
              stdin w' = [] /\ calls w' = calls w /\ files w' = files w).
    { unfold method1_manual_input_with_ai.
      destruct (stdin w) as [|a [|b [|c rest]]] eqn:Hin;
        [| | |simpl in Hshort; lia].
      - rewrite (bind_input_eof _ w Hin). now exists w.
      - rewrite (bind_input _ w Hin).
        rewrite (bind_input_eof _ (set_stdin [] w) eq_refl).
        now eexists.
      - rewrite (bind_input _ w Hin).
        rewrite (bind_input _ (set_stdin [b] w) eq_refl).
        rewrite (bind_input_eof _ (set_stdin [] _) eq_refl).
        now eexists. }
    destruct Hm1 as (w' & Hm1 & Hin' & Hcalls & Hfiles).
    exists w'. repeat split; try assumption.
    intros i t Hfile. unfold run_trial, run_single_benchmark.
    unfold bind at 1. unfold path_exists.
    destruct (find_file (files w) p); [|easy]. cbn [negb].
    now rewrite (bind_inl _ _ _ _ _ Hm1).
Qed.

(** X20.  The judge is shown the ground truth as it was typed: the three
    lines read by [get_ground_truth] occur, character for character, in
    the one prompt the comparator sends, and no image goes with that
    request. *)
Theorem judge_prompt_shows_the_ground_truth
    (m1 m2 : dict) (w : World) (a b c : str) (rest : list str) :
  stdin w = a :: b :: c :: rest ->
  exists gt w1 verdict prompt,
    get_ground_truth w = (inr gt, w1) /\
    stdin w1 = rest /\
    evaluate_accuracy json_loads py_repr m1 m2 gt w1
    = (inr verdict, log (mkRequest [prompt] None) w1) /\
    occurs_in a prompt /\ occurs_in b prompt /\ occurs_in c prompt.
Proof.
  intros Hin.
  assert (Hgt : get_ground_truth w
                = (inr [(U "actual_issue", JStr a);
                        (U "actual_location", JStr b);
                        (U "actual_note", JStr c);
                        (U "source", JStr (U "ground_truth"))],
                   set_stdin rest w)).
  { unfold get_ground_truth.
    rewrite (bind_input _ w Hin).
    rewrite (bind_input _ (set_stdin (b :: c :: rest) w) eq_refl).
    rewrite (bind_input _ (set_stdin (c :: rest) _) eq_refl).
    reflexivity. }
  eexists _, _, _, _. split; [exact Hgt|]. split; [reflexivity|].
  split; [apply evaluate_accuracy_eq|].
  unfold evaluation_prompt.
  change (py_str py_repr (get _ (U "actual_issue") _)) with a.
  change (py_str py_repr (get _ (U "actual_location") _)) with b.
  change (py_str py_repr (get _ (U "actual_note") _)) with c.
  repeat split; find_occurrence.
Qed.

End Console.

Section Summary.

Import HazardDetectionBenchmark.

Variable json_loads : str -> exn + json.
Variable json_dumps : json -> str.

(** X21.  The summary calls [upper()] on the mode the reply declares.  A
    reply that decodes to a dictionary whose ["mode"] is present but not
    a string ([null], a number), and which reports no error, makes
    [run_benchmark] raise an [AttributeError] after the request was sent:
    no report is returned. *)
Theorem mode_that_is_no_string_breaks_the_summary
    (p : str) (w : World) (data : list N) (r : response) (d : dict)
    (v : json) :
  find_file (files w) p = Some (Readable data) ->
  next_reply w = Reply r ->
  json_loads (clean_markdown (strip (text r))) = inr (JObj d) ->
  truthy (get_none d (U "error")) = false ->
  lookup d (U "mode") = Some v ->
  (forall s, v <> JStr s) ->
  run_benchmark json_loads json_dumps p None w
  = (inl (no_attribute v (U "upper")), log (assessment_request data) w).
Proof.
  intros Hfile Hreply Hloads Herr Hmode Hv.
  pose proof (analyze_hazard_image_eq json_loads p w data Hfile) as Hrun.
  rewrite Hreply in Hrun. cbv zeta in Hrun.
  destruct (decode_and_stamp_dict json_loads r _ d Hloads)
    as (d' & Hdec & Hkeys).
  rewrite Hdec in Hrun.
  rewrite (run_benchmark_eq json_loads json_dumps p w _ _ _ Hfile Hrun).
  fold (assessment_request data).
  assert (Herr' : get_none d' (U "error") = get_none d (U "error")).
  { unfold get_none, get. rewrite Hkeys; [reflexivity| | |];
      intros H; cbv in H; discriminate. }
  assert (Hmode' : lookup d' (U "mode") = Some v).
  { rewrite Hkeys; [exact Hmode| | |]; intros H; cbv in H; discriminate. }
  cbn [print_summary_of]. unfold _print_summary.
  rewrite Herr', Herr. unfold get at 1. rewrite Hmode'.
  destruct v; try reflexivity. now destruct (Hv s).
Qed.

End Summary.

(** * A fenced block inside a longer reply *)

(** The opening marker cannot begin inside a text that holds no three
    backticks in a row. *)
Lemma no_early_opening (pre t : str) :
  pre <> [] ->
  startswith pre [96; 96; 96]%N = false ->
  startswith (pre ++ [96; 96; 96; 106; 115; 111; 110]%N ++ t)
    [96; 96; 96; 106; 115; 111; 110]%N = false.
Proof.
  intros Hne.
  destruct pre as [|a [|b [|c [|d pre]]]]; [easy| | | |];
    cbn [app startswith];
    change (96 =? 96)%N with true; change (106 =? 96)%N with false;
    repeat match goal with
           | |- context [(96 =? ?x)%N] =>
               is_var x; destruct (96 =? x)%N; cbn [andb]
           end; congruence.
Qed.

Lemma find_opening_marker (pre t : str) (i : nat) :
  find_at (U "```") pre 0 = None ->
  find_at (U "```json") (pre ++ U "```json" ++ t) i = Some (i + length pre).
Proof.
  rewrite fence_marker, json_marker.
  revert i; induction pre as [|c pre IH]; intros i H.
  - rewrite app_nil_l, find_at_prefix by apply startswith_app.
    f_equal. simpl. lia.
  - pose proof (find_at_head _ _ _ H) as Hh.
    pose proof (find_at_tail _ _ _ _ H) as Ht.
    pose proof (no_early_opening (c :: pre) t ltac:(discriminate) Hh) as Hno.
    change ((c :: pre) ++ [96; 96; 96; 106; 115; 111; 110]%N ++ t)
      with (c :: (pre ++ [96; 96; 96; 106; 115; 111; 110]%N ++ t))
      in Hno |- *.
    cbn [find_at]. rewrite Hno, (IH (S i) Ht). f_equal. simpl. lia.
Qed.

Lemma find_at_skip (sub : str) (c : N) (s : str) (i : nat) :
  startswith (c :: s) sub = false ->
  find_at sub (c :: s) i = find_at sub s (S i).
Proof. intros H. cbn [find_at]. now rewrite H. Qed.

(** In a payload without marker, followed by a newline, the closing
    marker and anything, the first marker is the closing one. *)
Lemma find_closing_marker_before (p t : str) (i : nat) :
  find_at (U "```") p 0 = None ->
  find_at (U "```") (p ++ 10%N :: U "```" ++ t) i = Some (i + length p + 1).
Proof.
  rewrite fence_marker. revert i; induction p as [|c p IH]; intros i H.
  - rewrite app_nil_l, find_at_skip by reflexivity.
    rewrite find_at_prefix by apply startswith_app. f_equal. simpl. lia.
  - pose proof (find_at_head _ _ _ H) as Hh.
    pose proof (find_at_tail _ _ _ _ H) as Ht.
    change ((c :: p) ++ 10%N :: [96; 96; 96]%N ++ t)
      with (c :: (p ++ 10%N :: [96; 96; 96]%N ++ t)).
    cbn [find_at].
    change (c :: (p ++ 10%N :: [96; 96; 96]%N ++ t))
      with ((c :: p) ++ 10%N :: [96; 96; 96]%N ++ t).
    rewrite no_straddle, Hh, (IH (S i) Ht). f_equal. simpl. lia.
Qed.

Lemma skipn_length_app {A} (l1 l2 : list A) :
  skipn (length l1) (l1 ++ l2) = l2.
Proof. induction l1; simpl; congruence. Qed.

Lemma firstn_length_app {A} (l1 l2 : list A) :
  firstn (length l1) (l1 ++ l2) = l1.
Proof. induction l1; simpl; congruence. Qed.

(** X22.  At the sites of the Gemini file the fenced block may sit
    anywhere in the reply: when neither the text before the opening
    marker nor the payload holds three backticks in a row, the fence
    block yields the stripped payload, and whatever precedes the opening
    marker or follows the closing one is dropped. *)
Theorem fenced_block_is_found_amid_prose (before p after : str) :
  contains (U "```") before = false ->
  contains (U "```") p = false ->
  GeminiHazardBenchmark.strip_json_fence (before ++ fenced p ++ after)
  = strip p.
Proof.
  intros Hb Hp. unfold contains in Hb, Hp.
  destruct (find_at (U "```") before 0) eqn:Eb; [discriminate|].
  destruct (find_at (U "```") p 0) eqn:Ep; [discriminate|].
  set (head := before ++ U "```json").
  set (tail := U "```" ++ after).
  assert (Htext : before ++ fenced p ++ after
                  = head ++ (10%N :: p ++ [10%N]) ++ tail).
  { unfold head, tail, fenced. rewrite <- !app_assoc. cbn [app].
    now rewrite <- ?app_assoc. }
  assert (Hhead : length head = length before + 7)
    by (unfold head; rewrite length_app; reflexivity).
  assert (Hin : find_at (U "```json") (before ++ fenced p ++ after) 0
                = Some (length before)).
  { unfold fenced. rewrite <- !app_assoc.
    now rewrite find_opening_marker. }
  unfold GeminiHazardBenchmark.strip_json_fence.
  unfold contains. rewrite find_from_start, Hin.
  assert (Hlen : length (before ++ fenced p ++ after)
                 = length head + (length p + 2) + length tail).
  { rewrite Htext, !length_app. cbn [length]. rewrite length_app.
    simpl. lia. }
  replace (Z.of_nat (length before) + 7)%Z with (Z.of_nat (length head))
    by lia.
  assert (Hend : find (before ++ fenced p ++ after) (U "```")
                   (Z.of_nat (length head))
                 = Z.of_nat (length head + (length p + 2))).
  { unfold find, norm_index. rewrite Hlen.
    replace (Z.of_nat (length head + (length p + 2) + length tail)
             <? Z.of_nat (length head))%Z with false
      by (symmetry; apply Z.ltb_ge; lia).
    replace (Z.of_nat (length head) <? 0)%Z with false
      by (symmetry; apply Z.ltb_ge; lia).
    cbv iota. rewrite Nat2Z.id, Nat.min_l by lia.
    rewrite Htext, skipn_length_app.
    change ((10%N :: p ++ [10%N]) ++ tail)
      with (10%N :: (p ++ [10%N]) ++ tail).
    rewrite find_at_skip by reflexivity.
    rewrite <- app_assoc. unfold tail.
    change ([10%N] ++ U "```" ++ after) with (10%N :: U "```" ++ after).
    rewrite find_closing_marker_before by exact Ep. f_equal. lia. }
  rewrite Hend. unfold slice, norm_index. rewrite Hlen.
  replace (Z.of_nat (length head) <? 0)%Z with false
    by (symmetry; apply Z.ltb_ge; lia).
  replace (Z.of_nat (length head + (length p + 2)) <? 0)%Z with false
    by (symmetry; apply Z.ltb_ge; lia).
  cbv iota. rewrite !Nat2Z.id, !Nat.min_l by lia.
  rewrite Htext, app_assoc.
  replace (length head + (length p + 2))
    with (length (head ++ 10%N :: p ++ [10%N]))
    by (rewrite length_app; cbn [length]; rewrite length_app; simpl; lia).
  rewrite firstn_length_app, skipn_length_app.
  apply strip_newlines.
Qed.

Lemma lstrip_app_stop (a : str) (x : N) (b : str) :
  is_space x = false -> lstrip (a ++ x :: b) = lstrip a ++ x :: b.
Proof.
  intros Hx. induction a as [|c a IH]; cbn [app lstrip].
  - now rewrite Hx.
  - destruct (is_space c); [exact IH|reflexivity].
Qed.

(** Stripping on the right stops at a character that is no white
    space. *)
Lemma rstrip_app_stop (s : str) (x : N) (t : str) :
  is_space x = false -> rstrip ((s ++ [x]) ++ t) = (s ++ [x]) ++ rstrip t.
Proof.
  intros Hx. unfold rstrip.
  rewrite !rev_app_distr. cbn [rev app].
  rewrite <- app_assoc. cbn [app].
  rewrite lstrip_app_stop by exact Hx.
  rewrite rev_app_distr. cbn [rev].
  now rewrite rev_involutive, <- app_assoc.
Qed.

Section TextBeforeFence.

Import HazardDetectionBenchmark.

Variable json_loads : str -> exn + json.

(** X23.  The single-pass assessor cleans a reply only when the stripped
    reply begins with the opening marker.  When a fenced block follows
    text that begins with a character that is no white space, and not
    with three backticks, stripping takes nothing off the front and
    nothing of the block, the clean-up leaves the result as it is,
    markers included, and that is the text handed to [json.loads]. *)
Theorem fenced_block_after_text_is_not_cleaned
    (c : N) (before p after : str) :
  is_space c = false ->
  startswith (c :: before) (U "```") = false ->
  let reply := (c :: before) ++ fenced p ++ after in
  let content := (c :: before) ++ fenced p ++ rstrip after in
  strip reply = content /\
  clean_markdown (strip reply) = content /\
  forall path w data r,
    find_file (files w) path = Some (Readable data) ->
    next_reply w = Reply r ->
    text r = reply ->
    fst (analyze_hazard_image json_loads path w)
    = inr (match decode_and_stamp json_loads r content with
           | inr result => result
           | inl e =>
               if is_JSONDecodeError e
               then JObj (parsing_failed content e)
               else JObj (call_failed e)
           end).
Proof.
  intros Hc Hb reply content.
  assert (Hstrip : strip reply = content).
  { unfold strip, reply, content. cbn [app].
    rewrite lstrip_not_space by exact Hc.
    change (c :: before ++ fenced p ++ after)
      with ((c :: before) ++ fenced p ++ after).
    unfold fenced.
    replace ((c :: before) ++ (U "```json" ++ [10%N] ++ p ++ [10%N]
                               ++ U "```") ++ after)
      with ((((c :: before) ++ U "```json" ++ [10%N] ++ p ++ [10%N]
              ++ [96; 96]%N) ++ [96%N]) ++ after)
      by (rewrite fence_marker, <- !app_assoc; reflexivity).
    rewrite rstrip_app_stop by reflexivity.
    rewrite fence_marker, <- !app_assoc. reflexivity. }
  assert (Hclean : clean_markdown content = content).
  { unfold clean_markdown.
    rewrite fence_marker in Hb.
    pose proof (no_early_opening (c :: before)
                  (([10%N] ++ p ++ [10%N] ++ U "```") ++ rstrip after)
                  ltac:(discriminate) Hb) as H.
    rewrite <- json_marker in H.
    replace content
      with ((c :: before) ++ U "```json"
            ++ ([10%N] ++ p ++ [10%N] ++ U "```") ++ rstrip after)
      by (unfold content, fenced; now rewrite <- !app_assoc).
    now rewrite H. }
  split; [exact Hstrip|]. split; [now rewrite Hstrip|].
  intros path w data r Hfile Hreply Htext.
  rewrite (analyze_hazard_image_eq json_loads path w data Hfile), Hreply.
  cbv zeta. cbn [fst]. now rewrite Htext, Hstrip, Hclean.
Qed.

End TextBeforeFence.

(** * Closed examples of the properties above *)

Module MoreExamples.

Import Example.

Lemma recorded_scores_witness :
  exists report w',
    GeminiHazardBenchmark.run_full_benchmark Decoder.loads no_repr
      five_paths four_good_trials = (inr report, w') /\
    GeminiHazardBenchmark.summary_method1_scores
      (GeminiHazardBenchmark.benchmark_summary report)
    = map (recorded_score (U "method1_accuracy"))
        (GeminiHazardBenchmark.detailed_results report) /\
    GeminiHazardBenchmark.summary_method2_scores
      (GeminiHazardBenchmark.benchmark_summary report)
    = map (recorded_score (U "method2_accuracy"))
        (GeminiHazardBenchmark.detailed_results report).
Proof.
  assert (Hrun : exists report w',
            GeminiHazardBenchmark.run_full_benchmark Decoder.loads no_repr
              five_paths four_good_trials = (inr report, w'))
    by (eexists _, _; vm_compute; reflexivity).
  destruct Hrun as (report & w' & Hrun). exists report, w'.
  split; [exact Hrun|].
  exact (summary_scores_are_the_recorded_scores Decoder.loads no_repr
           _ _ _ _ Hrun).
Defined.

Lemma test_numbers_witness :
  exists report w',
    GeminiHazardBenchmark.run_full_benchmark Decoder.loads no_repr
      five_paths four_good_trials = (inr report, w') /\
    numbered 1 five_paths (GeminiHazardBenchmark.detailed_results report) /\
    map (fun r => get_none r (U "test_number"))
      (GeminiHazardBenchmark.detailed_results report)
    = [JInt 1; JInt 2; JInt 4; JInt 5].
Proof.
  assert (Hrun : exists report w',
            GeminiHazardBenchmark.run_full_benchmark Decoder.loads no_repr
              five_paths four_good_trials = (inr report, w') /\
            map (fun r => get_none r (U "test_number"))
              (GeminiHazardBenchmark.detailed_results report)
            = [JInt 1; JInt 2; JInt 4; JInt 5])
    by (eexists _, _; vm_compute; split; reflexivity).
  destruct Hrun as (report & w' & Hrun & Hnum). exists report, w'.
  split; [exact Hrun|]. split; [|exact Hnum].
  exact (detailed_results_keep_their_test_numbers Decoder.loads no_repr
           _ _ _ _ Hrun).
Defined.

Lemma percent_score_witness :
  exists e w',
    GeminiHazardBenchmark.run_full_benchmark Decoder.loads no_repr
      five_photos percent_score_run = (inl e, w') /\
    e = TypeError (U "unsupported operand type(s) for +: 'int' and 'str'").
Proof.
  destruct (non_numeric_score_aborts_the_benchmark Decoder.loads no_repr
              five_photos percent_score_run
              (nth 0 (GeminiHazardBenchmark.results
                        (fst (GeminiHazardBenchmark.run_trials
                                Decoder.loads no_repr five_photos 1
                                (GeminiHazardBenchmark.mkTally [] [] [])
                                percent_score_run))) [])
              (U "method1_accuracy"))
    as (e & msg & Hrun & _).
  - reflexivity.
  - vm_compute. left. reflexivity.
  - left. reflexivity.
  - vm_compute. reflexivity.
  - exists e. eexists. split; [exact Hrun|].
    pose proof Hrun as H. vm_compute in H. now injection H as <-.
Defined.

Lemma list_verdict_witness :
  exists e w',
    GeminiHazardBenchmark.run_trial Decoder.loads no_repr photo 1
      (GeminiHazardBenchmark.mkTally [] [] []) (judged list_score_reply)
    = (GeminiHazardBenchmark.mkTally [] [] [], w') /\
    GeminiHazardBenchmark.run_single_benchmark Decoder.loads no_repr photo 1
      (judged list_score_reply) = (inl e, w') /\
    length (calls w') = 4 /\ stdin w' = [].
Proof.
  edestruct (verdict_that_is_no_dictionary_discards_the_trial
               Decoder.loads no_repr photo 1
               (GeminiHazardBenchmark.mkTally [] [] [])
               (judged list_score_reply))
    as (_ & Hsingle & Hrun).
  - reflexivity.
  - vm_compute. reflexivity.
  - vm_compute. reflexivity.
  - vm_compute. reflexivity.
  - vm_compute. reflexivity.
  - vm_compute. reflexivity.
  - intros d H. discriminate.
  - eexists _, _. split; [exact Hrun|]. split; [exact Hsingle|].
    split; reflexivity.
Defined.

Lemma stamps_witness :
  exists d',
    fst (HazardDetectionBenchmark.analyze_hazard_image Decoder.loads photo
           (world [] [Reply (reply_with self_stamped_reply)]))
    = inr (JObj d') /\
    lookup d' (U "model") = Some (JStr []) /\
    lookup d' (U "mode") = Some (JStr (U "auto_fill")).
Proof.
  edestruct (stamps_replace_reply_entries Decoder.loads photo
               (world [] [Reply (reply_with self_stamped_reply)]) image
               (reply_with self_stamped_reply))
    as (d' & Hrun & _ & Hmodel & _ & Hother).
  - reflexivity.
  - reflexivity.
  - vm_compute. reflexivity.
  - exists d'. rewrite Hrun. split; [reflexivity|]. split; [exact Hmodel|].
    rewrite Hother; [reflexivity| | |]; intros H; cbv in H; discriminate.
Defined.

Lemma error_report_witness :
  exists record w',
    HazardDetectionBenchmark.run_benchmark Decoder.loads dumps photo None
      (world [] [])
    = (inr (HazardDetectionBenchmark.benchmark_result photo (JObj record)),
       w') /\
    HazardDetectionBenchmark._print_summary record
    = inr HazardDetectionBenchmark.ErrorBlock.
Proof.
  destruct (run_benchmark_returns_an_error_report Decoder.loads dumps photo
              (world [] []) image)
    as (record & Hrun & Hsum & _).
  - reflexivity.
  - left. eexists. split; reflexivity.
  - exists record. eexists. split; [exact Hrun|exact Hsum].
Defined.

Lemma report_file_witness :
  exists result e w',
    HazardDetectionBenchmark.run_benchmark Decoder.loads dumps photo
      (Some (U "report.json"))
      (world [] [Reply (reply_with null_mode_reply)])
    = (inl e, w') /\
    find_file (files w') (U "report.json")
    = Some (Readable
              (dumps (JObj (HazardDetectionBenchmark.benchmark_result photo
                              result)))).
Proof.
  assert (Hrun : exists result w1 e,
            HazardDetectionBenchmark.analyze_hazard_image Decoder.loads
              photo (world [] [Reply (reply_with null_mode_reply)])
            = (inr result, w1) /\
            HazardDetectionBenchmark.print_summary_of result = inl e)
    by (eexists _, _, _; split; vm_compute; reflexivity).
  destruct Hrun as (result & w1 & e & Hrun & Hsum).
  destruct (report_is_written_before_the_summary Decoder.loads dumps photo
              (U "report.json")
              (world [] [Reply (reply_with null_mode_reply)]) w1 image
              result)
    as (w' & Hbench & Hfile & _).
  - reflexivity.
  - discriminate.
  - intros msg H. vm_compute in H. discriminate.
  - exact Hrun.
  - rewrite Hsum in Hbench.
    exists result, e, w'. split; [exact Hbench|exact Hfile].
Defined.

Lemma missing_argument_witness :
  SimpleTest.main Decoder.loads dumps
    [U "simple_test.py"; missing_photo] api_key (world [] [])
  = (inr 1%Z, world [] []) /\
  QuickBenchmark.main Decoder.loads no_repr dumps
    [U "quick_benchmark.py"] api_key (world [] [])
  = (inr 1%Z, world [] []).
Proof.
  split.
  - apply (scripts_exit_1_before_any_work Decoder.loads no_repr dumps).
    intros prog p [= <- <-]. left. reflexivity.
  - apply (scripts_exit_1_before_any_work Decoder.loads no_repr dumps).
    intros prog p H. discriminate.
Defined.

Lemma failed_call_status_witness :
  SimpleTest.main Decoder.loads dumps [U "simple_test.py"; photo] api_key
    (world [] [])
  = (inr 0%Z, log (assessment_request image) (world [] [])) /\
  SimpleTest.main Decoder.loads dumps [U "simple_test.py"; photo] api_key
    (world [] [Fail (JSONDecodeError (U "Expecting value"))])
  = (inr 1%Z,
     log (assessment_request image)
       (world [] [Fail (JSONDecodeError (U "Expecting value"))])).
Proof.
  split.
  - apply (simple_test_exits_0_on_a_failed_assessment Decoder.loads dumps
             _ photo api_key (world [] []) image eq_refl eq_refl).
    left. eexists. split; reflexivity.
  - apply (simple_test_exits_0_on_a_failed_assessment Decoder.loads dumps
             _ photo api_key
             (world [] [Fail (JSONDecodeError (U "Expecting value"))])
             image eq_refl eq_refl)
      with (msg := U "Expecting value").
    reflexivity.
Defined.

Lemma quick_benchmark_witness :
  exists result,
    fst (QuickBenchmark.main Decoder.loads no_repr dumps
           [U "quick_benchmark.py"; photo] api_key
           (world trial_lines trial_outcomes)) = inr 0%Z /\
    find_file
      (files (snd (QuickBenchmark.main Decoder.loads no_repr dumps
                     [U "quick_benchmark.py"; photo] api_key
                     (world trial_lines trial_outcomes))))
      (U "single_test_result.json")
    = Some (Readable (dumps (JObj result))).
Proof.
  destruct (quick_benchmark_status_tells_whether_the_record_was_written
              Decoder.loads no_repr dumps (U "quick_benchmark.py") photo
              api_key (world trial_lines trial_outcomes))
    as [(result & _ & Hstatus & Hfile)|(Hstatus & _)].
  - vm_compute. discriminate.
  - reflexivity.
  - exists result. split; [exact Hstatus|exact Hfile].
  - vm_compute in Hstatus. discriminate.
Defined.

Lemma no_key_witness :
  GeminiHazardBenchmark.main Decoder.loads no_repr dumps None
    (world typed_paths [])
  = (inr tt, world typed_paths []).
Proof.
  apply (runner_raises_only_at_the_path_prompt Decoder.loads no_repr dumps
           None (world typed_paths [])).
  reflexivity.
Defined.

Lemma runner_witness :
  exists w',
    GeminiHazardBenchmark.main Decoder.loads no_repr dumps api_key
      (world typed_paths [])
    = (inr tt, w') /\
    find_file (files w') (U "benchmark_results.json")
    = Some (Readable (U "<dict>")).
Proof.
  edestruct (runner_writes_the_report_of_five_trials Decoder.loads no_repr
               dumps api_key (world typed_paths []))
    as (_ & _ & _ & Hmain).
  - reflexivity.
  - vm_compute. reflexivity.
  - vm_compute in Hmain. destruct Hmain as (w' & Hmain & Hfile).
    + intros msg H. discriminate.
    + exists w'. split; [|exact Hfile].
      transitivity
        (GeminiHazardBenchmark.main Decoder.loads no_repr dumps api_key
           (world typed_paths [])); [reflexivity|].
      vm_compute. exact Hmain.
Defined.

Lemma failed_first_call_witness :
  fst (GeminiHazardBenchmark.method2_ai_followup Decoder.loads no_repr photo
         (world [scripted_answer] []))
  = inr (GeminiHazardBenchmark.method2_failed
           (APIError (U "connection reset"))) /\
  stdin (snd (GeminiHazardBenchmark.method2_ai_followup Decoder.loads
                no_repr photo (world [scripted_answer] [])))
  = [scripted_answer].
Proof.
  destruct (no_question_after_a_failed_first_call Decoder.loads no_repr
              photo (world [scripted_answer] []) image
              (APIError (U "connection reset")))
    as (Hret & Hin & _).
  - reflexivity.
  - reflexivity.
  - split; [exact Hret|exact Hin].
Defined.

Lemma end_of_input_witness :
  fst (GeminiHazardBenchmark.method2_ai_followup Decoder.loads no_repr photo
         (world [] [Reply (reply_with followup_reply)]))
  = inr (GeminiHazardBenchmark.method2_failed
           (EOFError (U "EOF when reading a line"))) /\
  exists w',
    GeminiHazardBenchmark.run_trial Decoder.loads no_repr photo 1
      (GeminiHazardBenchmark.mkTally [] [] [])
      (world [U "exposed wiring"; U "assembly line 3"] trial_outcomes)
    = (GeminiHazardBenchmark.mkTally [] [] [], w') /\
    calls w' = [].
Proof.
  split.
  - destruct (end_of_input_is_caught_only_at_the_clarification
                Decoder.loads no_repr photo
                (world [] [Reply (reply_with followup_reply)]))
      as (Hcaught & _).
    rewrite (Hcaught image followup_dict).
    + reflexivity.
    + reflexivity.
    + vm_compute. reflexivity.
    + reflexivity.
  - destruct (end_of_input_is_caught_only_at_the_clarification
                Decoder.loads no_repr photo
                (world [U "exposed wiring"; U "assembly line 3"]
                   trial_outcomes))
      as (_ & Hraised).
    destruct Hraised as (w' & _ & _ & Hcalls & Hrun).
    + simpl. lia.
    + exists w'. split; [|exact Hcalls]. apply Hrun.
      vm_compute. discriminate.
Defined.

Lemma null_mode_witness :
  exists e w',
    HazardDetectionBenchmark.run_benchmark Decoder.loads dumps photo None
      (world [] [Reply (reply_with null_mode_reply)])
    = (inl (AttributeError e), w').
Proof.
  eexists _, _.
  apply (mode_that_is_no_string_breaks_the_summary Decoder.loads dumps photo
           (world [] [Reply (reply_with null_mode_reply)]) image
           (reply_with null_mode_reply)
           [(U "mode", JNull); (U "issue", JStr (U "oil on the floor"))]
           JNull).
  - reflexivity.
  - reflexivity.
  - vm_compute. reflexivity.
  - reflexivity.
  - reflexivity.
  - intros s H. discriminate.
Defined.

Lemma prose_around_fence_witness :
  GeminiHazardBenchmark.strip_json_fence
    (preamble ++ fenced plain_payload ++ postscript)
  = plain_payload.
Proof.
  rewrite (fenced_block_is_found_amid_prose preamble plain_payload
             postscript).
  - vm_compute. reflexivity.
  - vm_compute. reflexivity.
  - vm_compute. reflexivity.
Defined.

Lemma text_before_fence_witness :
  HazardDetectionBenchmark.clean_markdown
    (strip (preamble ++ fenced plain_payload ++ postscript))
  = preamble ++ fenced plain_payload ++ postscript.
Proof.
  exact (proj1 (proj2
           (fenced_block_after_text_is_not_cleaned Decoder.loads 72%N
              (tl preamble) plain_payload postscript eq_refl eq_refl))).
Defined.

Lemma ground_truth_witness :
  exists gt w1 verdict prompt,
    GeminiHazardBenchmark.get_ground_truth (world (skipn 4 trial_lines) [])
    = (inr gt, w1) /\
    GeminiHazardBenchmark.evaluate_accuracy Decoder.loads no_repr [] [] gt w1
    = (inr verdict, log (mkRequest [prompt] None) w1) /\
    occurs_in (U "sparking exposed wiring") prompt.
Proof.
  destruct (judge_prompt_shows_the_ground_truth Decoder.loads no_repr
              [] [] (world (skipn 4 trial_lines) [])
              (U "sparking exposed wiring") (U "assembly line 3, panel B")
              (U "urgent") [])
    as (gt & w1 & verdict & prompt & Hgt & _ & Hev & Ha & _).
  - reflexivity.
  - exists gt, w1, verdict, prompt. now repeat split.
Defined.

Lemma locked_image_witness :
  SimpleTest.main Decoder.loads dumps [U "simple_test.py"; photo] api_key
    (locked trial_lines)
  = (inr 1%Z, locked trial_lines) /\
  GeminiHazardBenchmark.run_trial Decoder.loads no_repr photo 1
    (GeminiHazardBenchmark.mkTally [] [] []) (locked trial_lines)
  = (GeminiHazardBenchmark.mkTally [] [] [],
     locked (skipn 3 trial_lines)).
Proof.
  destruct (unreadable_image_is_not_an_error_record Decoder.loads no_repr
              dumps photo (U "[Errno 13] Permission denied: 'line3.png'")
              (locked trial_lines) eq_refl)
    as (_ & _ & Hexit & Hm1).
  split.
  - apply Hexit. reflexivity.
  - exact (proj2 (Hm1 _ _ _ _ 1%Z (GeminiHazardBenchmark.mkTally [] [] [])
                    eq_refl)).
Defined.

Lemma png_sent_as_jpeg_witness :
  mime_type photo = U "image/png" /\
  map req_image
    (calls (snd (HazardDetectionBenchmark.analyze_hazard_image Decoder.loads
                   photo (world [] [Reply (reply_with prose_reply)]))))
  = [Some (U "image/jpeg", image)] /\
  (exists record,
     fst (HazardDetectionBenchmark.analyze_hazard_image Decoder.loads
            photo (world [] [Reply (reply_with prose_reply)]))
     = inr (JObj record)) /\
  fst (HazardDetectionBenchmark.analyze_hazard_image Decoder.loads photo
         (world [] [Fail (JSONDecodeError (U "Expecting value"))]))
  = inl HazardDetectionBenchmark.content_unbound.
Proof.
  split; [reflexivity|].
  destruct (assessor_sends_one_jpeg_request Decoder.loads photo
              (world [] [Reply (reply_with prose_reply)]) image eq_refl)
    as (Hcalls & Himage & _ & _ & Hret & _).
  split; [|split].
  - rewrite Hcalls. cbn [calls world app map]. now rewrite Himage.
  - apply Hret. intros msg H. vm_compute in H. discriminate.
  - destruct (assessor_sends_one_jpeg_request Decoder.loads photo
                (world [] [Fail (JSONDecodeError (U "Expecting value"))])
                image eq_refl)
      as (_ & _ & _ & _ & _ & Hraise).
    exact (Hraise (U "Expecting value") eq_refl).
Defined.

End MoreExamples.
